(** * Shortest router paths (dijkstra.py): a shallow embedding and its properties

    The development follows the layout of [dijkstra.py]: the address codec
    ([ipv4_to_value], [value_to_ipv4], [get_subnet_mask_value],
    [ips_same_subnet]), the router locator ([find_router_for_ip]), the
    shortest-path engine and the path reconstruction ([get_shortest_path]) and
    the entry point [dijkstras_shortest_path].

    Python values are modelled as follows.
    - [int] is [Z]; [|], [&], [<<] and [>>] are [Z.lor], [Z.land], [Z.shiftl]
      and [Z.shiftr] (Python integers are unbounded and two's complement).
    - [str] is [string], read as a sequence of code points below 256.
    - the [routers] dictionary and each [connections] dictionary are
      association lists in insertion order (iteration order matters); the
      [distances] and [previous] dictionaries, which are only read and written
      by key, are [gmap]s.
    - the [unvisited] set is the list of its elements in iteration order.
      That order depends on the hashes of the strings, so it is a parameter
      [set_order] of the search, and the properties hold for every order.
    - [math.inf] is the only float that occurs: a distance is [Inf] or an
      exact integer [Fin z]; adding an integer to [math.inf] converts the
      integer to a float, which overflows for very large integers.
    - an exception is a value [Raise e] of the [result] type.
    - the interpreter is CPython on a 64-bit build with its default settings:
      a repeat count must fit an index ([sys.maxsize] = 2^63 - 1), and [int]
      reads at most 4300 decimal digits ([sys.get_int_max_str_digits()]).
    - how long a string can be built depends on the memory of the machine,
      not on the program: it is the parameter [max_str_len] of a [machine],
      and the properties hold for every machine.
    - the two [while] loops take fuel: [None] means that the fuel ran out
      before the loop ended. The properties give a number of iterations that
      is enough. *)

From Stdlib Require Import ZArith Lia Ascii String DecimalString.
From stdpp Require Import base numbers list strings gmap fin_maps.

Local Open Scope Z_scope.

(** ** Exceptions *)

Inductive exn : Type :=
| IndexError
| ValueError
| KeyError
| OverflowError
| MemoryError.

Inductive result (A : Type) : Type :=
| Ok (a : A)
| Raise (e : exn).

Arguments Ok {A} a.
Arguments Raise {A} e.

#[global] Instance result_ret : MRet result := fun A a => Ok a.
#[global] Instance result_bind : MBind result := fun A B f m =>
  match m with
  | Ok a => f a
  | Raise e => Raise e
  end.

Definition is_Ok {A} (r : result A) : bool :=
  match r with
  | Ok _ => true
  | Raise _ => false
  end.

(** [o] when present, exception [e] otherwise. *)
Definition or_raise {A} (e : exn) (o : option A) : result A :=
  match o with
  | Some a => Ok a
  | None => Raise e
  end.

(** ** Python built-ins used by the program *)

(** [s.split(sep)] for a one-character separator: every occurrence of [sep]
    ends a field, so a text with [n] separators has [n + 1] fields. *)
Fixpoint py_split (sep : ascii) (s : string) : list string :=
  match s with
  | EmptyString => [EmptyString]
  | String c s' =>
      if Ascii.eqb c sep then EmptyString :: py_split sep s'
      else match py_split sep s' with
           | f :: fs => String c f :: fs
           | [] => [String c EmptyString]
           end
  end.

(** [sep.join(l)]. *)
Fixpoint py_join (sep : string) (l : list string) : string :=
  match l with
  | [] => EmptyString
  | [x] => x
  | x :: rest => x +:+ sep +:+ py_join sep rest
  end.

(** [l[i]] for a list and an index [i >= 0]. *)
Definition py_index {A} (l : list A) (i : Z) : result A :=
  or_raise IndexError (l !! Z.to_nat i).

(** [sys.maxsize], the largest index. *)
Definition index_max : Z := 2 ^ 63 - 1.

(** The memory of the machine that runs the program: [max_str_len] is the
    length of the longest string that the allocator grants; building a longer
    one raises MemoryError. Nothing is known of it but that the 32 characters
    of a mask are granted, and that a string, which is stored with a header,
    is shorter than [sys.maxsize]. *)
Class machine : Type := {
  max_str_len : Z;
  max_str_len_mask : 32 ≤ max_str_len;
  max_str_len_index : max_str_len < index_max;
}.

(** The text made of [n] copies of the character [c]. *)
Fixpoint rep_char (c : ascii) (n : nat) : string :=
  match n with
  | O => EmptyString
  | S n' => String c (rep_char c n')
  end.

(** [c * n] for a one-character string [c]: the count must fit an index
    (OverflowError: "cannot fit 'int' into an index-sized integer"); the
    result is the empty string when [n <= 0]; MemoryError when it is longer
    than the machine grants. *)
Definition py_repeat {mach : machine} (c : ascii) (n : Z) : result string :=
  if (n <? - index_max - 1) || (index_max <? n) then Raise OverflowError
  else if max_str_len <? n then Raise MemoryError
  else Ok (rep_char c (Z.to_nat n)).

(** [str(n)] for an integer (of at most 4300 digits; the program applies it
    to octets). *)
Definition py_str (n : Z) : string :=
  NilZero.string_of_int (Z.to_int n).

(** Whitespace accepted around a number by [int]: tab to carriage return,
    space, and the two spaces of the range 128..255 (NEL and NBSP). *)
Definition is_space (c : ascii) : bool :=
  let n := Z.of_nat (nat_of_ascii c) in
  ((9 <=? n) && (n <=? 13)) || (n =? 32) || (n =? 133) || (n =? 160).

Definition digit_value (c : ascii) : option Z :=
  let n := Z.of_nat (nat_of_ascii c) in
  if (48 <=? n) && (n <=? 57) then Some (n - 48) else None.

Definition is_underscore (c : ascii) : bool := Ascii.eqb c "_"%char.

Fixpoint skip_spaces (s : string) : string :=
  match s with
  | String c s' => if is_space c then skip_spaces s' else s
  | EmptyString => s
  end.

(** The digit scanner of [int]: digits below [base] with single underscores
    between them. [prev_us] tells whether the previous character was an
    underscore, [digits] counts the digits read and [acc] is their value.
    Returns the value, the count and the unread rest; [None] on a doubled or
    trailing underscore. *)
Fixpoint scan_digits (base : Z) (s : string) (prev_us : bool) (digits : nat) (acc : Z)
  : option (Z * nat * string) :=
  let finish := if prev_us then None else Some (acc, digits, s) in
  match s with
  | EmptyString => finish
  | String c s' =>
      if is_underscore c then
        if prev_us then None else scan_digits base s' true digits acc
      else
        match digit_value c with
        | Some d =>
            if d <? base then scan_digits base s' false (S digits) (acc * base + d)
            else finish
        | None => finish
        end
  end.

(** The sign of a literal and the text after it. *)
Definition take_sign (s : string) : Z * string :=
  match s with
  | String c s' =>
      if Ascii.eqb c "+"%char then (1, s')
      else if Ascii.eqb c "-"%char then (-1, s')
      else (1, s)
  | EmptyString => (1, s)
  end.

(** With base 2 a literal may start with [0b] or [0B], and one underscore may
    follow that prefix. *)
Definition skip_prefix (base : Z) (s : string) : string :=
  match s with
  | String c0 (String c1 s') =>
      if (base =? 2) && Ascii.eqb c0 "0"%char
         && (Ascii.eqb c1 "b"%char || Ascii.eqb c1 "B"%char)
      then match s' with
           | String c2 s'' => if is_underscore c2 then s'' else s'
           | EmptyString => s'
           end
      else s
  | _ => s
  end.

(** The default of [sys.get_int_max_str_digits()]: the most digits that [int]
    reads in a base that is no power of two. *)
Definition max_str_digits : Z := 4300.

(** [int(s)] (base 10) and [int(s, 2)]: surrounding whitespace, an optional
    sign, then digits; [None] stands for [ValueError]. In base 10 a literal of
    more than [max_str_digits] digits, leading zeros included, is refused
    ("Exceeds the limit (4300 digits) for integer string conversion"); a
    base that is a power of two has no such limit. *)
Definition py_int_opt (base : Z) (s : string) : option Z :=
  let '(sign, s1) := take_sign (skip_spaces s) in
  let s2 := skip_prefix base s1 in
  match s2 with
  | String c _ =>
      if is_underscore c then None
      else
        match scan_digits base s2 false 0%nat 0 with
        | Some (v, digits, rest) =>
            if negb (Z.land base (base - 1) =? 0) && (max_str_digits <? Z.of_nat digits)
            then None
            else
              match digits, skip_spaces rest with
              | S _, EmptyString => Some (sign * v)
              | _, _ => None
              end
        | None => None
        end
  | EmptyString => None
  end.

Definition py_int (base : Z) (s : string) : result Z :=
  or_raise ValueError (py_int_opt base s).

(** ** Address codec *)

(** [for i in range(4): value |= int(ipv4_addr.split('.')[i]) << (8 * (3 - i))] *)
Definition ipv4_to_value (ipv4_addr : string) : result Z :=
  foldl (fun (acc : result Z) (i : Z) =>
           value ← acc;
           octet ← py_index (py_split "."%char ipv4_addr) i;
           n ← py_int 10 octet;
           Ok (Z.lor value (Z.shiftl n (8 * (3 - i)))))
        (Ok 0) (seqZ 0 4).

(** [for i in range(4): octet = (addr >> (8 * (3 - i))) & 0xff; ...] *)
Definition value_to_ipv4 (addr : Z) : string :=
  let ip_addr :=
    foldl (fun (ip_addr : list string) (i : Z) =>
             let octet := Z.land (Z.shiftr addr (8 * (3 - i))) 255 in
             ip_addr ++ [py_str octet])
          [] (seqZ 0 4) in
  py_join "." ip_addr.

(** [mask = '1' * value + '0' * (32 - value)], then [int(mask, 2)]: the
    integer read from the mask takes less memory than its text. *)
Definition get_subnet_mask_value {mach : machine} (slash : string) : result Z :=
  field ← py_index (py_split "/"%char slash) 1;
  value ← py_int 10 field;
  ones ← py_repeat "1"%char value;
  zeros ← py_repeat "0"%char (32 - value);
  let mask := ones +:+ zeros in
  py_int 2 mask.

Definition ips_same_subnet {mach : machine} (ip1 ip2 slash : string) : result bool :=
  v1 ← ipv4_to_value ip1;
  v2 ← ipv4_to_value ip2;
  mask ← get_subnet_mask_value slash;
  Ok (Z.land v1 mask =? Z.land v2 mask).

(** ** The network *)

(** A Python dictionary whose iteration order matters: the association list
    of its items in insertion order. *)
Definition dict_keys {V} (d : list (string * V)) : list string := d.*1.

(** [d[k]]. *)
Fixpoint dict_get_opt {V} (d : list (string * V)) (k : string) : option V :=
  match d with
  | [] => None
  | (k', v) :: d' => if String.eqb k' k then Some v else dict_get_opt d' k
  end.

Definition dict_get {V} (d : list (string * V)) (k : string) : result V :=
  or_raise KeyError (dict_get_opt d k).

(** An entry of a router's ["connections"]. *)
Record link : Type := {
  link_netmask : string;
  interface : string;
  ad : Z;
}.

(** A value of the [routers] dictionary. *)
Record router : Type := {
  connections : list (string * link);
  netmask : string;
  if_count : Z;
  if_prefix : string;
}.

(** ** Router locator *)

(** [for r in routers: if ips_same_subnet(ip, r, routers[r]['netmask']): ...] *)
Fixpoint find_router_loop {mach : machine} (routers : list (string * router)) (ip : string)
    (keys : list string) : result (option string) :=
  match keys with
  | [] => Ok None
  | r :: keys' =>
      info ← dict_get routers r;
      same ← ips_same_subnet ip r (netmask info);
      if same : bool then Ok (Some r) else find_router_loop routers ip keys'
  end.

Definition find_router_for_ip {mach : machine} (routers : list (string * router))
    (ip : string) : result (option string) :=
  find_router_loop routers ip (dict_keys routers).

(** ** Shortest path engine *)

(** A value of the [distances] dictionary: [math.inf] or an integer. *)
Inductive dist : Type :=
| Inf
| Fin (z : Z).

(** The least integer whose conversion to a float overflows: halfway between
    the largest float, 2^1024 - 2^971, and 2^1024, which rounds up. *)
Definition float_overflow : Z := 2 ^ 1024 - 2 ^ 970.

(** [d + w] for a weight [w]: exact on integers; [math.inf + w] converts [w]
    to a float first, which raises [OverflowError] when [w] is too large. *)
Definition dist_add (d : dist) (w : Z) : result dist :=
  match d with
  | Fin z => Ok (Fin (z + w))
  | Inf => if Z.abs w <? float_overflow then Ok Inf else Raise OverflowError
  end.

(** [a < b]; an integer of any size is below [math.inf]. *)
Definition dist_lt (a b : dist) : bool :=
  match a, b with
  | Fin x, Fin y => x <? y
  | Fin _, Inf => true
  | Inf, _ => false
  end.

(** The objects that live during a call of [get_shortest_path]: the
    [routers] dictionary of the caller, shared by reference, and the three
    local containers. *)
Record frame : Type := {
  f_routers : list (string * router);
  distances : gmap (option string) dist;
  unvisited : list string;
  previous : gmap string (option string);
}.

Definition set_distances (d : gmap (option string) dist) (f : frame) : frame :=
  {| f_routers := f_routers f; distances := d;
     unvisited := unvisited f; previous := previous f |}.

Definition set_unvisited (u : list string) (f : frame) : frame :=
  {| f_routers := f_routers f; distances := distances f;
     unvisited := u; previous := previous f |}.

Definition set_previous (p : gmap string (option string)) (f : frame) : frame :=
  {| f_routers := f_routers f; distances := distances f;
     unvisited := unvisited f; previous := p |}.

(** Statements: they read and write the frame and may raise; an exception
    leaves the frame as it was when it was raised. *)
Definition M (A : Type) : Type := frame → result A * frame.

Definition m_ret {A} (a : A) : M A := fun f => (Ok a, f).

Definition m_bind {A B} (c : M A) (k : A → M B) : M B := fun f =>
  match c f with
  | (Ok a, f') => k a f'
  | (Raise e, f') => (Raise e, f')
  end.

Definition m_lift {A} (r : result A) : M A := fun f => (r, f).
Definition m_get : M frame := fun f => (Ok f, f).
Definition m_put (f' : frame) : M unit := fun _ => (Ok tt, f').

Notation "'let*' x ':=' c 'in' k" := (m_bind c (fun x => k))
  (at level 10, x name, c at level 100, k at level 200).
Notation "c1 ';;;' c2" := (m_bind c1 (fun _ => c2))
  (at level 100, c2 at level 200, right associativity).

(** [distances[r]] *)
Definition get_distance (r : string) : M dist := fun f =>
  (or_raise KeyError (distances f !! Some r), f).

(** [min(l, key=key)]: the first element of [l] whose key is least. *)
Fixpoint min_loop (key : string → M dist) (best : string) (kbest : dist)
    (l : list string) : M string :=
  match l with
  | [] => m_ret best
  | x :: l' =>
      let* kx := key x in
      if dist_lt kx kbest then min_loop key x kx l' else min_loop key best kbest l'
  end.

Definition py_min (key : string → M dist) (l : list string) : M string :=
  match l with
  | [] => m_lift (Raise ValueError)
  | x :: l' => let* kx := key x in min_loop key x kx l'
  end.

(** [unvisited.remove(x)] *)
Definition set_remove (x : string) : M unit := fun f =>
  if bool_decide (x ∈ unvisited f)
  then (Ok tt, set_unvisited (filter (λ y, y ≠ x) (unvisited f)) f)
  else (Raise KeyError, f).

(** The body of the loop over the neighbours of [current_router]. *)
Definition relax (current_router neighbor : string) (dst : link) : M unit :=
  let* f := m_get in
  if bool_decide (neighbor ∈ unvisited f) then
    let* dcur := get_distance current_router in
    let* new_distance := m_lift (dist_add dcur (ad dst)) in
    let* dn := get_distance neighbor in
    if dist_lt new_distance dn then
      m_put (set_previous (<[neighbor := Some current_router]> (previous f))
               (set_distances (<[Some neighbor := new_distance]> (distances f)) f))
    else m_ret tt
  else m_ret tt.

(** [for k, v in items: body(k, v)] *)
Fixpoint for_items {V} (body : string → V → M unit) (items : list (string * V)) : M unit :=
  match items with
  | [] => m_ret tt
  | (k, v) :: items' => body k v ;;; for_items body items'
  end.

(** One iteration of [while unvisited:]; [false] stands for [break]. *)
Definition iteration (dest_router : option string) : M bool :=
  let* f := m_get in
  let* current_router := py_min get_distance (unvisited f) in
  if bool_decide (Some current_router = dest_router) then m_ret false
  else
    set_remove current_router ;;;
    let* f1 := m_get in
    let* info := m_lift (dict_get (f_routers f1) current_router) in
    for_items (relax current_router) (connections info) ;;;
    m_ret true.

(** [while unvisited: ...]; [None] when the fuel runs out before the loop
    ends. *)
Fixpoint while_unvisited (fuel : nat) (dest_router : option string) (f : frame)
  : option (result unit * frame) :=
  match unvisited f with
  | [] => Some (Ok tt, f)
  | _ :: _ =>
      match fuel with
      | O => None
      | S fuel' =>
          match iteration dest_router f with
          | (Ok true, f') => while_unvisited fuel' dest_router f'
          | (Ok false, f') => Some (Ok tt, f')
          | (Raise e, f') => Some (Raise e, f')
          end
      end
  end.

(** The walk back along [previous]: [while current_router is not None: ...];
    [None] when the fuel runs out. *)
Fixpoint walk_back (fuel : nat) (previous : gmap string (option string))
    (src_router dest_router current_router : option string) (path : list string)
  : option (result (list string)) :=
  match current_router with
  | None => Some (Ok path)
  | Some c =>
      if bool_decide (dest_router = src_router) then Some (Ok path)
      else
        match fuel with
        | O => None
        | S fuel' =>
            match previous !! c with
            | Some p => walk_back fuel' previous src_router dest_router p (path ++ [c])
            | None => Some (Raise KeyError)
            end
        end
  end.

Section Engine.

Context {mach : machine}.

(** The order in which a [set] with the given elements is iterated. It
    depends on the hashes of the strings; removing an element from a set
    leaves the order of the others as it is. *)
Variable set_order : list string → list string.

(** The frame after the initialisations of [get_shortest_path]. *)
Definition initial_frame (routers : list (string * router))
    (src_router : option string) : frame :=
  {| f_routers := routers;
     distances :=
       <[src_router := Fin 0]>
         (list_to_map ((λ r, (Some r, Inf)) <$> dict_keys routers));
     unvisited := set_order (dict_keys routers);
     previous := list_to_map ((λ r, (r, None)) <$> dict_keys routers) |}.

(** The main loop of [get_shortest_path], from the initial frame. *)
Definition shortest_path_engine (fuel : nat) (routers : list (string * router))
    (src_router dest_router : option string) : option (result unit * frame) :=
  while_unvisited fuel dest_router (initial_frame routers src_router).

(** The outcome of [get_shortest_path] and the [routers] dictionary after
    the call. *)
Definition get_shortest_path (fuel : nat) (routers : list (string * router))
    (src_router dest_router : option string)
  : option (result (list string) * list (string * router)) :=
  match shortest_path_engine fuel routers src_router dest_router with
  | None => None
  | Some (Raise e, f) => Some (Raise e, f_routers f)
  | Some (Ok _, f) =>
      match walk_back fuel (previous f) src_router dest_router dest_router [] with
      | None => None
      | Some (Raise e) => Some (Raise e, f_routers f)
      | Some (Ok path) => Some (Ok (rev path), f_routers f)
      end
  end.

(** The entry point: the outcome and the [routers] dictionary after the
    call. *)
Definition dijkstras_shortest_path (fuel : nat) (routers : list (string * router))
    (src_ip dest_ip : string)
  : option (result (list string) * list (string * router)) :=
  match find_router_for_ip routers src_ip with
  | Raise e => Some (Raise e, routers)
  | Ok src_router =>
      match find_router_for_ip routers dest_ip with
      | Raise e => Some (Raise e, routers)
      | Ok dest_router => get_shortest_path fuel routers src_router dest_router
      end
  end.

End Engine.

(** ** Examples *)

(** The machine that grants a mask's 32 characters and no more: what it
    computes without MemoryError, every machine computes. *)
Definition smallest_machine : machine :=
  {| max_str_len := 32;
     max_str_len_mask := Z.le_refl 32;
     max_str_len_index := ltac:(by vm_compute) |}.

(** A machine that grants strings of up to 2^30 characters; the examples are
    run on it. *)
Definition example_machine : machine :=
  {| max_str_len := 2 ^ 30;
     max_str_len_mask := ltac:(by vm_compute);
     max_str_len_index := ltac:(by vm_compute) |}.

Definition mk_link (w : Z) : link :=
  {| link_netmask := "/24"; interface := "en0"; ad := w |}.

Definition mk_router (mask : string) (cs : list (string * Z)) : router :=
  {| connections := (λ '(k, w), (k, mk_link w)) <$> cs;
     netmask := mask; if_count := Z.of_nat (length cs); if_prefix := "en" |}.

(** Routers A, B and C with links A-B of weight 10, B-C of weight 5 and A-C
    of weight 20. *)
Definition triangle : list (string * router) :=
  [ ("10.0.1.1", mk_router "/24" [("10.0.2.1", 10); ("10.0.3.1", 20)]);
    ("10.0.2.1", mk_router "/24" [("10.0.1.1", 10); ("10.0.3.1", 5)]);
    ("10.0.3.1", mk_router "/24" [("10.0.1.1", 20); ("10.0.2.1", 5)]) ].


(** ** Notions used to state the properties *)

(** *** Textual addresses *)

Definition is_digit (c : ascii) : bool :=
  let n := Z.of_nat (nat_of_ascii c) in (48 <=? n) && (n <=? 57).

(** The number written by a string of decimal digits. *)
Fixpoint decimal_value (s : string) (acc : Z) : Z :=
  match s with
  | EmptyString => acc
  | String c s' => decimal_value s' (10 * acc + (Z.of_nat (nat_of_ascii c) - 48))
  end.

Fixpoint all_digits (s : string) : bool :=
  match s with
  | EmptyString => true
  | String c s' => is_digit c && all_digits s'
  end.

(** A decimal octet: one or more decimal digits whose value is at most 255. *)
Definition decimal_octet (p : string) : bool :=
  match p with
  | EmptyString => false
  | String _ _ => all_digits p && (decimal_value p 0 <=? 255)
  end.

(** A canonical octet: a decimal octet with no leading zero. *)
Definition canonical_octet (p : string) : bool :=
  decimal_octet p &&
  match p with
  | String c (String _ _) => negb (Ascii.eqb c "0"%char)
  | _ => true
  end.

(** Exactly four dot-separated fields, each accepted by [octet]. *)
Definition dotted_quad (octet : string → bool) (s : string) : bool :=
  match py_split "."%char s with
  | [a; b; c; d] => octet a && octet b && octet c && octet d
  | _ => false
  end.

(** Every dot-separated field of [s] has at most [max_str_digits]
    characters. *)
Definition fields_within_limit (s : string) : bool :=
  forallb (λ f, Z.of_nat (String.length f) <=? max_str_digits) (py_split "."%char s).

(** The value assembled from four octets. *)
Definition pack (a b c d : Z) : Z :=
  Z.lor (Z.lor (Z.lor (Z.lor 0 (Z.shiftl a 24)) (Z.shiftl b 16)) (Z.shiftl c 8))
        (Z.shiftl d 0).

(** *** Networks *)

(** What a [routers] dictionary satisfies by construction (keys are distinct
    in a dictionary) and by the data model (no negative weight). *)
Definition wf_graph (routers : list (string * router)) : bool :=
  bool_decide (NoDup (dict_keys routers)) &&
  forallb (λ '(_, info),
             bool_decide (NoDup (dict_keys (connections info))) &&
             forallb (λ '(_, l), 0 <=? ad l) (connections info))
          routers.

(** Every router key is an address and every router netmask a slash
    notation that the codec parses. *)
Definition wf_addresses {mach : machine} (routers : list (string * router)) : bool :=
  forallb (λ '(r, info),
             is_Ok (ipv4_to_value r) && is_Ok (get_subnet_mask_value (netmask info)))
          routers.

(** Every weight can be converted to a float. *)
Definition weights_bounded (routers : list (string * router)) : bool :=
  forallb (λ '(_, info),
             forallb (λ '(_, l), Z.abs (ad l) <? float_overflow) (connections info))
          routers.

(** The weight of the link from [u] to [v], both routers of the network. *)
Definition edge_weight (routers : list (string * router)) (u v : string) : option Z :=
  info ← dict_get_opt routers u;
  l ← dict_get_opt (connections info) v;
  if bool_decide (v ∈ dict_keys routers) then Some (ad l) else None.

(** The total weight of the walk that starts at [u] and then visits [rest],
    if every step is a link. *)
Fixpoint walk_weight (routers : list (string * router)) (u : string)
    (rest : list string) : option Z :=
  match rest with
  | [] => Some 0
  | v :: rest' =>
      w ← edge_weight routers u v;
      d ← walk_weight routers v rest';
      Some (w + d)
  end.

(** [nodes] is a directed path of total weight [d] from [s] to [t]. *)
Definition is_path (routers : list (string * router)) (s t : string)
    (nodes : list string) (d : Z) : Prop :=
  match nodes with
  | [] => False
  | u :: rest =>
      u = s ∧ s ∈ dict_keys routers ∧ last nodes = Some t ∧
      walk_weight routers u rest = Some d
  end.

(** [d] is the distance from [s] to [t]: the least weight of a path, or
    [Inf] when there is no path. *)
Definition is_distance (routers : list (string * router)) (s t : string)
    (d : dist) : Prop :=
  match d with
  | Fin z =>
      (∃ nodes, is_path routers s t nodes z) ∧
      (∀ nodes z', is_path routers s t nodes z' → z ≤ z')
  | Inf => ∀ nodes z', ¬ is_path routers s t nodes z'
  end.

(** [distances[v]] and [a <= b] on distances. *)
Definition dist_of (f : frame) (v : string) : dist :=
  default Inf (distances f !! Some v).

Definition dist_le (a b : dist) : Prop := dist_lt b a = false.

(** The routers met when [previous] is followed from [cur], [cur] first. *)
Inductive chain (prev : gmap string (option string)) : option string → list string → Prop :=
| chain_end : chain prev None []
| chain_step c p l :
    prev !! c = Some p → chain prev p l → chain prev (Some c) (c :: l).

(** [s] has no occurrence of [sep]. *)
Fixpoint no_sep (sep : ascii) (s : string) : bool :=
  match s with
  | EmptyString => true
  | String c s' => negb (Ascii.eqb c sep) && no_sep sep s'
  end.

(** What [ipv4_to_value] needs of a text: at least four dot-separated fields,
    the first four of them accepted by [int]. *)
Definition first_four_parse (s : string) : bool :=
  match py_split "."%char s with
  | f0 :: f1 :: f2 :: f3 :: _ =>
      bool_decide (is_Some (py_int_opt 10 f0)) && bool_decide (is_Some (py_int_opt 10 f1)) &&
      bool_decide (is_Some (py_int_opt 10 f2)) && bool_decide (is_Some (py_int_opt 10 f3))
  | _ => false
  end.

(** The mask that [get_subnet_mask_value] computes from the number [n] after
    the slash. *)
Definition mask_of_prefix (n : Z) : Z :=
  if n <? 0 then 0
  else if n <=? 32 then Z.shiftl (Z.ones n) (32 - n)
  else Z.ones n.

(** *** Invariants of the main loop *)

(** The invariant of [while unvisited:] when the source is the router [s] of
    the network. A router is visited when it is a key that has left
    [unvisited]. [cur] is the router whose links are being relaxed, if any:
    its links are not yet known to be relaxed. *)
Record engine_inv (routers : list (string * router)) (s : string)
    (dest cur : option string) (f : frame) : Prop := {
  inv_routers : f_routers f = routers;
  inv_unvisited : ∀ x, x ∈ unvisited f → x ∈ dict_keys routers;
  inv_distances : ∀ x, x ∈ dict_keys routers → is_Some (distances f !! Some x);
  inv_previous : ∀ x, x ∈ dict_keys routers → is_Some (previous f !! x);
  inv_src : dist_of f s = Fin 0 ∧ previous f !! s = Some None;
  inv_nonneg : ∀ x z, dist_of f x = Fin z → 0 ≤ z;
  inv_inf : ∀ x, x ∈ dict_keys routers → dist_of f x = Inf → previous f !! x = Some None;
  inv_tree : ∀ x z,
    x ∈ dict_keys routers → x ≠ s → dist_of f x = Fin z →
    ∃ p zp w, previous f !! x = Some (Some p) ∧ dist_of f p = Fin zp ∧
              edge_weight routers p x = Some w ∧ z = zp + w;
  inv_parent : ∀ x p,
    previous f !! x = Some (Some p) → p ∈ dict_keys routers ∧ p ∉ unvisited f;
  inv_chain : ∀ x,
    x ∈ dict_keys routers → x ∉ unvisited f →
    ∃ l, chain (previous f) (Some x) l ∧ NoDup l ∧
         ∀ y, y ∈ l → y ∈ dict_keys routers ∧ y ∉ unvisited f;
  inv_relaxed : ∀ u v zu w,
    u ∈ dict_keys routers → u ∉ unvisited f → Some u ≠ cur →
    dist_of f u = Fin zu → edge_weight routers u v = Some w →
    dist_le (dist_of f v) (Fin (zu + w));
  inv_order : ∀ u v,
    u ∈ dict_keys routers → u ∉ unvisited f → v ∈ unvisited f →
    dist_le (dist_of f u) (dist_of f v);
  inv_dest : ∀ d, dest = Some d → d ∈ dict_keys routers → d ∈ unvisited f;
}.

(** The invariant of the loop over the links of [x], whose distance is [dx];
    [done] are the links already handled. *)
Record relax_inv (routers : list (string * router)) (s : string)
    (dest : option string) (x : string) (dx : dist) (done : list (string * link))
    (f : frame) : Prop := {
  ri_inv : engine_inv routers s dest (Some x) f;
  ri_cur : x ∈ dict_keys routers ∧ (x ∉ unvisited f) ∧ dist_of f x = dx;
  ri_done : ∀ n l zx,
    (n, l) ∈ done → n ∈ unvisited f → dx = Fin zx →
    dist_le (dist_of f n) (Fin (zx + ad l));
  ri_below : ∀ u,
    u ∈ dict_keys routers → u ∉ unvisited f → dist_le (dist_of f u) dx;
}.

(** The invariant when the source is no router of the network: nothing is
    ever relaxed. *)
Record idle_inv (routers : list (string * router)) (f : frame) : Prop := {
  idle_routers : f_routers f = routers;
  idle_unvisited : ∀ x, x ∈ unvisited f → x ∈ dict_keys routers;
  idle_distances : ∀ x, x ∈ dict_keys routers → distances f !! Some x = Some Inf;
  idle_previous : ∀ x, x ∈ dict_keys routers → previous f !! x = Some None;
}.

(** How the main loop ends: [unvisited] is empty, or the destination is an
    unvisited router of least distance. *)
Definition loop_ended (dest : option string) (f : frame) : Prop :=
  unvisited f = [] ∨
  ∃ d, dest = Some d ∧ d ∈ unvisited f ∧
       ∀ y, y ∈ unvisited f → dist_le (dist_of f d) (dist_of f y).

(** What makes [math.inf + weight] harmless in a search from [s] to [dest]:
    every weight fits a float, or the destination can be reached (then the
    loop stops before a router at distance [math.inf] is visited). *)
Definition overflow_free (routers : list (string * router)) (s : string)
    (dest : option string) : Prop :=
  weights_bounded routers = true ∨
  ∃ d nodes z, dest = Some d ∧ is_path routers s d nodes z.

(** *** Statements about the whole program *)

(** No router's declared subnet contains the host address [ip]. *)
Definition matches_no_router {mach : machine} (routers : list (string * router))
    (ip : string) : bool :=
  forallb (λ '(r, info),
             match ips_same_subnet ip r (netmask info) with
             | Ok false => true
             | _ => false
             end)
          routers.

(** The main loop ends in a frame whose distance table is right: for every
    router visited before the loop stops and for the destination,
    [distances] holds the least weight of a path from the source, or
    [math.inf] when there is none; and the walk back from a destination at a
    finite distance is a path of that weight. *)
Definition engine_correct (set_order : list string → list string)
    (routers : list (string * router)) (s d : string) : Prop :=
  ∃ f,
    (∀ fuel, (length routers ≤ fuel)%nat →
       shortest_path_engine set_order fuel routers (Some s) (Some d) = Some (Ok tt, f)) ∧
    (∀ v, v ∈ dict_keys routers → v ∉ unvisited f →
       is_distance routers s v (dist_of f v)) ∧
    is_distance routers s d (dist_of f d) ∧
    (∀ z, dist_of f d = Fin z →
       ∃ c, chain (previous f) (Some d) c ∧ is_path routers s d (rev c) z).

(** Two routers that link to each other with a weight too large for a
    float. *)
Definition heavy_pair : list (string * router) :=
  [ ("10.0.1.1", mk_router "/24" [("10.0.2.1", 2 ^ 1024)]);
    ("10.0.2.1", mk_router "/24" [("10.0.1.1", 2 ^ 1024)]) ].

(** A source without links, a heavy pair and a destination. *)
Definition heavy_island : list (string * router) :=
  [ ("10.0.0.1", mk_router "/24" []);
    ("10.0.1.1", mk_router "/24" [("10.0.2.1", 2 ^ 1024)]);
    ("10.0.2.1", mk_router "/24" [("10.0.1.1", 2 ^ 1024)]);
    ("10.0.3.1", mk_router "/24" []) ].

(** Two routers linked to each other and a third one without links. *)
Definition two_islands : list (string * router) :=
  [ ("10.0.1.1", mk_router "/24" [("10.0.2.1", 10)]);
    ("10.0.2.1", mk_router "/24" [("10.0.1.1", 10)]);
    ("10.0.3.1", mk_router "/24" []) ].

(** ** Printing the routes ([find_routes]) *)

(** The double quote character. *)
Definition double_quote : ascii := ascii_of_nat 34.

Definition single_quote : ascii := "'"%char.

Definition backslash : ascii := ascii_of_nat 92.

(** A lower-case hexadecimal digit. *)
Definition hex_digit (n : Z) : ascii :=
  if n <? 10 then ascii_of_nat (Z.to_nat (48 + n))
  else ascii_of_nat (Z.to_nat (87 + n)).

(** The code points below 256 that [repr] writes as they are. *)
Definition is_printable (c : ascii) : bool :=
  let n := Z.of_nat (nat_of_ascii c) in
  ((32 <=? n) && (n <=? 126)) || ((161 <=? n) && negb (n =? 173)).

Fixpoint contains_char (c : ascii) (s : string) : bool :=
  match s with
  | EmptyString => false
  | String c' s' => Ascii.eqb c' c || contains_char c s'
  end.

(** How [repr] writes one character of a string quoted with [quote]. *)
Definition repr_char (quote c : ascii) : string :=
  let n := Z.of_nat (nat_of_ascii c) in
  if Ascii.eqb c quote || Ascii.eqb c backslash then String backslash (String c EmptyString)
  else if n =? 9 then String backslash "t"
  else if n =? 10 then String backslash "n"
  else if n =? 13 then String backslash "r"
  else if is_printable c then String c EmptyString
  else String backslash
         (String "x" (String (hex_digit (n / 16)) (String (hex_digit (n mod 16)) EmptyString))).

Fixpoint repr_chars (quote : ascii) (s : string) : string :=
  match s with
  | EmptyString => EmptyString
  | String c s' => repr_char quote c +:+ repr_chars quote s'
  end.

(** [repr(s)] for a string: single quotes, unless the string has a single
    quote and no double quote. *)
Definition py_repr_str (s : string) : string :=
  let quote :=
    if contains_char single_quote s && negb (contains_char double_quote s)
    then double_quote else single_quote in
  String quote (repr_chars quote s +:+ String quote EmptyString).

(** [repr(l)] for a list of strings. *)
Definition py_repr_list (l : list string) : string :=
  "[" +:+ py_join ", " (py_repr_str <$> l) +:+ "]".

(** [f"{s:>15s}"] and [f"{s:<15s}"]: padded with spaces to the width, never
    cut. *)
Definition format_right (width : nat) (s : string) : string :=
  rep_char " " (width - String.length s) +:+ s.

Definition format_left (width : nat) (s : string) : string :=
  s +:+ rep_char " " (width - String.length s).

(** [f"{src_ip:>15s} -> {dest_ip:<15s}  {repr(path)}"] *)
Definition route_line (src_ip dest_ip : string) (path : list string) : string :=
  format_right 15 src_ip +:+ " -> " +:+ format_left 15 dest_ip +:+ "  "
  +:+ py_repr_list path.

Section FindRoutes.

Context {mach : machine}.
Variable set_order : list string → list string.

(** [find_routes]: the outcome, the [routers] dictionary afterwards and the
    lines printed, after those of [stdout]. *)
Fixpoint find_routes (fuel : nat) (routers : list (string * router))
    (src_dest_pairs : list (string * string)) (stdout : list string)
  : option (result unit * list (string * router) * list string) :=
  match src_dest_pairs with
  | [] => Some (Ok tt, routers, stdout)
  | (src_ip, dest_ip) :: rest =>
      match dijkstras_shortest_path set_order fuel routers src_ip dest_ip with
      | None => None
      | Some (Raise e, routers') => Some (Raise e, routers', stdout)
      | Some (Ok path, routers') =>
          find_routes fuel routers' rest (stdout ++ [route_line src_ip dest_ip path])
      end
  end.

End FindRoutes.

(** ** What the main loop keeps whatever the weights *)

(** The part of the loop invariant that does not depend on the weights nor
    on the source: the containers are keyed by the routers, a predecessor is
    a visited router, and the predecessors of a visited router form a chain
    of visited routers without repetition. *)
Record struct_inv (routers : list (string * router)) (f : frame) : Prop := {
  si_routers : f_routers f = routers;
  si_unvisited : ∀ x, x ∈ unvisited f → x ∈ dict_keys routers;
  si_distances : ∀ x, x ∈ dict_keys routers → is_Some (distances f !! Some x);
  si_previous : ∀ x, x ∈ dict_keys routers → is_Some (previous f !! x);
  si_parent : ∀ x p,
    previous f !! x = Some (Some p) → p ∈ dict_keys routers ∧ p ∉ unvisited f;
  si_chain : ∀ x,
    x ∈ dict_keys routers → x ∉ unvisited f →
    ∃ l, chain (previous f) (Some x) l ∧ NoDup l ∧
         ∀ y, y ∈ l → y ∈ dict_keys routers ∧ y ∉ unvisited f;
}.

(** The exceptions that the program can raise on a network of the model. *)
Definition expected_exn (e : exn) : bool :=
  match e with
  | IndexError | ValueError | OverflowError | MemoryError => true
  | KeyError => false
  end.

(** ** Notions used to state the further properties *)

(** The subnet test that [find_router_for_ip] makes for the key [k] gives
    [b]. *)
Definition serves {mach : machine} (routers : list (string * router)) (ip k : string)
    (b : bool) : Prop :=
  ∃ info, dict_get_opt routers k = Some info ∧
          ips_same_subnet ip k (netmask info) = Ok b.

(** [line] is what [find_routes] prints for the pair, from the answer of
    [dijkstras_shortest_path] on [routers]. *)
Definition printed {mach : machine} (set_order : list string → list string) (fuel : nat)
    (routers : list (string * router)) (pair : string * string) (line : string) : Prop :=
  ∃ path,
    dijkstras_shortest_path set_order fuel routers pair.1 pair.2
    = Some (Ok path, routers) ∧
    line = route_line pair.1 pair.2 path.

(** [s] is made of decimal digits and dots only. *)
Fixpoint plain_text (s : string) : bool :=
  match s with
  | EmptyString => true
  | String c s' => (is_digit c || Ascii.eqb c ".") && plain_text s'
  end.

(** [s] between single quotes. *)
Definition quoted (s : string) : string :=
  String single_quote (s +:+ String single_quote EmptyString).

(** * Properties of the built-ins *)

Lemma py_split_not_nil sep s : py_split sep s ≠ [].
Proof.
  destruct s as [|c s]; simpl; [done|].
  destruct (Ascii.eqb c sep); [done|]. by destruct (py_split sep s).
Qed.

Lemma py_split_no_sep sep a : no_sep sep a = true → py_split sep a = [a].
Proof.
  induction a as [|c a IH]; simpl; [done|].
  intros [Hc Ha]%andb_prop. apply negb_true_iff in Hc. rewrite Hc, (IH Ha). done.
Qed.

Lemma py_split_app sep a rest :
  no_sep sep a = true →
  py_split sep (a +:+ String sep rest) = a :: py_split sep rest.
Proof.
  induction a as [|c a IH]; simpl.
  - intros _. by rewrite Ascii.eqb_refl.
  - intros [Hc Ha]%andb_prop. apply negb_true_iff in Hc. rewrite Hc, (IH Ha). done.
Qed.

Lemma py_join_cons sep x l :
  l ≠ [] → py_join sep (x :: l) = x +:+ sep +:+ py_join sep l.
Proof. by destruct l. Qed.

Lemma py_join_split sep s : py_join (String sep EmptyString) (py_split sep s) = s.
Proof.
  induction s as [|c s IH]; simpl; [done|].
  pose proof (py_split_not_nil sep s) as Hnil.
  destruct (Ascii.eqb_spec c sep) as [->|Hne].
  - rewrite py_join_cons, IH by done. done.
  - destruct (py_split sep s) as [|f fs] eqn:E; [done|].
    destruct fs as [|g fs].
    + simpl in *. by rewrite IH.
    + rewrite py_join_cons by done. rewrite py_join_cons in IH by done.
      rewrite <- IH. done.
Qed.

(** * Decimal numerals *)

Lemma is_digit_value c :
  is_digit c = true → digit_value c = Some (Z.of_nat (nat_of_ascii c) - 48).
Proof. unfold is_digit, digit_value. by intros ->. Qed.

Lemma is_digit_cases c :
  is_digit c = true →
  c ∈ ["0"; "1"; "2"; "3"; "4"; "5"; "6"; "7"; "8"; "9"]%char.
Proof.
  destruct c as [[] [] [] [] [] [] [] []]; vm_compute; intros H;
    try discriminate H; set_solver.
Qed.

Lemma is_digit_bounds c :
  is_digit c = true → 0 ≤ Z.of_nat (nat_of_ascii c) - 48 ≤ 9.
Proof. unfold is_digit. lia. Qed.

Lemma is_digit_plain c :
  is_digit c = true →
  is_space c = false ∧ is_underscore c = false ∧
  Ascii.eqb c "+" = false ∧ Ascii.eqb c "-" = false ∧ Ascii.eqb c "." = false.
Proof.
  intros H%is_digit_cases.
  repeat (apply elem_of_cons in H as [->|H]; [by vm_compute|]).
  by apply elem_of_nil in H.
Qed.

Lemma all_digits_no_sep p : all_digits p = true → no_sep "." p = true.
Proof.
  induction p as [|c p IH]; simpl; [done|].
  intros [Hc Hp]%andb_prop. rewrite (IH Hp).
  destruct (is_digit_plain c Hc) as (_ & _ & _ & _ & ->). done.
Qed.

Lemma decimal_value_ge p acc :
  all_digits p = true → 0 ≤ acc → acc ≤ decimal_value p acc.
Proof.
  revert acc. induction p as [|c p IH]; simpl; intros acc; [lia|].
  intros [Hc Hp]%andb_prop Hacc. pose proof (is_digit_bounds c Hc).
  specialize (IH (10 * acc + (Z.of_nat (nat_of_ascii c) - 48)) Hp). lia.
Qed.

Lemma scan_digits_all_digits p n acc :
  all_digits p = true →
  scan_digits 10 p false n acc
  = Some (decimal_value p acc, (n + String.length p)%nat, EmptyString).
Proof.
  revert n acc. induction p as [|c p IH]; intros n acc; simpl.
  - intros _. by rewrite Nat.add_0_r.
  - intros [Hc Hp]%andb_prop.
    destruct (is_digit_plain c Hc) as (_ & -> & _).
    rewrite (is_digit_value c Hc). pose proof (is_digit_bounds c Hc) as Hb.
    assert ((Z.of_nat (nat_of_ascii c) - 48 <? 10) = true) as ->
      by (apply Z.ltb_lt; lia).
    rewrite (IH _ _ Hp), Z.mul_comm.
    replace (S n + String.length p)%nat with (n + S (String.length p))%nat by lia.
    done.
Qed.

(** [int] reads a string of decimal digits as the number it writes, unless
    it has more than [max_str_digits] digits. *)
Lemma py_int_all_digits c p :
  all_digits (String c p) = true →
  py_int_opt 10 (String c p) =
    if max_str_digits <? Z.of_nat (String.length (String c p)) then None
    else Some (decimal_value (String c p) 0).
Proof.
  intros Hd. pose proof Hd as [Hc Hp]%andb_prop.
  destruct (is_digit_plain c Hc) as (Hs & Hu & Hplus & Hminus & _).
  unfold py_int_opt. cbn [skip_spaces]. rewrite Hs.
  cbn [take_sign]. rewrite Hplus, Hminus.
  assert (skip_prefix 10 (String c p) = String c p) as ->.
  { unfold skip_prefix. destruct p; done. }
  rewrite Hu, (scan_digits_all_digits _ _ _ Hd).
  change (negb (Z.land 10 (10 - 1) =? 0)) with true. cbn [andb Nat.add].
  destruct (max_str_digits <? _); [done|].
  cbn [String.length skip_spaces]. f_equal. lia.
Qed.

Lemma decimal_octet_bounds p :
  decimal_octet p = true → 0 ≤ decimal_value p 0 ≤ 255.
Proof.
  destruct p as [|c p]; [done|]. unfold decimal_octet.
  intros [Hd Hle]%andb_prop. pose proof (decimal_value_ge _ 0 Hd). lia.
Qed.

Lemma decimal_octet_int_cases p :
  decimal_octet p = true →
  py_int_opt 10 p =
    if max_str_digits <? Z.of_nat (String.length p) then None
    else Some (decimal_value p 0).
Proof.
  destruct p as [|c p]; [done|]. unfold decimal_octet.
  intros [Hd Hle]%andb_prop. by apply py_int_all_digits.
Qed.

Lemma decimal_octet_int p :
  decimal_octet p = true → Z.of_nat (String.length p) ≤ max_str_digits →
  py_int_opt 10 p = Some (decimal_value p 0) ∧ 0 ≤ decimal_value p 0 ≤ 255.
Proof.
  intros Hd Hlen. split; [|by apply decimal_octet_bounds].
  rewrite (decimal_octet_int_cases _ Hd).
  destruct (Z.ltb_spec max_str_digits (Z.of_nat (String.length p))); [lia|done].
Qed.

(** What [int] reads from a decimal octet, when it reads it. *)
Lemma decimal_octet_int_inv p n :
  decimal_octet p = true → py_int_opt 10 p = Some n →
  n = decimal_value p 0 ∧ 0 ≤ n ≤ 255 ∧ Z.of_nat (String.length p) ≤ max_str_digits.
Proof.
  intros Hd Hn. rewrite (decimal_octet_int_cases _ Hd) in Hn.
  destruct (Z.ltb_spec max_str_digits (Z.of_nat (String.length p))); [done|].
  injection Hn as <-. split; [done|]. split; [by apply decimal_octet_bounds|done].
Qed.

(** The 256 octets, checked one by one: [str] writes a canonical octet
    without dots that reads back as the same number. *)
Lemma octets_checked :
  forallb (λ o, canonical_octet (py_str o) && (decimal_value (py_str o) 0 =? o))
          (seqZ 0 256) = true.
Proof. by vm_compute. Qed.

Lemma py_str_octet o :
  0 ≤ o ≤ 255 →
  canonical_octet (py_str o) = true ∧ decimal_value (py_str o) 0 = o.
Proof.
  intros Ho. pose proof octets_checked as H.
  rewrite forallb_forall in H.
  assert (In o (seqZ 0 256)) as Hin by (apply list_elem_of_In, elem_of_seqZ; lia).
  apply H in Hin. apply andb_prop in Hin as [H1 H2]. split; [done|lia].
Qed.

Lemma canonical_is_decimal p : canonical_octet p = true → decimal_octet p = true.
Proof. unfold canonical_octet. by intros [? _]%andb_prop. Qed.

Lemma octet_texts_short :
  forallb (λ o, (String.length (py_str o) <=? 3)%nat) (seqZ 0 256) = true.
Proof. by vm_compute. Qed.

(** A canonical octet is what [str] writes for its value. *)
Lemma canonical_octet_str p :
  canonical_octet p = true → py_str (decimal_value p 0) = p.
Proof.
  intros Hc. pose proof Hc as [Hdec Hlead]%andb_prop.
  destruct p as [|c1 p]; [done|].
  unfold decimal_octet in Hdec. apply andb_prop in Hdec as [Hd Hle].
  pose proof Hd as [H1 Hd1]%andb_prop.
  destruct p as [|c2 p].
  { apply is_digit_cases in H1.
    repeat (apply elem_of_cons in H1 as [->|H1]; [by vm_compute|]).
    by apply elem_of_nil in H1. }
  pose proof Hd1 as [H2 Hd2]%andb_prop.
  destruct p as [|c3 p].
  { apply is_digit_cases in H1, H2.
    repeat (apply elem_of_cons in H1 as [->|H1];
      [repeat (apply elem_of_cons in H2 as [->|H2];
           [first [done | by vm_compute]|]); by apply elem_of_nil in H2|]).
    by apply elem_of_nil in H1. }
  pose proof Hd2 as [H3 Hd3]%andb_prop.
  destruct p as [|c4 p].
  { apply is_digit_cases in H1, H2, H3.
    repeat (apply elem_of_cons in H1 as [->|H1];
      [repeat (apply elem_of_cons in H2 as [->|H2];
         [repeat (apply elem_of_cons in H3 as [->|H3];
             [first [done | by vm_compute | (vm_compute in Hle; discriminate Hle)]|]);
          by apply elem_of_nil in H3|]);
       by apply elem_of_nil in H2|]).
    by apply elem_of_nil in H1. }
  exfalso.
  pose proof (is_digit_bounds _ H1) as B1. pose proof (is_digit_bounds _ H2) as B2.
  pose proof (is_digit_bounds _ H3) as B3.
  pose proof Hd3 as [H4 Hd4]%andb_prop. pose proof (is_digit_bounds _ H4) as B4.
  assert (Z.of_nat (nat_of_ascii c1) - 48 ≠ 0) as Hnz.
  { intros Hz. simpl in Hlead. apply negb_true_iff, Ascii.eqb_neq in Hlead.
    apply Hlead. apply is_digit_cases in H1.
    repeat (apply elem_of_cons in H1 as [->|H1]; [first [done | by vm_compute in Hz]|]).
    by apply elem_of_nil in H1. }
  cbn [decimal_value] in Hle.
  match type of Hle with (decimal_value p ?a <=? 255) = true =>
    pose proof (decimal_value_ge p a Hd4) end.
  lia.
Qed.

(** A canonical octet has at most three digits. *)
Lemma canonical_octet_length p :
  canonical_octet p = true → (String.length p ≤ 3)%nat.
Proof.
  intros Hc. pose proof (decimal_octet_bounds _ (canonical_is_decimal _ Hc)) as Hb.
  rewrite <- (canonical_octet_str p Hc).
  pose proof octet_texts_short as H. rewrite forallb_forall in H.
  assert (In (decimal_value p 0) (seqZ 0 256)) as Hin
    by (apply list_elem_of_In, elem_of_seqZ; lia).
  apply H in Hin. by apply Nat.leb_le in Hin.
Qed.

Lemma canonical_octet_int p :
  canonical_octet p = true →
  py_int_opt 10 p = Some (decimal_value p 0) ∧ 0 ≤ decimal_value p 0 ≤ 255.
Proof.
  intros Hc. apply decimal_octet_int; [by apply canonical_is_decimal|].
  pose proof (canonical_octet_length p Hc). unfold max_str_digits. lia.
Qed.

(** * Octets and 32-bit values *)

Lemma octet_high o n : 0 ≤ o ≤ 255 → 8 ≤ n → Z.testbit o n = false.
Proof.
  intros Ho Hn. rewrite <- (Z.mod_small o (2 ^ 8)) by lia.
  apply Z.mod_pow2_bits_high. lia.
Qed.

Lemma pack_testbit a b c d n :
  0 ≤ a ≤ 255 → 0 ≤ b ≤ 255 → 0 ≤ c ≤ 255 → 0 ≤ d ≤ 255 → 0 ≤ n →
  Z.testbit (pack a b c d) n =
    if n <? 8 then Z.testbit d n
    else if n <? 16 then Z.testbit c (n - 8)
    else if n <? 24 then Z.testbit b (n - 16)
    else Z.testbit a (n - 24).
Proof.
  intros Ha Hb Hc Hd Hn. unfold pack.
  rewrite !Z.lor_spec, !Z.shiftl_spec, Z.bits_0, Z.sub_0_r by lia.
  destruct (Z.ltb_spec n 8).
  { rewrite !(Z.testbit_neg_r _ (n - _)) by lia. done. }
  rewrite (octet_high d n) by lia.
  destruct (Z.ltb_spec n 16).
  { rewrite !(Z.testbit_neg_r _ (n - 16)), !(Z.testbit_neg_r _ (n - 24)) by lia.
    by rewrite orb_false_r. }
  rewrite (octet_high c (n - 8)) by lia.
  destruct (Z.ltb_spec n 24).
  { rewrite !(Z.testbit_neg_r _ (n - 24)) by lia. by rewrite !orb_false_r. }
  rewrite (octet_high b (n - 16)) by lia. by rewrite !orb_false_r.
Qed.

Lemma land_255_testbit x n :
  0 ≤ n → Z.testbit (Z.land x 255) n = Z.testbit x n && (n <? 8).
Proof.
  intros Hn. change 255 with (Z.ones 8).
  rewrite Z.land_spec, Z.testbit_ones_nonneg by lia. done.
Qed.

Lemma land_255_octet x : 0 ≤ Z.land x 255 ≤ 255.
Proof.
  change 255 with (Z.ones 8) at 1 2. rewrite Z.land_ones by lia.
  pose proof (Z.mod_pos_bound x (2 ^ 8)). lia.
Qed.

Lemma unpack_pack a b c d :
  0 ≤ a ≤ 255 → 0 ≤ b ≤ 255 → 0 ≤ c ≤ 255 → 0 ≤ d ≤ 255 →
  Z.land (Z.shiftr (pack a b c d) 24) 255 = a ∧
  Z.land (Z.shiftr (pack a b c d) 16) 255 = b ∧
  Z.land (Z.shiftr (pack a b c d) 8) 255 = c ∧
  Z.land (Z.shiftr (pack a b c d) 0) 255 = d.
Proof.
  intros Ha Hb Hc Hd.
  repeat split; apply Z.bits_inj'; intros n Hn;
    rewrite land_255_testbit, Z.shiftr_spec, pack_testbit by lia;
    (destruct (Z.ltb_spec n 8);
     [ repeat (case_match; try lia); rewrite andb_true_r; f_equal; lia
     | rewrite andb_false_r; symmetry; apply octet_high; lia ]).
Qed.

Lemma pack_unpack v :
  0 ≤ v < 2 ^ 32 →
  pack (Z.land (Z.shiftr v 24) 255) (Z.land (Z.shiftr v 16) 255)
       (Z.land (Z.shiftr v 8) 255) (Z.land (Z.shiftr v 0) 255) = v.
Proof.
  intros Hv. apply Z.bits_inj'; intros n Hn.
  rewrite pack_testbit by (apply land_255_octet || lia).
  repeat case_match; rewrite land_255_testbit, Z.shiftr_spec by lia.
  - replace (n + 0) with n by lia. destruct (Z.ltb_spec n 8); [|lia]. by rewrite andb_true_r.
  - replace (n - 8 + 8) with n by lia.
    destruct (Z.ltb_spec (n - 8) 8); [|lia]. by rewrite andb_true_r.
  - replace (n - 16 + 16) with n by lia.
    destruct (Z.ltb_spec (n - 16) 8); [|lia]. by rewrite andb_true_r.
  - replace (n - 24 + 24) with n by lia.
    destruct (Z.ltb_spec (n - 24) 8); [by rewrite andb_true_r|].
    rewrite andb_false_r. symmetry. rewrite <- (Z.mod_small v (2 ^ 32)) by lia.
    apply Z.mod_pow2_bits_high. lia.
Qed.

Lemma pack_bound a b c d :
  0 ≤ a ≤ 255 → 0 ≤ b ≤ 255 → 0 ≤ c ≤ 255 → 0 ≤ d ≤ 255 →
  0 ≤ pack a b c d < 2 ^ 32.
Proof.
  intros Ha Hb Hc Hd.
  assert (0 ≤ pack a b c d) as Hnn.
  { unfold pack. repeat (apply Z.lor_nonneg; split); try apply Z.shiftl_nonneg; lia. }
  split; [done|].
  destruct (Z.eq_dec (pack a b c d) 0) as [->|Hnz]; [done|].
  apply Z.log2_lt_pow2; [lia|].
  destruct (Z.lt_ge_cases (Z.log2 (pack a b c d)) 32) as [|Hge]; [done|exfalso].
  pose proof (Z.bit_log2 (pack a b c d) ltac:(lia)) as Hbit.
  rewrite pack_testbit in Hbit by lia.
  repeat case_match; try lia. rewrite octet_high in Hbit by lia. done.
Qed.

(** * The address codec, statement by statement *)

#[local] Arguments py_int_opt : simpl never.

Ltac py_unfold :=
  unfold py_index, py_int, mbind, result_bind;
  change (Z.to_nat 0) with 0%nat; change (Z.to_nat 1) with 1%nat;
  change (Z.to_nat 2) with 2%nat; change (Z.to_nat 3) with 3%nat.

Lemma py_split_app_sep sep a rest :
  no_sep sep a = true →
  py_split sep (a +:+ String sep EmptyString +:+ rest) = a :: py_split sep rest.
Proof. apply py_split_app. Qed.

Lemma ipv4_to_value_unfold s :
  ipv4_to_value s =
    (f0 ← py_index (py_split "." s) 0; n0 ← py_int 10 f0;
     f1 ← py_index (py_split "." s) 1; n1 ← py_int 10 f1;
     f2 ← py_index (py_split "." s) 2; n2 ← py_int 10 f2;
     f3 ← py_index (py_split "." s) 3; n3 ← py_int 10 f3;
     Ok (pack n0 n1 n2 n3)).
Proof.
  unfold ipv4_to_value. change (seqZ 0 4) with [0; 1; 2; 3]. cbn [foldl].
  unfold mbind, result_bind.
  destruct (py_index _ 0); [|done]. destruct (py_int 10 _); [|done].
  destruct (py_index _ 1); [|done]. destruct (py_int 10 _); [|done].
  destruct (py_index _ 2); [|done]. destruct (py_int 10 _); [|done].
  destruct (py_index _ 3); [|done]. destruct (py_int 10 _); [|done].
  done.
Qed.

Lemma ipv4_to_value_fields s f0 f1 f2 f3 rest n0 n1 n2 n3 :
  py_split "." s = f0 :: f1 :: f2 :: f3 :: rest →
  py_int_opt 10 f0 = Some n0 → py_int_opt 10 f1 = Some n1 →
  py_int_opt 10 f2 = Some n2 → py_int_opt 10 f3 = Some n3 →
  ipv4_to_value s = Ok (pack n0 n1 n2 n3).
Proof.
  intros Hs H0 H1 H2 H3. rewrite ipv4_to_value_unfold, Hs.
  py_unfold. simpl.
  by rewrite H0, H1, H2, H3.
Qed.

Lemma ipv4_to_value_Ok s v :
  ipv4_to_value s = Ok v →
  ∃ f0 f1 f2 f3 rest n0 n1 n2 n3,
    py_split "." s = f0 :: f1 :: f2 :: f3 :: rest ∧
    py_int_opt 10 f0 = Some n0 ∧ py_int_opt 10 f1 = Some n1 ∧
    py_int_opt 10 f2 = Some n2 ∧ py_int_opt 10 f3 = Some n3 ∧
    v = pack n0 n1 n2 n3.
Proof.
  rewrite ipv4_to_value_unfold. py_unfold.
  destruct (py_split "." s) as [|f0 [|f1 [|f2 [|f3 rest]]]]; simpl;
    repeat (match goal with
            | |- context [py_int_opt 10 ?f] => destruct (py_int_opt 10 f) eqn:?; simpl
            end); try done.
  intros [= <-]. by eexists _, _, _, _, _, _, _, _, _.
Qed.

Lemma ipv4_to_value_raises s e :
  ipv4_to_value s = Raise e → e = IndexError ∨ e = ValueError.
Proof.
  rewrite ipv4_to_value_unfold. py_unfold.
  destruct (py_split "." s) as [|f0 [|f1 [|f2 [|f3 rest]]]]; simpl;
    repeat (match goal with
            | |- context [py_int_opt 10 ?f] => destruct (py_int_opt 10 f) eqn:?; simpl
            end); intros [= <-]; auto.
Qed.

Lemma value_to_ipv4_unfold v :
  value_to_ipv4 v =
    py_join "." [py_str (Z.land (Z.shiftr v 24) 255); py_str (Z.land (Z.shiftr v 16) 255);
                 py_str (Z.land (Z.shiftr v 8) 255); py_str (Z.land (Z.shiftr v 0) 255)].
Proof. done. Qed.

Lemma py_str_octet_int o :
  0 ≤ o ≤ 255 → py_int_opt 10 (py_str o) = Some o ∧ no_sep "." (py_str o) = true.
Proof.
  intros Ho. destruct (py_str_octet o Ho) as [Hc Hv].
  destruct (canonical_octet_int _ Hc) as [Hint _]. rewrite Hv in Hint. split; [done|].
  apply canonical_is_decimal in Hc.
  apply all_digits_no_sep. unfold decimal_octet in Hc.
  destruct (py_str o); [done|]. by apply andb_prop in Hc as [? _].
Qed.

Lemma ipv4_value_round_trip v :
  0 ≤ v < 2 ^ 32 → ipv4_to_value (value_to_ipv4 v) = Ok v.
Proof.
  intros Hv. rewrite value_to_ipv4_unfold.
  set (a := Z.land (Z.shiftr v 24) 255). set (b := Z.land (Z.shiftr v 16) 255).
  set (c := Z.land (Z.shiftr v 8) 255). set (d := Z.land (Z.shiftr v 0) 255).
  destruct (py_str_octet_int a (land_255_octet _)) as [Ia Sa].
  destruct (py_str_octet_int b (land_255_octet _)) as [Ib Sb].
  destruct (py_str_octet_int c (land_255_octet _)) as [Ic Sc].
  destruct (py_str_octet_int d (land_255_octet _)) as [Id Sd].
  rewrite (ipv4_to_value_fields _ (py_str a) (py_str b) (py_str c) (py_str d) [] a b c d);
    try done.
  - f_equal. by apply pack_unpack.
  - cbn [py_join]. rewrite !py_split_app_sep by done.
    by rewrite py_split_no_sep.
Qed.

Lemma ipv4_text_round_trip s :
  dotted_quad canonical_octet s = true →
  ∃ v, ipv4_to_value s = Ok v ∧ 0 ≤ v < 2 ^ 32 ∧ value_to_ipv4 v = s.
Proof.
  unfold dotted_quad.
  destruct (py_split "." s) as [|f0 [|f1 [|f2 [|f3 [|? ?]]]]] eqn:Hs; try done.
  intros [[[H0 H1]%andb_prop H2]%andb_prop H3]%andb_prop.
  destruct (canonical_octet_int _ H0) as [I0 B0].
  destruct (canonical_octet_int _ H1) as [I1 B1].
  destruct (canonical_octet_int _ H2) as [I2 B2].
  destruct (canonical_octet_int _ H3) as [I3 B3].
  eexists. split; [by eapply ipv4_to_value_fields|]. split; [by apply pack_bound|].
  rewrite value_to_ipv4_unfold.
  destruct (unpack_pack _ _ _ _ B0 B1 B2 B3) as (-> & -> & -> & ->).
  rewrite !canonical_octet_str by done.
  rewrite <- Hs. apply (py_join_split "." s).
Qed.

(** * Texts of four decimal octets *)

Lemma decimal_quad_within s :
  dotted_quad decimal_octet s = true → fields_within_limit s = true →
  ∃ v, ipv4_to_value s = Ok v ∧ 0 ≤ v < 2 ^ 32.
Proof.
  unfold dotted_quad, fields_within_limit.
  destruct (py_split "." s) as [|f0 [|f1 [|f2 [|f3 [|? ?]]]]] eqn:Hs; try done.
  intros [[[H0 H1]%andb_prop H2]%andb_prop H3]%andb_prop.
  cbn [forallb].
  intros (L0%Z.leb_le & (L1%Z.leb_le & (L2%Z.leb_le & (L3%Z.leb_le & _)%andb_prop)
            %andb_prop)%andb_prop)%andb_prop.
  destruct (decimal_octet_int _ H0 L0) as [I0 B0].
  destruct (decimal_octet_int _ H1 L1) as [I1 B1].
  destruct (decimal_octet_int _ H2 L2) as [I2 B2].
  destruct (decimal_octet_int _ H3 L3) as [I3 B3].
  eexists. split; [by eapply ipv4_to_value_fields|]. by apply pack_bound.
Qed.

Lemma decimal_quad_Ok s v :
  dotted_quad decimal_octet s = true → ipv4_to_value s = Ok v →
  0 ≤ v < 2 ^ 32 ∧ fields_within_limit s = true.
Proof.
  unfold dotted_quad, fields_within_limit. intros Hq Hv.
  apply ipv4_to_value_Ok in Hv
    as (f0 & f1 & f2 & f3 & rest & n0 & n1 & n2 & n3 & Hs & I0 & I1 & I2 & I3 & ->).
  rewrite Hs in Hq |- *. destruct rest; [|done].
  apply andb_prop in Hq as [[[H0 H1]%andb_prop H2]%andb_prop H3].
  destruct (decimal_octet_int_inv _ _ H0 I0) as (_ & B0 & L0).
  destruct (decimal_octet_int_inv _ _ H1 I1) as (_ & B1 & L1).
  destruct (decimal_octet_int_inv _ _ H2 I2) as (_ & B2 & L2).
  destruct (decimal_octet_int_inv _ _ H3 I3) as (_ & B3 & L3).
  split; [by apply pack_bound|]. cbn [forallb].
  apply Z.leb_le in L0, L1, L2, L3. by rewrite L0, L1, L2, L3.
Qed.

Lemma decimal_quad_raises s e :
  dotted_quad decimal_octet s = true → ipv4_to_value s = Raise e →
  e = ValueError ∧ fields_within_limit s = false.
Proof.
  intros Hq He. split.
  - revert He. rewrite ipv4_to_value_unfold. py_unfold. unfold dotted_quad in Hq.
    destruct (py_split "." s) as [|f0 [|f1 [|f2 [|f3 [|? ?]]]]]; try done. simpl.
    repeat (match goal with
            | |- context [py_int_opt 10 ?f] => destruct (py_int_opt 10 f) eqn:?; simpl
            end); by intros [= <-].
  - destruct (fields_within_limit s) eqn:Hw; [|done].
    destruct (decimal_quad_within s Hq Hw) as (v & Hv & _). congruence.
Qed.

(** * Binary literals and the subnet mask *)

Ltac scan_result_eq :=
  f_equal; apply pair_equal_spec; split; [apply pair_equal_spec; split|].

Lemma scan_digits_zeros b k acc :
  scan_digits 2 (rep_char "0" b) false k acc
  = Some (acc * 2 ^ Z.of_nat b, (k + b)%nat, EmptyString).
Proof.
  revert k acc. induction b as [|b IH]; intros k acc.
  - simpl. scan_result_eq; [lia|lia|done].
  - cbn [rep_char scan_digits]. change (is_underscore "0") with false.
    change (digit_value "0") with (Some 0). change (0 <? 2) with true. cbn iota.
    rewrite IH. rewrite Nat2Z.inj_succ, Z.pow_succ_r by lia.
    scan_result_eq; [lia|lia|done].
Qed.

Lemma scan_digits_ones_zeros a b k acc :
  scan_digits 2 (rep_char "1" a +:+ rep_char "0" b) false k acc
  = Some (acc * 2 ^ Z.of_nat (a + b) + (2 ^ Z.of_nat a - 1) * 2 ^ Z.of_nat b,
          (k + a + b)%nat, EmptyString).
Proof.
  revert k acc. induction a as [|a IH]; intros k acc.
  - change (rep_char "1" 0 +:+ rep_char "0" b) with (rep_char "0" b).
    rewrite scan_digits_zeros.
    scan_result_eq; [simpl; lia|lia|done].
  - change (rep_char "1" (S a) +:+ rep_char "0" b)
      with (String "1" (rep_char "1" a +:+ rep_char "0" b)).
    cbn [scan_digits]. change (is_underscore "1") with false.
    change (digit_value "1") with (Some 1). change (1 <? 2) with true. cbn iota.
    rewrite IH. scan_result_eq; [|lia|done].
    replace (Z.of_nat (S a + b)) with (Z.succ (Z.of_nat (a + b))) by lia.
    rewrite Nat2Z.inj_succ, !Z.pow_succ_r by lia.
    rewrite Nat2Z.inj_add, Z.pow_add_r by lia. lia.
Qed.

Lemma py_int_ones_zeros a b :
  (0 < a + b)%nat →
  py_int_opt 2 (rep_char "1" a +:+ rep_char "0" b)
  = Some ((2 ^ Z.of_nat a - 1) * 2 ^ Z.of_nat b).
Proof.
  intros Hab.
  assert (∃ c rest, rep_char "1" a +:+ rep_char "0" b = String c rest ∧
            is_space c = false ∧ is_underscore c = false ∧
            take_sign (String c rest) = (1, String c rest) ∧
            skip_prefix 2 (String c rest) = String c rest) as (c & rest & Heq & Hs & Hu & Hsg & Hp).
  { destruct a as [|a].
    - destruct b as [|b]; [lia|]. exists "0"%char, (rep_char "0" b).
      repeat split; try done. by destruct b.
    - exists "1"%char, (rep_char "1" a +:+ rep_char "0" b).
      repeat split; try done. by destruct (rep_char "1" a +:+ rep_char "0" b). }
  unfold py_int_opt. rewrite Heq. cbn [skip_spaces]. rewrite Hs, Hsg, Hp, Hu, <- Heq.
  rewrite scan_digits_ones_zeros.
  change (negb (Z.land 2 (2 - 1) =? 0)) with false. cbn [andb skip_spaces].
  destruct (0 + a + b)%nat eqn:E; [lia|]. f_equal. lia.
Qed.

Lemma mask_of_prefix_text n :
  py_int_opt 2 (rep_char "1" (Z.to_nat n) +:+ rep_char "0" (Z.to_nat (32 - n)))
  = Some (mask_of_prefix n).
Proof.
  rewrite py_int_ones_zeros by lia. f_equal.
  unfold mask_of_prefix.
  destruct (Z.ltb_spec n 0).
  { replace (Z.to_nat n) with 0%nat by lia. simpl. lia. }
  rewrite Z.ones_equiv, !Z2Nat.id by lia.
  destruct (Z.leb_spec n 32).
  - rewrite Z.shiftl_mul_pow2, Z2Nat.id by lia. lia.
  - replace (Z.to_nat (32 - n)) with 0%nat by lia. simpl. lia.
Qed.

Section Mask.

Context {mach : machine}.

Lemma py_repeat_cases c n :
  py_repeat c n =
    if (n <? - index_max - 1) || (index_max <? n) then Raise OverflowError
    else if max_str_len <? n then Raise MemoryError
    else Ok (rep_char c (Z.to_nat n)).
Proof. done. Qed.

(** The outcome of [get_subnet_mask_value] for the number [n] after the
    slash: OverflowError when [n] or [32 - n] is no index, MemoryError when
    one of them is an index larger than the machine grants, the mask
    otherwise. *)
Lemma get_subnet_mask_value_cases slash field n :
  py_split "/" slash !! 1%nat = Some field →
  py_int_opt 10 field = Some n →
  get_subnet_mask_value slash =
    if (n <? 32 - index_max) || (index_max <? n) then Raise OverflowError
    else if (n <? 32 - max_str_len) || (max_str_len <? n) then Raise MemoryError
    else Ok (mask_of_prefix n).
Proof.
  intros Hf Hn. unfold get_subnet_mask_value. py_unfold.
  rewrite Hf. cbn [or_raise]. rewrite Hn. cbn [or_raise].
  rewrite !py_repeat_cases. pose proof max_str_len_mask as Hmin.
  unfold index_max in *.
  repeat match goal with
         | |- context [?a <? ?b] => destruct (Z.ltb_spec a b); try lia
         end; cbn [orb]; try done.
  by rewrite mask_of_prefix_text.
Qed.

Lemma get_subnet_mask_value_field slash field n :
  py_split "/" slash !! 1%nat = Some field →
  py_int_opt 10 field = Some n →
  0 ≤ n ≤ 32 →
  get_subnet_mask_value slash = Ok (mask_of_prefix n).
Proof.
  intros Hf Hn Hr. rewrite (get_subnet_mask_value_cases _ _ _ Hf Hn).
  pose proof max_str_len_mask as Hmin. unfold index_max.
  repeat match goal with
         | |- context [?a <? ?b] => destruct (Z.ltb_spec a b); try lia
         end; done.
Qed.

(** A mask that is computed is the mask of the number after the slash. *)
Lemma get_subnet_mask_value_Ok slash mask :
  get_subnet_mask_value slash = Ok mask →
  ∃ field n, py_split "/" slash !! 1%nat = Some field ∧
             py_int_opt 10 field = Some n ∧ mask = mask_of_prefix n.
Proof.
  intros Hm.
  destruct (py_split "/" slash !! 1%nat) as [field|] eqn:Hf.
  2:{ unfold get_subnet_mask_value in Hm. revert Hm. py_unfold. by rewrite Hf. }
  destruct (py_int_opt 10 field) as [n|] eqn:Hn.
  2:{ unfold get_subnet_mask_value in Hm. revert Hm. py_unfold.
      rewrite Hf. cbn [or_raise]. by rewrite Hn. }
  exists field, n. split_and!; try done.
  rewrite (get_subnet_mask_value_cases _ _ _ Hf Hn) in Hm.
  repeat (destruct (_ || _); [done|]). by injection Hm.
Qed.

End Mask.

Lemma mask_of_prefix_bits n i :
  0 ≤ n ≤ 32 → 0 ≤ i →
  Z.testbit (mask_of_prefix n) i = (32 - n <=? i) && (i <? 32).
Proof.
  intros Hn Hi. unfold mask_of_prefix.
  destruct (Z.ltb_spec n 0); [lia|]. destruct (Z.leb_spec n 32); [|lia].
  rewrite Z.shiftl_spec by lia.
  destruct (Z.leb_spec (32 - n) i).
  - rewrite Z.testbit_ones_nonneg by lia. simpl.
    destruct (Z.ltb_spec (i - (32 - n)) n), (Z.ltb_spec i 32); try done; lia.
  - by rewrite Z.testbit_neg_r by lia.
Qed.

(** * Distances *)

Lemma dist_le_refl a : dist_le a a.
Proof. destruct a; unfold dist_le; simpl; [done|]. apply Z.ltb_irrefl. Qed.

Lemma dist_le_trans a b c : dist_le a b → dist_le b c → dist_le a c.
Proof.
  unfold dist_le. destruct a, b, c; simpl; try done.
  rewrite !Z.ltb_ge. lia.
Qed.

Lemma dist_lt_le a b : dist_lt a b = true → dist_le a b.
Proof.
  unfold dist_le. destruct a, b; simpl; try done.
  rewrite Z.ltb_lt, Z.ltb_ge. lia.
Qed.

Lemma dist_le_total a b : dist_le a b ∨ dist_le b a.
Proof.
  unfold dist_le. destruct a, b; simpl; auto.
  rewrite !Z.ltb_ge. lia.
Qed.

Lemma dist_le_Fin x y : dist_le (Fin x) (Fin y) ↔ x ≤ y.
Proof. unfold dist_le. simpl. rewrite Z.ltb_ge. done. Qed.

Lemma dist_le_Inf a : dist_le a Inf.
Proof. by destruct a. Qed.

Lemma dist_le_Fin_r a y : dist_le a (Fin y) → ∃ x, a = Fin x ∧ x ≤ y.
Proof.
  destruct a as [|x]; [done|]. intros H%dist_le_Fin. eauto.
Qed.

(** * Dictionaries *)

Lemma dict_get_opt_elem {V} (d : list (string * V)) k v :
  dict_get_opt d k = Some v → (k, v) ∈ d.
Proof.
  induction d as [|[k' v'] d IH]; simpl; [done|].
  destruct (String.eqb_spec k' k) as [->|Hne].
  - intros [= ->]. left.
  - intros H. right. by apply IH.
Qed.

Lemma dict_get_opt_key {V} (d : list (string * V)) k :
  k ∈ dict_keys d ↔ is_Some (dict_get_opt d k).
Proof.
  unfold dict_keys. induction d as [|[k' v'] d IH]; simpl.
  - split; [by intros ?%elem_of_nil|by intros [? ?]].
  - destruct (String.eqb_spec k' k) as [->|Hne].
    + split; [by eauto|]. intros _. left.
    + rewrite elem_of_cons, IH. split; [|by auto]. by intros [?|?].
Qed.

Lemma dict_get_opt_NoDup {V} (d : list (string * V)) k v :
  NoDup (dict_keys d) → (k, v) ∈ d → dict_get_opt d k = Some v.
Proof.
  unfold dict_keys. induction d as [|[k' v'] d IH]; simpl.
  - by intros _ ?%elem_of_nil.
  - intros [Hk' Hd]%NoDup_cons [[= -> ->]|Hin]%elem_of_cons.
    + by rewrite String.eqb_refl.
    + destruct (String.eqb_spec k' k) as [->|Hne]; [|by apply IH].
      exfalso. apply Hk'. apply list_elem_of_fmap. by exists (k, v).
Qed.

(** * Reading the frame *)

Lemma dist_of_lookup f x d : distances f !! Some x = Some d → dist_of f x = d.
Proof. unfold dist_of. by intros ->. Qed.

Lemma get_distance_Ok f x :
  is_Some (distances f !! Some x) → get_distance x f = (Ok (dist_of f x), f).
Proof. intros [d Hd]. unfold get_distance, dist_of. by rewrite Hd. Qed.

Lemma min_loop_spec f l best :
  is_Some (distances f !! Some best) →
  (∀ x, x ∈ l → is_Some (distances f !! Some x)) →
  ∃ r, min_loop get_distance best (dist_of f best) l f = (Ok r, f) ∧
       (r = best ∨ r ∈ l) ∧
       dist_le (dist_of f r) (dist_of f best) ∧
       ∀ y, y ∈ l → dist_le (dist_of f r) (dist_of f y).
Proof.
  revert best. induction l as [|x l IH]; intros best Hbest Hl.
  - exists best. simpl. split_and!; auto using dist_le_refl.
    by intros ? ?%elem_of_nil.
  - assert (is_Some (distances f !! Some x)) as Hx by (apply Hl; left).
    assert (∀ y, y ∈ l → is_Some (distances f !! Some y)) as Hl'
      by (intros; apply Hl; by right).
    cbn [min_loop]. unfold m_bind at 1. rewrite (get_distance_Ok _ _ Hx).
    destruct (dist_lt (dist_of f x) (dist_of f best)) eqn:Hlt.
    + destruct (IH x Hx Hl') as (r & Hr & Hin & Hle & Hall).
      exists r. split; [done|]. split_and!.
      * destruct Hin as [->|?]; right; [left|by right].
      * eapply dist_le_trans; [done|]. by apply dist_lt_le.
      * intros y [->|Hy]%elem_of_cons; auto.
    + destruct (IH best Hbest Hl') as (r & Hr & Hin & Hle & Hall).
      exists r. split; [done|]. split_and!; [|done|].
      * destruct Hin as [->|?]; [by left|right; by right].
      * intros y [->|Hy]%elem_of_cons; auto.
        eapply dist_le_trans; [done|]. done.
Qed.

Lemma py_min_spec f l :
  l ≠ [] →
  (∀ x, x ∈ l → is_Some (distances f !! Some x)) →
  ∃ r, py_min get_distance l f = (Ok r, f) ∧ r ∈ l ∧
       ∀ y, y ∈ l → dist_le (dist_of f r) (dist_of f y).
Proof.
  destruct l as [|x l]; [done|]. intros _ Hl.
  assert (is_Some (distances f !! Some x)) as Hx by (apply Hl; left).
  destruct (min_loop_spec f l x Hx) as (r & Hr & Hin & Hle & Hall).
  { intros; apply Hl; by right. }
  exists r. cbn [py_min]. unfold m_bind. rewrite (get_distance_Ok _ _ Hx).
  split; [done|]. split.
  - destruct Hin as [->|?]; [left|by right].
  - intros y [->|Hy]%elem_of_cons; auto.
Qed.

(** * The caller's dictionary is only read *)

Lemma min_loop_frame key best kbest l f :
  (∀ x f, (key x f).2 = f) → (min_loop key best kbest l f).2 = f.
Proof.
  intros Hkey. revert best kbest. induction l as [|x l IH]; intros best kbest; [done|].
  cbn [min_loop]. unfold m_bind at 1. specialize (Hkey x f).
  destruct (key x f) as [[kx|e] f']; simpl in Hkey; subst f'; [|done].
  destruct (dist_lt kx kbest); apply IH.
Qed.

Lemma py_min_frame l f : (py_min get_distance l f).2 = f.
Proof.
  destruct l as [|x l]; [done|]. cbn [py_min]. unfold m_bind.
  unfold get_distance at 1. destruct (or_raise _ _); [|done].
  by apply min_loop_frame.
Qed.

Lemma relax_routers x n l f : f_routers (relax x n l f).2 = f_routers f.
Proof.
  unfold relax, m_bind, m_get, m_lift, m_put, m_ret, get_distance.
  destruct (bool_decide _); [|done].
  destruct (or_raise _ (distances f !! Some x)); [|done].
  destruct (dist_add _ _); [|done].
  destruct (or_raise _ (distances f !! Some n)); [|done].
  by destruct (dist_lt _ _).
Qed.

Lemma for_items_routers x items f :
  f_routers (for_items (relax x) items f).2 = f_routers f.
Proof.
  revert f. induction items as [|[n l] items IH]; intros f; [done|].
  cbn [for_items]. unfold m_bind. pose proof (relax_routers x n l f) as H.
  destruct (relax x n l f) as [[[]|e] f']; simpl in *; [|done].
  by rewrite IH.
Qed.

Lemma iteration_routers dest f : f_routers (iteration dest f).2 = f_routers f.
Proof.
  unfold iteration. unfold m_bind at 1. unfold m_get at 1.
  unfold m_bind at 1. pose proof (py_min_frame (unvisited f) f) as Hm.
  destruct (py_min get_distance (unvisited f) f) as [[x|e] f']; simpl in Hm; subst f';
    [|done].
  destruct (bool_decide _); [done|].
  unfold m_bind at 1. unfold set_remove.
  destruct (bool_decide (x ∈ unvisited f)); [|done].
  unfold m_bind at 1. unfold m_get at 1. unfold m_bind at 1. unfold m_lift.
  destruct (dict_get _ _) as [info|e]; [|done].
  unfold m_bind. pose proof (for_items_routers x (connections info)
    (set_unvisited (filter (λ y, y ≠ x) (unvisited f)) f)) as H.
  destruct (for_items _ _ _) as [[[]|e] f']; simpl in *; done.
Qed.

Lemma while_unvisited_routers fuel dest f r f' :
  while_unvisited fuel dest f = Some (r, f') → f_routers f' = f_routers f.
Proof.
  revert f. induction fuel as [|fuel IH]; intros f; simpl.
  - destruct (unvisited f); [|done]. by intros [= _ <-].
  - destruct (unvisited f); [by intros [= _ <-]|].
    pose proof (iteration_routers dest f) as H.
    destruct (iteration dest f) as [[[]|e] f1]; simpl in H.
    + intros ?%IH. congruence.
    + by intros [= _ <-].
    + by intros [= _ <-].
Qed.

(** * Well-formed networks *)

Lemma wf_graph_NoDup routers : wf_graph routers = true → NoDup (dict_keys routers).
Proof. unfold wf_graph. intros [H _]%andb_prop. by apply bool_decide_eq_true in H. Qed.

Lemma wf_graph_router routers x info :
  wf_graph routers = true → dict_get_opt routers x = Some info →
  NoDup (dict_keys (connections info)) ∧
  ∀ n l, (n, l) ∈ connections info → 0 ≤ ad l.
Proof.
  unfold wf_graph. intros [_ H]%andb_prop Hx%dict_get_opt_elem.
  rewrite forallb_forall in H. apply list_elem_of_In, H in Hx.
  apply andb_prop in Hx as [Hnd Hw]. split; [by apply bool_decide_eq_true in Hnd|].
  intros n l Hl. rewrite forallb_forall in Hw.
  apply list_elem_of_In, Hw in Hl. lia.
Qed.

Lemma weights_bounded_link routers x info n l :
  weights_bounded routers = true → dict_get_opt routers x = Some info →
  (n, l) ∈ connections info → Z.abs (ad l) < float_overflow.
Proof.
  unfold weights_bounded. intros H Hx%dict_get_opt_elem Hl.
  rewrite forallb_forall in H. apply list_elem_of_In, H in Hx.
  rewrite forallb_forall in Hx. apply list_elem_of_In, Hx in Hl. lia.
Qed.

Lemma edge_weight_elim routers u v w :
  edge_weight routers u v = Some w →
  ∃ info l, dict_get_opt routers u = Some info ∧
            dict_get_opt (connections info) v = Some l ∧ ad l = w ∧
            u ∈ dict_keys routers ∧ v ∈ dict_keys routers.
Proof.
  unfold edge_weight. destruct (dict_get_opt routers u) as [info|] eqn:Hu; [|done].
  simpl. destruct (dict_get_opt (connections info) v) as [l|] eqn:Hv; [|done].
  simpl. case_bool_decide; [|done]. intros [= <-].
  exists info, l. split_and!; try done. apply dict_get_opt_key. by rewrite Hu.
Qed.

Lemma edge_weight_intro routers x info n l :
  wf_graph routers = true →
  dict_get_opt routers x = Some info → (n, l) ∈ connections info →
  n ∈ dict_keys routers → edge_weight routers x n = Some (ad l).
Proof.
  intros Hwf Hx Hl Hn. destruct (wf_graph_router _ _ _ Hwf Hx) as [Hnd _].
  unfold edge_weight. rewrite Hx. simpl.
  rewrite (dict_get_opt_NoDup _ _ _ Hnd Hl). simpl. by rewrite bool_decide_true.
Qed.

Lemma edge_weight_nonneg routers u v w :
  wf_graph routers = true → edge_weight routers u v = Some w → 0 ≤ w.
Proof.
  intros Hwf (info & l & Hu & Hv & <- & _)%edge_weight_elim.
  destruct (wf_graph_router _ _ _ Hwf Hu) as [_ Hw]. eapply Hw.
  by apply dict_get_opt_elem.
Qed.

(** * Writing the frame *)

Lemma dist_of_update f n d p v :
  dist_of (set_previous p (set_distances (<[Some n := d]> (distances f)) f)) v
  = if decide (v = n) then d else dist_of f v.
Proof.
  unfold dist_of. simpl. destruct (decide (v = n)) as [->|Hne].
  - by rewrite lookup_insert_eq.
  - rewrite lookup_insert_ne; [done|]. congruence.
Qed.

Lemma chain_insert prev n v c l :
  chain prev c l → n ∉ l → chain (<[n := v]> prev) c l.
Proof.
  induction 1 as [|c p l Hc Hl IH]; intros Hn; [constructor|].
  apply not_elem_of_cons in Hn as [Hn1 Hn2].
  apply chain_step with p; [by rewrite lookup_insert_ne|by apply IH].
Qed.

Lemma chain_functional prev c l1 l2 : chain prev c l1 → chain prev c l2 → l1 = l2.
Proof.
  intros H. revert l2. induction H as [|c p l Hc Hl IH]; intros l2 H2.
  - by inversion H2.
  - inversion H2 as [|c' p' l' Hc' Hl']; subst. f_equal. apply IH.
    rewrite Hc in Hc'. by injection Hc' as ->.
Qed.

Section Relax.

Variable routers : list (string * router).
Variable s : string.
Variable dest : option string.
Hypothesis Hwf : wf_graph routers = true.

Lemma relax_step x dx done info n l f :
  relax_inv routers s dest x dx done f →
  dict_get_opt routers x = Some info → (n, l) ∈ connections info →
  (dx = Inf → Z.abs (ad l) < float_overflow) →
  ∃ f', relax x n l f = (Ok tt, f') ∧ unvisited f' = unvisited f ∧
        relax_inv routers s dest x dx (done ++ [(n, l)]) f'.
Proof.
  intros [Hinv (Hxk & Hxv & Hdx) Hdone Hbelow] Hinfo Hl Hsafe.
  assert (∃ f', relax x n l f = (Ok tt, f') ∧
    (f' = f ∧ (n ∈ unvisited f → ∀ zx, dx = Fin zx →
                dist_le (dist_of f n) (Fin (zx + ad l)))
     ∨ ∃ zx, dx = Fin zx ∧ n ∈ unvisited f ∧
             dist_lt (Fin (zx + ad l)) (dist_of f n) = true ∧
             f' = set_previous (<[n := Some x]> (previous f))
                    (set_distances (<[Some n := Fin (zx + ad l)]> (distances f)) f)))
    as (f' & Hrun & Hcases).
  { unfold relax, m_bind, m_get, m_lift, m_put, m_ret.
    case_bool_decide as Hn; [|eexists; split; [done|left; done]].
    rewrite (get_distance_Ok f x) by (by apply Hinv).
    rewrite Hdx. destruct dx as [|zx]; cbn [dist_add].
    - destruct (Z.ltb_spec (Z.abs (ad l)) float_overflow) as [_|Hge];
        [|specialize (Hsafe eq_refl); lia].
      rewrite (get_distance_Ok f n) by (by apply Hinv, Hinv). cbn [dist_lt].
      eexists; split; [done|left; done].
    - rewrite (get_distance_Ok f n) by (by apply Hinv, Hinv).
      destruct (dist_lt (Fin (zx + ad l)) (dist_of f n)) eqn:Hlt.
      + eexists; split; [done|right]. by exists zx.
      + eexists; split; [done|left]. split; [done|]. by intros _ ? [= <-]. }
  exists f'. split; [done|].
  destruct Hcases as [[-> Hle]|(zx & -> & Hn & Hlt & ->)].
  { split; [done|]. split; try done.
    intros n' l' zx' [Hin|Heq%list_elem_of_singleton]%elem_of_app Hn' Hzx;
      [by eauto|].
    injection Heq as -> ->. by apply Hle. }
  split; [done|].
  destruct (wf_graph_router _ _ _ Hwf Hinfo) as [_ Hw]. specialize (Hw _ _ Hl).
  assert (0 ≤ zx) as Hzx by (by eapply Hinv).
  assert (n ∈ dict_keys routers) as Hnk by (by apply Hinv).
  assert (n ≠ x) as Hnx by congruence.
  assert (n ≠ s) as Hns.
  { intros ->. destruct (inv_src _ _ _ _ _ Hinv) as [Hs _].
    rewrite Hs in Hlt. simpl in Hlt. lia. }
  assert (edge_weight routers x n = Some (ad l)) as Hedge
    by (by eapply edge_weight_intro).
  pose proof (dist_lt_le _ _ Hlt) as Hold.
  assert (∀ u, u ∉ unvisited f → u ≠ n) as Hvis by (intros u Hu ->; done).
  set (f' := set_previous _ _).
  assert (∀ v, dist_of f' v = if decide (v = n) then Fin (zx + ad l) else dist_of f v)
    as Hd by (intros; apply dist_of_update).
  assert (∀ v, v ≠ n → previous f' !! v = previous f !! v) as Hp
    by (intros; simpl; by rewrite lookup_insert_ne).
  assert (previous f' !! n = Some (Some x)) as Hpn
    by (simpl; by rewrite lookup_insert_eq).
  assert (∀ v, dist_le (dist_of f' v) (dist_of f v)) as Hmono.
  { intros v. rewrite Hd. case_decide as Hv; [by subst|apply dist_le_refl]. }
  split.
  - split.
    + apply Hinv.
    + apply Hinv.
    + intros v Hv. simpl. destruct (decide (v = n)) as [->|Hne].
      * by rewrite lookup_insert_eq.
      * rewrite lookup_insert_ne by congruence. by apply Hinv.
    + intros v Hv. destruct (decide (v = n)) as [->|Hne].
      * by rewrite Hpn.
      * rewrite Hp by done. by apply Hinv.
    + rewrite Hd, Hp, decide_False by done. apply Hinv.
    + intros v z. rewrite Hd. case_decide; [intros [= <-]; lia|by apply Hinv].
    + intros v Hv. rewrite Hd. case_decide as Hvn; [done|].
      rewrite Hp by done. by apply Hinv.
    + intros v z Hv Hvs. rewrite Hd. case_decide as Hvn.
      * subst v. intros [= <-]. exists x, zx, (ad l). split_and!; try done.
        by rewrite Hd, decide_False.
      * intros Hz. destruct (inv_tree _ _ _ _ _ Hinv v z Hv Hvs Hz)
          as (p & zp & w & Hpv & Hdp & He & ->).
        exists p, zp, w. rewrite Hp by done. split_and!; try done.
        rewrite Hd, decide_False; [done|].
        apply Hvis. by eapply Hinv.
    + intros v p. destruct (decide (v = n)) as [->|Hne].
      * rewrite Hpn. by intros [= <-].
      * rewrite Hp by done. apply Hinv.
    + intros v Hv Hvu. destruct (inv_chain _ _ _ _ _ Hinv v Hv Hvu) as (c & Hc & Hnd & Hall).
      exists c. split_and!; try done. apply chain_insert; [done|].
      intros Hin. by apply Hall in Hin as [_ ?].
    + intros u v zu w Hu Huv Hux. rewrite Hd, decide_False by (by apply Hvis).
      intros Hzu He. eapply dist_le_trans; [apply Hmono|].
      by eapply Hinv.
    + intros u v Hu Huv Hv. rewrite (Hd u), decide_False by (by apply Hvis).
      rewrite Hd. case_decide as Hvn; [|by apply Hinv].
      eapply dist_le_trans; [by apply Hbelow|]. apply dist_le_Fin. lia.
    + apply Hinv.
  - split_and!; try done. by rewrite Hd, decide_False.
  - intros n' l' zx' Hin Hn' [= <-]. rewrite Hd. case_decide as Hn'n.
    + subst n'. apply elem_of_app in Hin as [Hin|Heq%list_elem_of_singleton].
      * eapply dist_le_trans; [apply Hold|]. by eapply Hdone.
      * injection Heq as ->. apply dist_le_refl.
    + apply elem_of_app in Hin as [Hin|Heq%list_elem_of_singleton].
      * by eapply Hdone.
      * by injection Heq as -> ->.
  - intros u Hu Huv. rewrite Hd, decide_False by (by apply Hvis). by apply Hbelow.
Qed.

End Relax.

(** * Paths *)

Lemma walk_weight_snoc routers u rest x d :
  walk_weight routers u (rest ++ [x]) = Some d ↔
  ∃ v d1 w, last (u :: rest) = Some v ∧ walk_weight routers u rest = Some d1 ∧
            edge_weight routers v x = Some w ∧ d = d1 + w.
Proof.
  revert u d. induction rest as [|y rest IH]; intros u d.
  - simpl. split.
    + destruct (edge_weight routers u x) as [w|] eqn:Hw; [|done]. simpl.
      intros [= <-]. exists u, 0, w. split_and!; try done. lia.
    + intros (v & d1 & w & [= <-] & [= <-] & -> & ->). simpl. f_equal. lia.
  - change ((y :: rest) ++ [x]) with (y :: (rest ++ [x])). cbn [walk_weight].
    rewrite last_cons_cons.
    destruct (edge_weight routers u y) as [w0|] eqn:Hw0; simpl.
    2:{ split; [done|]. by intros (v & d1 & w & _ & ? & _). }
    split.
    + destruct (walk_weight routers y (rest ++ [x])) as [d'|] eqn:Hd'; [|done].
      simpl. intros [= <-]. apply IH in Hd' as (v & d1 & w & Hv & Hd1 & Hw & ->).
      exists v, (w0 + d1), w. rewrite Hd1. simpl. split_and!; try done. lia.
    + intros (v & d1 & w & Hv & Hd1 & Hw & ->).
      destruct (walk_weight routers y rest) as [d2|] eqn:Hd2; [|done].
      simpl in Hd1. injection Hd1 as <-.
      assert (walk_weight routers y (rest ++ [x]) = Some (d2 + w)) as ->.
      { apply IH. by exists v, d2, w. }
      simpl. f_equal. lia.
Qed.

Lemma is_path_start routers s : s ∈ dict_keys routers → is_path routers s s [s] 0.
Proof. by intros Hs. Qed.

Lemma is_path_extend routers s v t nodes d w :
  is_path routers s v nodes d → edge_weight routers v t = Some w →
  is_path routers s t (nodes ++ [t]) (d + w).
Proof.
  destruct nodes as [|u rest]; [done|]. intros (-> & Hs & Hlast & Hd) Hw.
  change ((s :: rest) ++ [t]) with (s :: (rest ++ [t])).
  split_and!; try done.
  - change (s :: rest ++ [t]) with ((s :: rest) ++ [t]). apply last_snoc.
  - apply walk_weight_snoc. by exists v, d, w.
Qed.

Lemma is_path_ind routers s (P : string → Z → Prop) :
  P s 0 →
  (∀ v t d w, P v d → edge_weight routers v t = Some w → P t (d + w)) →
  ∀ t nodes d, is_path routers s t nodes d → P t d.
Proof.
  intros Hbase Hstep t nodes d. destruct nodes as [|u rest]; [done|].
  intros (-> & _ & Hlast & Hd). revert t d Hlast Hd.
  induction rest as [|x rest IH] using rev_ind; intros t d Hlast Hd.
  - simpl in *. by injection Hlast as <-; injection Hd as <-.
  - apply walk_weight_snoc in Hd as (v & d1 & w & Hv & Hd1 & Hw & ->).
    change (s :: rest ++ [x]) with ((s :: rest) ++ [x]) in Hlast.
    rewrite last_snoc in Hlast. injection Hlast as <-.
    eapply Hstep; [|done]. by apply IH.
Qed.

Lemma is_path_keys routers s t nodes d :
  is_path routers s t nodes d → t ∈ dict_keys routers.
Proof.
  intros H. assert (s ∈ dict_keys routers) as Hs.
  { destruct nodes; [done|]. by destruct H as (_ & ? & _). }
  revert t nodes d H. apply is_path_ind; [done|].
  by intros v t d w _ (_ & _ & _ & _ & _ & _ & ?)%edge_weight_elim.
Qed.

Section Loop.

Variable routers : list (string * router).
Variable s : string.
Variable dest : option string.
Hypothesis Hwf : wf_graph routers = true.

(** No path to a router is shorter than its distance, once it is visited;
    and no path at all is shorter than every unvisited distance. *)
Lemma lower_bound f t nodes d :
  engine_inv routers s dest None f →
  is_path routers s t nodes d →
  (t ∉ unvisited f → dist_le (dist_of f t) (Fin d)) ∧
  (t ∈ unvisited f → ∃ y, y ∈ unvisited f ∧ dist_le (dist_of f y) (Fin d)).
Proof.
  intros Hinv. revert t nodes d. apply is_path_ind.
  - destruct (inv_src _ _ _ _ _ Hinv) as [Hs _]. split.
    + intros _. rewrite Hs. apply dist_le_refl.
    + intros Hin. exists s. rewrite Hs. split; [done|apply dist_le_refl].
  - intros v t d w [IHv IHu] Hw.
    pose proof (edge_weight_nonneg _ _ _ _ Hwf Hw) as Hw0.
    destruct (edge_weight_elim _ _ _ _ Hw) as (_ & _ & _ & _ & _ & Hvk & Htk).
    destruct (decide (v ∈ unvisited f)) as [Hv|Hv].
    + destruct (IHu Hv) as (y & Hy & Hle).
      assert (dist_le (dist_of f y) (Fin (d + w))) as Hle'.
      { eapply dist_le_trans; [done|]. apply dist_le_Fin. lia. }
      split; [|by eauto]. intros Ht.
      eapply dist_le_trans; [|done]. by apply Hinv.
    + destruct (dist_le_Fin_r _ _ (IHv Hv)) as (zv & Hzv & Hzvd).
      assert (dist_le (dist_of f t) (Fin (d + w))) as Hle.
      { eapply dist_le_trans; [by eapply (inv_relaxed _ _ _ _ _ Hinv v t zv w)|].
        apply dist_le_Fin. lia. }
      split; [done|]. intros Ht. by exists t.
Qed.

Lemma relax_links x dx info todo : ∀ done f,
  relax_inv routers s dest x dx done f →
  dict_get_opt routers x = Some info →
  (∀ n l, (n, l) ∈ todo → (n, l) ∈ connections info) →
  (dx = Inf → ∀ n l, (n, l) ∈ todo → Z.abs (ad l) < float_overflow) →
  ∃ f', for_items (relax x) todo f = (Ok tt, f') ∧ unvisited f' = unvisited f ∧
        relax_inv routers s dest x dx (done ++ todo) f'.
Proof.
  induction todo as [|[n l] todo IH]; intros done f Hinv Hinfo Hsub Hsafe.
  - exists f. rewrite app_nil_r. done.
  - destruct (relax_step routers s dest Hwf x dx done info n l f)
      as (f1 & Hrun & Hunv & Hinv1); try done.
    { apply Hsub. left. }
    { intros Hdx. eapply Hsafe; [done|left]. }
    destruct (IH (done ++ [(n, l)]) f1) as (f2 & Hrun2 & Hunv2 & Hinv2); try done.
    { intros; apply Hsub; by right. }
    { intros Hdx n' l' Hin. eapply Hsafe; [done|by right]. }
    exists f2. cbn [for_items]. unfold m_bind. rewrite Hrun, Hrun2.
    rewrite <- app_assoc in Hinv2. split_and!; [done|congruence|done].
Qed.

Lemma iteration_step f :
  overflow_free routers s dest →
  engine_inv routers s dest None f → unvisited f ≠ [] →
  ∃ b f', iteration dest f = (Ok b, f') ∧
    if b : bool
    then engine_inv routers s dest None f' ∧
         (length (unvisited f') < length (unvisited f))%nat
    else f' = f ∧ loop_ended dest f.
Proof.
  intros Hsafe Hinv Hne.
  destruct (py_min_spec f (unvisited f) Hne) as (x & Hmin & Hx & Hleast).
  { intros y Hy. by apply Hinv, Hinv. }
  unfold iteration. unfold m_bind at 1. unfold m_get at 1.
  unfold m_bind at 1. rewrite Hmin.
  case_bool_decide as Hd.
  { exists false, f. split; [done|]. split; [done|]. right. exists x. done. }
  assert (x ∈ dict_keys routers) as Hxk by (by apply Hinv).
  destruct (proj1 (dict_get_opt_key routers x) Hxk) as [info Hinfo].
  unfold m_bind at 1. unfold set_remove. rewrite bool_decide_true by done.
  unfold m_bind at 1. unfold m_get at 1. unfold m_bind at 1. unfold m_lift.
  set (f1 := set_unvisited _ f).
  assert (f_routers f1 = routers) as -> by apply Hinv.
  unfold dict_get. rewrite Hinfo. cbn [or_raise].
  assert (∀ v, v ∈ unvisited f1 ↔ v ≠ x ∧ v ∈ unvisited f) as Hunv1
    by (intros v; unfold f1; simpl; rewrite list_elem_of_filter; done).
  assert (∀ v, v ∉ unvisited f1 → v ≠ x → v ∉ unvisited f) as Hvis1
    by (intros v Hv Hvx Hin; apply Hv, Hunv1; done).
  assert (relax_inv routers s dest x (dist_of f x) [] f1) as Hri.
  { split.
    - split; try apply Hinv.
      + intros v [_ Hv]%Hunv1. by apply Hinv.
      + intros v p Hp. destruct (inv_parent _ _ _ _ _ Hinv v p Hp) as [Hpk Hpu].
        split; [done|]. by intros [_ ?]%Hunv1.
      + intros v Hv Hvu. destruct (decide (v = x)) as [->|Hvx].
        * destruct (inv_previous _ _ _ _ _ Hinv x Hxk) as [[p|] Hp].
          -- destruct (inv_parent _ _ _ _ _ Hinv x p Hp) as [Hpk Hpu].
             destruct (inv_chain _ _ _ _ _ Hinv p Hpk Hpu) as (c & Hc & Hnd & Hall).
             exists (x :: c). split_and!.
             ++ by apply chain_step with (Some p).
             ++ apply NoDup_cons. split; [|done].
                intros Hin. by apply Hall in Hin as [_ ?].
             ++ intros y [->|Hy]%elem_of_cons; [done|].
                apply Hall in Hy as [? Hy]. split; [done|]. by intros [_ ?]%Hunv1.
          -- exists [x]. split_and!.
             ++ apply chain_step with None; [done|constructor].
             ++ apply NoDup_singleton.
             ++ by intros y ->%list_elem_of_singleton.
        * destruct (inv_chain _ _ _ _ _ Hinv v Hv (Hvis1 v Hvu Hvx))
            as (c & Hc & Hnd & Hall).
          exists c. split_and!; try done. intros y Hy.
          apply Hall in Hy as [? Hy]. split; [done|]. by intros [_ ?]%Hunv1.
      + intros u v zu w Hu Huv Hux. apply (inv_relaxed _ _ _ _ _ Hinv); try done.
        apply Hvis1; [done|congruence].
      + intros u v Hu Huv [Hvx Hv]%Hunv1. destruct (decide (u = x)) as [->|Hux].
        * by apply Hleast.
        * apply (inv_order _ _ _ _ _ Hinv); try done. by apply Hvis1.
      + intros d Hdd Hdk. apply Hunv1. split; [congruence|]. by apply Hinv.
    - split_and!; try done. by intros [? _]%Hunv1.
    - by intros n l zx ?%elem_of_nil.
    - intros u Hu Huv. destruct (decide (u = x)) as [->|Hux]; [apply dist_le_refl|].
      apply (inv_order _ _ _ _ _ Hinv); try done. by apply Hvis1. }
  destruct (relax_links x (dist_of f x) info (connections info) [] f1)
    as (f2 & Hrun & Hunv2 & Hri2); try done.
  { intros Hinf n l Hl. destruct Hsafe as [Hb|(d & nodes & z & Hdd & Hpath)].
    - by eapply weights_bounded_link.
    - exfalso. pose proof (is_path_keys _ _ _ _ _ Hpath) as Hdk.
      destruct (lower_bound f d nodes z Hinv Hpath) as [_ Hlb].
      destruct Hlb as (y & Hy & Hle); [by apply Hinv|].
      pose proof (dist_le_trans _ _ _ (Hleast y Hy) Hle) as Hle'.
      rewrite Hinf in Hle'. done. }
  unfold m_bind. rewrite Hrun. exists true, f2. split; [done|].
  destruct Hri2 as [Hinv2 (_ & Hxu2 & Hdx2) Hdone2 Hbelow2]. split.
  - split; try apply Hinv2.
    intros u v zu w Hu Huv _ Hzu Hw. destruct (decide (u = x)) as [->|Hux].
    + destruct (edge_weight_elim _ _ _ _ Hw) as (info' & l & Hi & Hl & <- & _ & Hvk).
      rewrite Hinfo in Hi. injection Hi as <-.
      destruct (decide (v ∈ unvisited f2)) as [Hv|Hv].
      * eapply Hdone2; [by apply dict_get_opt_elem|done|congruence].
      * eapply dist_le_trans; [by apply Hbelow2|]. rewrite <- Hdx2, Hzu.
        apply dist_le_Fin. pose proof (edge_weight_nonneg _ _ _ _ Hwf Hw). lia.
    + eapply (inv_relaxed _ _ _ _ _ Hinv2); try done. congruence.
  - rewrite Hunv2. unfold f1. simpl.
    apply (length_filter_lt _ _ x); [done|]. by intros ?.
Qed.

End Loop.

(** * The initial frame *)

Lemma initial_distances_lookup (keys : list string) k :
  (list_to_map ((λ r, (Some r, Inf)) <$> keys) : gmap (option string) dist) !! Some k
  = if decide (k ∈ keys) then Some Inf else None.
Proof.
  induction keys as [|x keys IH].
  - rewrite fmap_nil, list_to_map_nil, lookup_empty.
    by rewrite decide_False by apply not_elem_of_nil.
  - rewrite fmap_cons, list_to_map_cons. cbn [fst snd].
    destruct (decide (x = k)) as [->|Hne].
    + rewrite lookup_insert_eq. rewrite decide_True; [done|left].
    + rewrite lookup_insert_ne by congruence. rewrite IH.
      destruct (decide (k ∈ keys)) as [Hin|Hnin].
      * rewrite decide_True; [done|by right].
      * rewrite decide_False; [done|]. intros [->|?]%elem_of_cons; done.
Qed.

Lemma initial_previous_lookup (keys : list string) k :
  (list_to_map ((λ r, (r, None)) <$> keys) : gmap string (option string)) !! k
  = if decide (k ∈ keys) then Some None else None.
Proof.
  induction keys as [|x keys IH].
  - rewrite fmap_nil, list_to_map_nil, lookup_empty.
    by rewrite decide_False by apply not_elem_of_nil.
  - rewrite fmap_cons, list_to_map_cons. cbn [fst snd].
    destruct (decide (x = k)) as [->|Hne].
    + rewrite lookup_insert_eq. rewrite decide_True; [done|left].
    + rewrite lookup_insert_ne by congruence. rewrite IH.
      destruct (decide (k ∈ keys)) as [Hin|Hnin].
      * rewrite decide_True; [done|by right].
      * rewrite decide_False; [done|]. intros [->|?]%elem_of_cons; done.
Qed.

Section Initial.

Variable set_order : list string → list string.
Hypothesis set_order_perm : ∀ l, set_order l ≡ₚ l.
Variable routers : list (string * router).

Lemma initial_unvisited src x :
  x ∈ unvisited (initial_frame set_order routers src) ↔ x ∈ dict_keys routers.
Proof. simpl. by rewrite set_order_perm. Qed.

Lemma initial_unvisited_length src :
  length (unvisited (initial_frame set_order routers src)) = length routers.
Proof. simpl. rewrite set_order_perm. unfold dict_keys. by rewrite length_fmap. Qed.

Lemma initial_dist_of s x :
  dist_of (initial_frame set_order routers (Some s)) x
  = if decide (x = s) then Fin 0 else Inf.
Proof.
  unfold dist_of. simpl. destruct (decide (x = s)) as [->|Hne].
  - by rewrite lookup_insert_eq.
  - rewrite lookup_insert_ne by congruence. rewrite initial_distances_lookup.
    by case_decide.
Qed.

Lemma initial_inv s dest :
  s ∈ dict_keys routers →
  engine_inv routers s dest None (initial_frame set_order routers (Some s)).
Proof.
  intros Hs. split.
  - done.
  - by intros x ?%initial_unvisited.
  - intros x Hx. simpl. destruct (decide (x = s)) as [->|Hne].
    + by rewrite lookup_insert_eq.
    + rewrite lookup_insert_ne by congruence. rewrite initial_distances_lookup.
      by rewrite decide_True.
  - intros x Hx. simpl. rewrite initial_previous_lookup. by rewrite decide_True.
  - rewrite initial_dist_of, decide_True by done. split; [done|].
    simpl. rewrite initial_previous_lookup. by rewrite decide_True.
  - intros x z. rewrite initial_dist_of. case_decide; [|done]. by intros [= <-].
  - intros x Hx _. simpl. rewrite initial_previous_lookup. by rewrite decide_True.
  - intros x z _ Hxs. rewrite initial_dist_of. by rewrite decide_False.
  - intros x p. simpl. rewrite initial_previous_lookup. by case_decide.
  - intros x Hx Hxu. exfalso. apply Hxu. by apply initial_unvisited.
  - intros u v zu w Hu Huv. exfalso. apply Huv. by apply initial_unvisited.
  - intros u v Hu Huv. exfalso. apply Huv. by apply initial_unvisited.
  - intros d _ Hd. by apply initial_unvisited.
Qed.

Lemma initial_idle src :
  (∀ k, k ∈ dict_keys routers → src ≠ Some k) →
  idle_inv routers (initial_frame set_order routers src).
Proof.
  intros Hsrc. split.
  - done.
  - by intros x ?%initial_unvisited.
  - intros x Hx. simpl. rewrite lookup_insert_ne by (by apply Hsrc).
    rewrite initial_distances_lookup. by rewrite decide_True.
  - intros x Hx. simpl. rewrite initial_previous_lookup. by rewrite decide_True.
Qed.

End Initial.

(** * The main loop ends *)

Section Termination.

Variable routers : list (string * router).
Variable s : string.
Variable dest : option string.
Hypothesis Hwf : wf_graph routers = true.
Hypothesis Hsafe : overflow_free routers s dest.

Lemma while_unvisited_nil fuel d f :
  unvisited f = [] → while_unvisited fuel d f = Some (Ok tt, f).
Proof. intros H. destruct fuel; simpl; by rewrite H. Qed.

Lemma while_unvisited_ends n : ∀ f,
  (length (unvisited f) ≤ n)%nat →
  engine_inv routers s dest None f →
  ∃ f', engine_inv routers s dest None f' ∧ loop_ended dest f' ∧
        ∀ fuel, (n ≤ fuel)%nat → while_unvisited fuel dest f = Some (Ok tt, f').
Proof.
  induction n as [|n IH]; intros f Hlen Hinv.
  - assert (unvisited f = []) as Hnil by (apply length_zero_iff_nil; lia).
    exists f. split_and!; [done|by left|]. intros. by apply while_unvisited_nil.
  - destruct (unvisited f) as [|y u] eqn:Hu.
    { exists f. split_and!; [done|by left|]. intros. by apply while_unvisited_nil. }
    destruct (iteration_step routers s dest Hwf f Hsafe Hinv) as (b & f1 & Hrun & Hb).
    { by rewrite Hu. }
    destruct b.
    + destruct Hb as [Hinv1 Hlt]. rewrite Hu in Hlt.
      destruct (IH f1) as (f' & Hinv' & Hend & Hfuel); [simpl in *; lia|done|].
      exists f'. split_and!; try done.
      intros [|fuel] Hle; [lia|]. simpl. rewrite Hu, Hrun. apply Hfuel. lia.
    + destruct Hb as [-> Hend]. exists f. split_and!; try done.
      intros [|fuel] Hle; [lia|]. simpl. by rewrite Hu, Hrun.
Qed.

(** The distances found are distances of the network. *)
Lemma chain_path f c : ∀ v z,
  engine_inv routers s dest None f →
  chain (previous f) (Some v) c → v ∈ dict_keys routers → dist_of f v = Fin z →
  is_path routers s v (rev c) z.
Proof.
  induction c as [|x c IH]; intros v z Hinv Hc Hv Hz; [by inversion Hc|].
  inversion Hc as [|v' p c' Hp Hc']; subst.
  destruct (inv_src _ _ _ _ _ Hinv) as [Hs0 Hsp].
  destruct (decide (x = s)) as [->|Hxs].
  - rewrite Hsp in Hp. injection Hp as <-. inversion Hc'; subst.
    rewrite Hs0 in Hz. injection Hz as <-. by apply is_path_start.
  - destruct (inv_tree _ _ _ _ _ Hinv x z Hv Hxs Hz) as (q & zq & w & Hq & Hzq & Hw & ->).
    rewrite Hq in Hp. injection Hp as <-. simpl.
    eapply is_path_extend; [|done]. apply IH; try done.
    by eapply (inv_parent _ _ _ _ _ Hinv).
Qed.

Lemma chain_exists f v :
  engine_inv routers s dest None f → v ∈ dict_keys routers →
  ∃ c, chain (previous f) (Some v) c ∧ (length c ≤ length routers)%nat.
Proof.
  intros Hinv Hv.
  assert (∃ c, chain (previous f) (Some v) c ∧ NoDup c ∧
               ∀ y, y ∈ c → y ∈ dict_keys routers) as (c & Hc & Hnd & Hall).
  { destruct (decide (v ∈ unvisited f)) as [Hvu|Hvu].
    - destruct (inv_previous _ _ _ _ _ Hinv v Hv) as [[p|] Hp].
      + destruct (inv_parent _ _ _ _ _ Hinv v p Hp) as [Hpk Hpu].
        destruct (inv_chain _ _ _ _ _ Hinv p Hpk Hpu) as (c & Hc & Hnd & Hall).
        exists (v :: c). split_and!.
        * by apply chain_step with (Some p).
        * apply NoDup_cons. split; [|done]. intros Hin. by apply Hall in Hin as [_ ?].
        * intros y [->|Hy]%elem_of_cons; [done|]. by apply Hall in Hy as [? _].
      + exists [v]. split_and!.
        * apply chain_step with None; [done|constructor].
        * apply NoDup_singleton.
        * by intros y ->%list_elem_of_singleton.
    - destruct (inv_chain _ _ _ _ _ Hinv v Hv Hvu) as (c & Hc & Hnd & Hall).
      exists c. split_and!; try done. intros y Hy. by apply Hall in Hy as [? _]. }
  exists c. split; [done|].
  replace (length routers) with (length (dict_keys routers))
    by (unfold dict_keys; by rewrite length_fmap).
  apply submseteq_length, NoDup_submseteq; done.
Qed.

Lemma engine_distance f v :
  engine_inv routers s dest None f → loop_ended dest f →
  v ∈ dict_keys routers → v ∉ unvisited f ∨ dest = Some v →
  is_distance routers s v (dist_of f v).
Proof.
  intros Hinv Hend Hv Hcase.
  assert (∀ nodes z, is_path routers s v nodes z → dist_le (dist_of f v) (Fin z)) as Hlb.
  { intros nodes z Hpath. destruct (lower_bound routers s dest Hwf f v nodes z Hinv Hpath)
      as [Hvis Hunv].
    destruct (decide (v ∈ unvisited f)) as [Hvu|Hvu]; [|by apply Hvis].
    destruct Hcase as [?|Hdv]; [done|].
    destruct (Hunv Hvu) as (y & Hy & Hle).
    destruct Hend as [Hnil|(d & Hd & _ & Hleast)].
    - rewrite Hnil in Hvu. by apply elem_of_nil in Hvu.
    - rewrite Hdv in Hd. injection Hd as <-.
      eapply dist_le_trans; [by apply Hleast|done]. }
  destruct (dist_of f v) as [|z] eqn:Hz; simpl.
  - intros nodes z' Hpath. by apply Hlb in Hpath.
  - split.
    + destruct (chain_exists f v Hinv Hv) as (c & Hc & _).
      exists (rev c). by apply (chain_path f c).
    + intros nodes z' Hpath. by apply dist_le_Fin, (Hlb nodes).
Qed.

End Termination.

(** * The walk back *)

Lemma walk_back_chain prev src dest cur c :
  chain prev cur c → dest ≠ src →
  ∀ fuel path, (length c ≤ fuel)%nat →
    walk_back fuel prev src dest cur path = Some (Ok (path ++ c)).
Proof.
  intros Hc Hne. induction Hc as [|x p c Hp Hc IH]; intros fuel path Hfuel.
  - destruct fuel; simpl; by rewrite app_nil_r.
  - destruct fuel as [|fuel]; [simpl in Hfuel; lia|]. simpl.
    rewrite bool_decide_false by done. rewrite Hp, IH by (simpl in Hfuel; lia).
    by rewrite <- app_assoc.
Qed.

Lemma walk_back_same prev r cur fuel :
  walk_back fuel prev (Some r) (Some r) cur [] = Some (Ok []).
Proof.
  destruct cur as [c|]; [|by destruct fuel].
  destruct fuel; simpl; by rewrite bool_decide_true.
Qed.

Lemma walk_back_None prev src fuel :
  walk_back fuel prev src None None [] = Some (Ok []).
Proof. by destruct fuel. Qed.

(** * The router locator *)

Section Locator.

Context {mach : machine}.

Lemma find_router_loop_key routers ip keys r :
  find_router_loop routers ip keys = Ok (Some r) → r ∈ keys.
Proof.
  induction keys as [|k keys IH]; simpl; [done|].
  unfold mbind, result_bind.
  destruct (dict_get routers k); [|done].
  destruct (ips_same_subnet ip k _) as [[]|]; [|by right; apply IH|done].
  intros [= <-]. left.
Qed.

Lemma find_router_for_ip_key routers ip r :
  find_router_for_ip routers ip = Ok (Some r) → r ∈ dict_keys routers.
Proof. apply find_router_loop_key. Qed.

Lemma is_Ok_true {A} (r : result A) : is_Ok r = true → ∃ a, r = Ok a.
Proof. destruct r; [by eauto|done]. Qed.

Lemma find_router_loop_total routers ip keys :
  wf_addresses routers = true → is_Ok (ipv4_to_value ip) = true →
  (∀ k, k ∈ keys → k ∈ dict_keys routers) →
  ∃ o, find_router_loop routers ip keys = Ok o.
Proof.
  intros Hwf [v Hv]%is_Ok_true. induction keys as [|k keys IH]; intros Hsub.
  - by exists None.
  - destruct (proj1 (dict_get_opt_key routers k)) as [info Hinfo]; [apply Hsub; left|].
    unfold wf_addresses in Hwf. rewrite forallb_forall in Hwf.
    pose proof (dict_get_opt_elem _ _ _ Hinfo) as Hin.
    apply list_elem_of_In, Hwf in Hin.
    apply andb_prop in Hin as [[vk Hvk]%is_Ok_true [m Hm]%is_Ok_true].
    destruct IH as [o Ho]; [intros; apply Hsub; by right|].
    cbn [find_router_loop]. unfold dict_get. rewrite Hinfo.
    unfold ips_same_subnet, mbind, result_bind. cbn [or_raise].
    rewrite Hv, Hvk, Hm. destruct (_ =? _); eauto.
Qed.

Lemma find_router_for_ip_total routers ip :
  wf_addresses routers = true → is_Ok (ipv4_to_value ip) = true →
  ∃ o, find_router_for_ip routers ip = Ok o.
Proof. intros. by apply find_router_loop_total. Qed.

Lemma find_router_loop_none routers ip keys :
  matches_no_router routers ip = true →
  (∀ k, k ∈ keys → k ∈ dict_keys routers) →
  find_router_loop routers ip keys = Ok None.
Proof.
  intros Hno. induction keys as [|k keys IH]; intros Hsub; [done|].
  destruct (proj1 (dict_get_opt_key routers k)) as [info Hinfo]; [apply Hsub; left|].
  unfold matches_no_router in Hno. rewrite forallb_forall in Hno.
  pose proof (dict_get_opt_elem _ _ _ Hinfo) as Hin.
  apply list_elem_of_In, Hno in Hin.
  cbn [find_router_loop]. unfold dict_get. rewrite Hinfo.
  unfold mbind, result_bind. cbn [or_raise].
  destruct (ips_same_subnet ip k (netmask info)) as [[]|]; try done.
  apply IH. intros; apply Hsub; by right.
Qed.

Lemma find_router_for_ip_none routers ip :
  matches_no_router routers ip = true → find_router_for_ip routers ip = Ok None.
Proof. intros. by apply find_router_loop_none. Qed.

End Locator.

(** * A source that is no router *)

Section Idle.

Variable routers : list (string * router).
Hypothesis Hbounded : weights_bounded routers = true.

Lemma idle_relax x info : ∀ todo f,
  idle_inv routers f → x ∈ dict_keys routers →
  dict_get_opt routers x = Some info →
  (∀ n l, (n, l) ∈ todo → (n, l) ∈ connections info) →
  for_items (relax x) todo f = (Ok tt, f).
Proof.
  induction todo as [|[n l] todo IH]; intros f Hinv Hx Hinfo Hsub; [done|].
  cbn [for_items]. unfold m_bind at 1.
  assert (relax x n l f = (Ok tt, f)) as ->.
  { unfold relax, m_bind, m_get, m_lift, m_put, m_ret.
    case_bool_decide as Hn; [|done].
    unfold get_distance. rewrite (idle_distances _ _ Hinv x Hx). cbn [or_raise dist_add].
    destruct (Z.ltb_spec (Z.abs (ad l)) float_overflow) as [_|Hge].
    - rewrite (idle_distances _ _ Hinv n) by (by apply Hinv). done.
    - pose proof (weights_bounded_link _ _ _ n l Hbounded Hinfo) as Hb.
      specialize (Hb (Hsub _ _ ltac:(left))). lia. }
  apply IH; try done. intros; apply Hsub; by right.
Qed.

Lemma idle_iteration dest f :
  idle_inv routers f → unvisited f ≠ [] →
  ∃ b f', iteration dest f = (Ok b, f') ∧
    if b : bool
    then idle_inv routers f' ∧ (length (unvisited f') < length (unvisited f))%nat
    else f' = f.
Proof.
  intros Hinv Hne.
  destruct (py_min_spec f (unvisited f) Hne) as (x & Hmin & Hx & _).
  { intros y Hy. rewrite (idle_distances _ _ Hinv y); [done|by apply Hinv]. }
  unfold iteration. unfold m_bind at 1. unfold m_get at 1.
  unfold m_bind at 1. rewrite Hmin.
  case_bool_decide as Hd; [by exists false, f|].
  assert (x ∈ dict_keys routers) as Hxk by (by apply Hinv).
  destruct (proj1 (dict_get_opt_key routers x) Hxk) as [info Hinfo].
  unfold m_bind at 1. unfold set_remove. rewrite bool_decide_true by done.
  unfold m_bind at 1. unfold m_get at 1. unfold m_bind at 1. unfold m_lift.
  set (f1 := set_unvisited _ f).
  assert (idle_inv routers f1) as Hinv1.
  { split; try apply Hinv. intros v Hv. unfold f1 in Hv. simpl in Hv.
    apply list_elem_of_filter in Hv as [_ Hv]. by apply Hinv. }
  assert (f_routers f1 = routers) as -> by apply Hinv.
  unfold dict_get. rewrite Hinfo. cbn [or_raise].
  unfold m_bind. rewrite (idle_relax x info (connections info) f1); try done.
  exists true, f1. split; [done|]. split; [done|].
  unfold f1. simpl. apply (length_filter_lt _ _ x); [done|]. by intros ?.
Qed.

Lemma idle_ends dest n : ∀ f,
  (length (unvisited f) ≤ n)%nat → idle_inv routers f →
  ∃ f', idle_inv routers f' ∧
        ∀ fuel, (n ≤ fuel)%nat → while_unvisited fuel dest f = Some (Ok tt, f').
Proof.
  induction n as [|n IH]; intros f Hlen Hinv.
  - assert (unvisited f = []) as Hnil by (apply length_zero_iff_nil; lia).
    exists f. split; [done|]. intros. by apply while_unvisited_nil.
  - destruct (unvisited f) as [|y u] eqn:Hu.
    { exists f. split; [done|]. intros. by apply while_unvisited_nil. }
    destruct (idle_iteration dest f Hinv) as (b & f1 & Hrun & Hb).
    { by rewrite Hu. }
    destruct b.
    + destruct Hb as [Hinv1 Hlt]. rewrite Hu in Hlt.
      destruct (IH f1) as (f' & Hinv' & Hfuel); [simpl in *; lia|done|].
      exists f'. split; [done|].
      intros [|fuel] Hle; [lia|]. simpl. rewrite Hu, Hrun. apply Hfuel. lia.
    + subst f1. exists f. split; [done|].
      intros [|fuel] Hle; [lia|]. simpl. by rewrite Hu, Hrun.
Qed.

End Idle.

(** * The search as a whole *)

Section Search.

Variable set_order : list string → list string.
Hypothesis set_order_perm : ∀ l, set_order l ≡ₚ l.
Variable routers : list (string * router).

(** The main loop, from a source that is a router. *)
Lemma engine_run s dest :
  wf_graph routers = true → s ∈ dict_keys routers →
  overflow_free routers s dest →
  ∃ f, engine_inv routers s dest None f ∧ loop_ended dest f ∧
       ∀ fuel, (length routers ≤ fuel)%nat →
         shortest_path_engine set_order fuel routers (Some s) dest = Some (Ok tt, f).
Proof.
  intros Hwf Hs Hsafe.
  destruct (while_unvisited_ends routers s dest Hwf Hsafe (length routers)
              (initial_frame set_order routers (Some s))) as (f & Hinv & Hend & Hrun).
  - by rewrite initial_unvisited_length.
  - by apply initial_inv.
  - by exists f.
Qed.

(** The main loop, from a source that is no router. *)
Lemma engine_run_idle src dest :
  weights_bounded routers = true →
  (∀ k, k ∈ dict_keys routers → src ≠ Some k) →
  ∃ f, idle_inv routers f ∧
       ∀ fuel, (length routers ≤ fuel)%nat →
         shortest_path_engine set_order fuel routers src dest = Some (Ok tt, f).
Proof.
  intros Hb Hsrc.
  destruct (idle_ends routers Hb dest (length routers)
              (initial_frame set_order routers src)) as (f & Hinv & Hrun).
  - by rewrite initial_unvisited_length.
  - by apply initial_idle.
  - by exists f.
Qed.

(** Source and destination are distinct routers: the result is the walk
    back from the destination, reversed. *)
Lemma get_shortest_path_chain s d :
  wf_graph routers = true → s ∈ dict_keys routers → d ∈ dict_keys routers →
  s ≠ d → overflow_free routers s (Some d) →
  ∃ f c, engine_inv routers s (Some d) None f ∧ loop_ended (Some d) f ∧
         chain (previous f) (Some d) c ∧
         ∀ fuel, (length routers ≤ fuel)%nat →
           get_shortest_path set_order fuel routers (Some s) (Some d)
           = Some (Ok (rev c), routers).
Proof.
  intros Hwf Hs Hd Hsd Hsafe.
  destruct (engine_run s (Some d) Hwf Hs Hsafe) as (f & Hinv & Hend & Hrun).
  destruct (chain_exists routers s (Some d) f d Hinv Hd) as (c & Hc & Hlen).
  exists f, c. split_and!; try done. intros fuel Hfuel.
  unfold get_shortest_path. rewrite Hrun by done.
  rewrite (walk_back_chain _ _ _ _ c Hc) by (congruence || lia).
  by rewrite (inv_routers _ _ _ _ _ Hinv).
Qed.

(** The same router twice. *)
Lemma get_shortest_path_same r :
  r ∈ dict_keys routers →
  ∀ fuel, (1 ≤ fuel)%nat →
    get_shortest_path set_order fuel routers (Some r) (Some r) = Some (Ok [], routers).
Proof.
  intros Hr fuel Hfuel. unfold get_shortest_path, shortest_path_engine.
  set (f := initial_frame set_order routers (Some r)).
  assert (unvisited f ≠ []) as Hne.
  { intros Hnil. assert (r ∈ unvisited f) as Hin by (by apply initial_unvisited).
    rewrite Hnil in Hin. by apply elem_of_nil in Hin. }
  destruct (py_min_spec f (unvisited f) Hne) as (x & Hmin & Hx & Hleast).
  { intros y Hy%(initial_unvisited set_order set_order_perm). simpl.
    destruct (decide (y = r)) as [->|Hyr].
    - by rewrite lookup_insert_eq.
    - rewrite lookup_insert_ne by congruence. rewrite initial_distances_lookup.
      by rewrite decide_True. }
  assert (x = r) as ->.
  { assert (r ∈ unvisited f) as Hin by (by apply initial_unvisited).
    specialize (Hleast r Hin). unfold f in Hleast. rewrite !initial_dist_of in Hleast.
    rewrite (decide_True _ _ eq_refl) in Hleast. by case_decide. }
  assert (iteration (Some r) f = (Ok false, f)) as Hit.
  { unfold iteration. unfold m_bind at 1. unfold m_get at 1.
    unfold m_bind at 1. rewrite Hmin. by rewrite bool_decide_true. }
  destruct fuel as [|fuel]; [lia|]. cbn [while_unvisited].
  destruct (unvisited f) eqn:Hu; [done|]. rewrite Hit.
  by rewrite walk_back_same.
Qed.

(** The destination is no router. *)
Lemma get_shortest_path_no_dest src :
  wf_graph routers = true → weights_bounded routers = true →
  (∀ s, src = Some s → s ∈ dict_keys routers) →
  ∀ fuel, (length routers ≤ fuel)%nat →
    get_shortest_path set_order fuel routers src None = Some (Ok [], routers).
Proof.
  intros Hwf Hb Hsrc fuel Hfuel. unfold get_shortest_path.
  destruct src as [s|].
  - destruct (engine_run s None Hwf (Hsrc s eq_refl)) as (f & Hinv & _ & Hrun);
      [by left|].
    rewrite Hrun by done. rewrite walk_back_None.
    by rewrite (inv_routers _ _ _ _ _ Hinv).
  - destruct (engine_run_idle None None Hb) as (f & Hinv & Hrun); [done|].
    rewrite Hrun by done. rewrite walk_back_None.
    by rewrite (idle_routers _ _ Hinv).
Qed.

(** The source is no router and the destination is one. *)
Lemma get_shortest_path_no_src d :
  weights_bounded routers = true → d ∈ dict_keys routers →
  ∀ fuel, (length routers ≤ fuel)%nat → (1 ≤ fuel)%nat →
    get_shortest_path set_order fuel routers None (Some d) = Some (Ok [d], routers).
Proof.
  intros Hb Hd fuel Hfuel Hone. unfold get_shortest_path.
  destruct (engine_run_idle None (Some d) Hb) as (f & Hinv & Hrun); [done|].
  rewrite Hrun by done.
  rewrite (walk_back_chain _ _ _ _ [d]); [|..|done|simpl; lia].
  - by rewrite (idle_routers _ _ Hinv).
  - apply chain_step with None; [by apply Hinv|constructor].
Qed.

End Search.

(** * What does not depend on the machine *)

(** What the smallest machine computes without MemoryError, every machine
    computes: no string of more than 32 characters was asked for. *)
Section Smallest.

Context {mach : machine}.

Lemma py_repeat_smallest c n :
  @py_repeat smallest_machine c n ≠ Raise MemoryError →
  py_repeat c n = @py_repeat smallest_machine c n.
Proof.
  unfold py_repeat. cbn [max_str_len smallest_machine].
  pose proof max_str_len_mask as Hmin.
  destruct (_ || _); [done|].
  destruct (Z.ltb_spec 32 n); [done|].
  destruct (Z.ltb_spec max_str_len n); [lia|done].
Qed.

Lemma get_subnet_mask_value_smallest slash :
  @get_subnet_mask_value smallest_machine slash ≠ Raise MemoryError →
  get_subnet_mask_value slash = @get_subnet_mask_value smallest_machine slash.
Proof.
  unfold get_subnet_mask_value, mbind, result_bind.
  destruct (py_index _ 1) as [field|]; [|done].
  destruct (py_int 10 field) as [value|]; [|done].
  intros Hm.
  rewrite (py_repeat_smallest "1" value).
  2:{ intros Heq. by rewrite Heq in Hm. }
  destruct (@py_repeat smallest_machine "1" value) as [ones|]; [|done].
  rewrite (py_repeat_smallest "0" (32 - value)).
  2:{ intros Heq. by rewrite Heq in Hm. }
  done.
Qed.

Lemma ips_same_subnet_smallest ip1 ip2 slash :
  @ips_same_subnet smallest_machine ip1 ip2 slash ≠ Raise MemoryError →
  ips_same_subnet ip1 ip2 slash = @ips_same_subnet smallest_machine ip1 ip2 slash.
Proof.
  unfold ips_same_subnet, mbind, result_bind.
  destruct (ipv4_to_value ip1) as [v1|]; [|done].
  destruct (ipv4_to_value ip2) as [v2|]; [|done].
  intros Hm. rewrite get_subnet_mask_value_smallest; [done|].
  intros Heq. by rewrite Heq in Hm.
Qed.

Lemma find_router_loop_smallest routers ip keys :
  @find_router_loop smallest_machine routers ip keys ≠ Raise MemoryError →
  find_router_loop routers ip keys = @find_router_loop smallest_machine routers ip keys.
Proof.
  induction keys as [|k keys IH]; [done|]. cbn [find_router_loop].
  unfold mbind, result_bind.
  destruct (dict_get routers k) as [info|]; [|done].
  intros Hm. rewrite ips_same_subnet_smallest.
  2:{ intros Heq. by rewrite Heq in Hm. }
  destruct (@ips_same_subnet smallest_machine ip k (netmask info)) as [[]|]; try done.
  by apply IH.
Qed.

Lemma find_router_for_ip_smallest routers ip :
  @find_router_for_ip smallest_machine routers ip ≠ Raise MemoryError →
  find_router_for_ip routers ip = @find_router_for_ip smallest_machine routers ip.
Proof. apply find_router_loop_smallest. Qed.

Lemma dijkstras_shortest_path_smallest set_order fuel routers src_ip dest_ip r rs :
  @dijkstras_shortest_path smallest_machine set_order fuel routers src_ip dest_ip
  = Some (r, rs) →
  r ≠ Raise MemoryError →
  dijkstras_shortest_path set_order fuel routers src_ip dest_ip = Some (r, rs).
Proof.
  unfold dijkstras_shortest_path. intros Hrun Hr.
  rewrite (find_router_for_ip_smallest routers src_ip).
  2:{ intros Heq. rewrite Heq in Hrun. by injection Hrun as <- _. }
  destruct (@find_router_for_ip smallest_machine routers src_ip) as [src|e]; [|done].
  rewrite (find_router_for_ip_smallest routers dest_ip).
  2:{ intros Heq. rewrite Heq in Hrun. by injection Hrun as <- _. }
  done.
Qed.

Lemma dijkstras_shortest_path_order so1 so2 fuel routers src_ip dest_ip :
  so1 (dict_keys routers) = so2 (dict_keys routers) →
  dijkstras_shortest_path so1 fuel routers src_ip dest_ip
  = dijkstras_shortest_path so2 fuel routers src_ip dest_ip.
Proof.
  intros H. unfold dijkstras_shortest_path, get_shortest_path, shortest_path_engine,
    initial_frame. by rewrite H.
Qed.

End Smallest.

(** * The properties of the specification *)

(** They hold on every machine. *)
Section Claims.

Context {mach : machine}.

Lemma triangle_any_order set_order :
  (∀ l, set_order l ≡ₚ l) →
  dijkstras_shortest_path set_order 3 triangle "10.0.1.7" "10.0.3.9"
  = Some (Ok ["10.0.1.1"; "10.0.2.1"; "10.0.3.1"], triangle).
Proof.
  intros Hperm. apply dijkstras_shortest_path_smallest; [|done].
  pose proof (Hperm (dict_keys triangle)) as Hp.
  symmetry in Hp. apply permutations_Permutation in Hp.
  rewrite (dijkstras_shortest_path_order (mach:=smallest_machine) _
             (λ _, set_order (dict_keys triangle))) by done.
  revert Hp. generalize (set_order (dict_keys triangle)). intros u Hu.
  assert (permutations (dict_keys triangle) =
    [ ["10.0.1.1"; "10.0.2.1"; "10.0.3.1"]; ["10.0.2.1"; "10.0.1.1"; "10.0.3.1"];
      ["10.0.2.1"; "10.0.3.1"; "10.0.1.1"]; ["10.0.1.1"; "10.0.3.1"; "10.0.2.1"];
      ["10.0.3.1"; "10.0.1.1"; "10.0.2.1"]; ["10.0.3.1"; "10.0.2.1"; "10.0.1.1"] ])
    as Hperms by (by vm_compute).
  rewrite Hperms in Hu.
  repeat (apply elem_of_cons in Hu as [->|Hu]; [by vm_compute|]).
  by apply elem_of_nil in Hu.
Qed.

(** C1, amended: when the two hosts resolve to distinct routers [s] and [d]
    of a network (distinct keys, no negative weight) and some path leads
    from [s] to [d], the program returns a path of the network that starts
    with the source router [s] and ends with the destination router [d],
    and no path from [s] to [d] weighs less; for the three routers of the
    example the result is [A, B, C], whatever the order of the set. *)
Theorem path_from_source_to_destination
    (set_order : list string → list string) (routers : list (string * router))
    (src_ip dest_ip s d : string) (nodes : list string) (z : Z) :
  (∀ l, set_order l ≡ₚ l) →
  wf_graph routers = true →
  find_router_for_ip routers src_ip = Ok (Some s) →
  find_router_for_ip routers dest_ip = Ok (Some d) →
  s ≠ d →
  is_path routers s d nodes z →
  (∃ path z',
     (∀ fuel, (length routers ≤ fuel)%nat →
        dijkstras_shortest_path set_order fuel routers src_ip dest_ip
        = Some (Ok path, routers)) ∧
     head path = Some s ∧ last path = Some d ∧
     is_path routers s d path z' ∧
     ∀ nodes' z'', is_path routers s d nodes' z'' → z' ≤ z'') ∧
  (∀ fuel, (3 ≤ fuel)%nat →
     dijkstras_shortest_path set_order fuel triangle "10.0.1.7" "10.0.3.9"
     = Some (Ok ["10.0.1.1"; "10.0.2.1"; "10.0.3.1"], triangle)).
Proof.
  intros Hperm Hwf Hsrc Hdest Hsd Hpath.
  assert (∀ routers src_ip dest_ip s d nodes z,
    wf_graph routers = true →
    find_router_for_ip routers src_ip = Ok (Some s) →
    find_router_for_ip routers dest_ip = Ok (Some d) →
    s ≠ d → is_path routers s d nodes z →
    ∃ path z',
     (∀ fuel, (length routers ≤ fuel)%nat →
        dijkstras_shortest_path set_order fuel routers src_ip dest_ip
        = Some (Ok path, routers)) ∧
     head path = Some s ∧ last path = Some d ∧
     is_path routers s d path z' ∧
     ∀ nodes' z'', is_path routers s d nodes' z'' → z' ≤ z'') as Hgen.
  { clear -Hperm. intros routers src_ip dest_ip s d nodes z Hwf Hsrc Hdest Hsd Hpath.
    pose proof (find_router_for_ip_key _ _ _ Hsrc) as Hs.
    pose proof (find_router_for_ip_key _ _ _ Hdest) as Hd.
    destruct (get_shortest_path_chain set_order Hperm routers s d Hwf Hs Hd Hsd)
      as (f & c & Hinv & Hend & Hc & Hrun).
    { right. by exists d, nodes, z. }
    pose proof (engine_distance routers s (Some d) Hwf f d Hinv Hend Hd (or_intror eq_refl))
      as Hdist.
    destruct (dist_of f d) as [|z'] eqn:Hz; simpl in Hdist; [by apply Hdist in Hpath|].
    destruct Hdist as [_ Hmin].
    pose proof (chain_path routers s (Some d) f c d z' Hinv Hc Hd Hz) as Hp.
    exists (rev c), z'. split_and!; try done.
    - intros fuel Hfuel. unfold dijkstras_shortest_path. rewrite Hsrc, Hdest.
      by apply Hrun.
    - destruct (rev c) as [|u rest]; [done|]. by destruct Hp as (-> & _).
    - destruct (rev c) as [|u rest]; [done|]. by destruct Hp as (_ & _ & ? & _). }
  split; [by eapply Hgen|].
  destruct (Hgen triangle "10.0.1.7" "10.0.3.9" "10.0.1.1" "10.0.3.1"
              ["10.0.1.1"; "10.0.3.1"] 20) as (path & z' & Hrun & _);
    [by vm_compute
    |rewrite find_router_for_ip_smallest; by vm_compute
    |rewrite find_router_for_ip_smallest; by vm_compute
    |done| |].
  { vm_compute. repeat split. apply list_elem_of_In. simpl. tauto. }
  intros fuel Hfuel. rewrite Hrun by (simpl; lia).
  rewrite <- (Hrun 3%nat) by (simpl; lia). by apply triangle_any_order.
Qed.

(** C2, amended: for every network (distinct keys, no negative weight) and
    every source and destination router in it, provided every weight is
    below 2^1024 - 2^970 or the destination can be reached from the source,
    the main loop ends and its final distance table gives, for every router
    visited before the loop stops and for the destination, the least weight
    of a path from the source, or math.inf exactly when there is no path;
    following [previous] back from a destination at a finite distance gives
    a path of that weight. *)
Theorem engine_distances_correct
    (set_order : list string → list string) (routers : list (string * router))
    (s d : string) :
  (∀ l, set_order l ≡ₚ l) →
  wf_graph routers = true →
  s ∈ dict_keys routers → d ∈ dict_keys routers →
  overflow_free routers s (Some d) →
  engine_correct set_order routers s d.
Proof.
  intros Hperm Hwf Hs Hd Hsafe.
  destruct (engine_run set_order Hperm routers s (Some d) Hwf Hs Hsafe)
    as (f & Hinv & Hend & Hrun).
  exists f. split_and!.
  - done.
  - intros v Hv Hvu. apply (engine_distance routers s (Some d)); auto.
  - apply (engine_distance routers s (Some d)); auto.
  - intros z Hz. destruct (chain_exists routers s (Some d) f d Hinv Hd) as (c & Hc & _).
    exists c. split; [done|]. by apply (chain_path routers s (Some d) f).
Qed.

(** C3, amended: when the two hosts resolve to distinct routers [s] and [d]
    of a network (distinct keys, no negative weight, every weight below
    2^1024 - 2^970) and no path leads from [s] to [d], the program raises
    nothing and returns the one-element list [d], which differs from the
    empty list of the same-router case; it has no separate no-route
    outcome. *)
Theorem unreachable_destination_alone
    (set_order : list string → list string) (routers : list (string * router))
    (src_ip dest_ip s d : string) :
  (∀ l, set_order l ≡ₚ l) →
  wf_graph routers = true →
  weights_bounded routers = true →
  find_router_for_ip routers src_ip = Ok (Some s) →
  find_router_for_ip routers dest_ip = Ok (Some d) →
  s ≠ d →
  (∀ nodes z, ¬ is_path routers s d nodes z) →
  ∀ fuel, (length routers ≤ fuel)%nat →
    dijkstras_shortest_path set_order fuel routers src_ip dest_ip
    = Some (Ok [d], routers) ∧ [d] ≠ [].
Proof.
  intros Hperm Hwf Hb Hsrc Hdest Hsd Hno fuel Hfuel. split; [|done].
  pose proof (find_router_for_ip_key _ _ _ Hsrc) as Hs.
  pose proof (find_router_for_ip_key _ _ _ Hdest) as Hd.
  destruct (get_shortest_path_chain set_order Hperm routers s d Hwf Hs Hd Hsd)
    as (f & c & Hinv & Hend & Hc & Hrun); [by left|].
  pose proof (engine_distance routers s (Some d) Hwf f d Hinv Hend Hd (or_intror eq_refl))
    as Hdist.
  destruct (dist_of f d) as [|z'] eqn:Hz; simpl in Hdist.
  - pose proof (inv_inf _ _ _ _ _ Hinv d Hd Hz) as Hp.
    assert (c = [d]) as ->.
    { eapply chain_functional; [done|]. apply chain_step with None; [done|constructor]. }
    unfold dijkstras_shortest_path. rewrite Hsrc, Hdest. by apply Hrun.
  - destruct Hdist as [[nodes Hpath] _]. by apply Hno in Hpath.
Qed.

(** C4, amended: for a host address that is in no router's subnet the
    locator returns None and raises nothing. The program then searches with
    None as a router (network with distinct keys, no negative weight and
    every weight below 2^1024 - 2^970): it returns the empty list when the
    destination host is the unmatched one, and the one-element list [d] when
    the source host is the unmatched one and the destination host resolves
    to the router [d]. *)
Theorem unmatched_host_is_None
    (set_order : list string → list string) (routers : list (string * router))
    (ip : string) :
  (∀ l, set_order l ≡ₚ l) →
  wf_graph routers = true →
  weights_bounded routers = true →
  matches_no_router routers ip = true →
  find_router_for_ip routers ip = Ok None ∧
  (∀ src_ip src fuel,
     find_router_for_ip routers src_ip = Ok src → (length routers ≤ fuel)%nat →
     dijkstras_shortest_path set_order fuel routers src_ip ip = Some (Ok [], routers)) ∧
  (∀ dest_ip d fuel,
     find_router_for_ip routers dest_ip = Ok (Some d) → (length routers ≤ fuel)%nat →
     dijkstras_shortest_path set_order fuel routers ip dest_ip = Some (Ok [d], routers)).
Proof.
  intros Hperm Hwf Hb Hno.
  pose proof (find_router_for_ip_none _ _ Hno) as Hnone. split_and!; [done|..].
  - intros src_ip src fuel Hsrc Hfuel. unfold dijkstras_shortest_path.
    rewrite Hsrc, Hnone. apply get_shortest_path_no_dest; try done.
    intros s ->. by eapply find_router_for_ip_key.
  - intros dest_ip d fuel Hdest Hfuel. unfold dijkstras_shortest_path.
    rewrite Hnone, Hdest. pose proof (find_router_for_ip_key _ _ _ Hdest) as Hd.
    apply get_shortest_path_no_src; try done.
    unfold dict_keys in Hd. destruct routers; [by apply elem_of_nil in Hd|].
    simpl in Hfuel. lia.
Qed.

(** C8: when the two hosts resolve to the same router, the program returns
    the empty list. *)
Theorem same_router_empty_path
    (set_order : list string → list string) (routers : list (string * router))
    (src_ip dest_ip r : string) :
  (∀ l, set_order l ≡ₚ l) →
  find_router_for_ip routers src_ip = Ok (Some r) →
  find_router_for_ip routers dest_ip = Ok (Some r) →
  ∀ fuel, (1 ≤ fuel)%nat →
    dijkstras_shortest_path set_order fuel routers src_ip dest_ip = Some (Ok [], routers).
Proof.
  intros Hperm Hsrc Hdest fuel Hfuel. unfold dijkstras_shortest_path.
  rewrite Hsrc, Hdest. apply get_shortest_path_same; try done.
  by eapply find_router_for_ip_key.
Qed.

(** C9: a call leaves the [routers] dictionary as it was, whatever its
    outcome (a list or an exception); a second call with the same arguments
    on the dictionary left by the first has the same outcome. *)
Theorem routers_not_mutated
    (set_order : list string → list string) (fuel : nat)
    (routers : list (string * router)) (src_ip dest_ip : string) :
  match dijkstras_shortest_path set_order fuel routers src_ip dest_ip with
  | Some (outcome, routers') =>
      routers' = routers ∧
      dijkstras_shortest_path set_order fuel routers' src_ip dest_ip
      = Some (outcome, routers')
  | None => True
  end.
Proof.
  destruct (dijkstras_shortest_path set_order fuel routers src_ip dest_ip)
    as [[outcome routers']|] eqn:Hrun; [|done].
  assert (routers' = routers) as ->; [|done].
  unfold dijkstras_shortest_path in Hrun.
  destruct (find_router_for_ip routers src_ip) as [src|e]; [|by injection Hrun].
  destruct (find_router_for_ip routers dest_ip) as [dest|e]; [|by injection Hrun].
  unfold get_shortest_path, shortest_path_engine in Hrun.
  destruct (while_unvisited _ _ _) as [[r f]|] eqn:Hloop; [|done].
  apply while_unvisited_routers in Hloop. simpl in Hloop.
  destruct r as [[]|e].
  - destruct (walk_back _ _ _ _ _ _) as [[path|e]|]; [| |done];
      injection Hrun as _ <-; done.
  - by injection Hrun as _ <-.
Qed.

Lemma overflow_in_every_order set_order :
  (∀ l, set_order l ≡ₚ l) →
  dijkstras_shortest_path set_order 2 heavy_pair "192.168.0.1" "192.168.0.2"
  = Some (Raise OverflowError, heavy_pair).
Proof.
  intros Hperm. apply dijkstras_shortest_path_smallest; [|done].
  pose proof (Hperm (dict_keys heavy_pair)) as Hp.
  symmetry in Hp. apply permutations_Permutation in Hp.
  rewrite (dijkstras_shortest_path_order (mach:=smallest_machine) _
             (λ _, set_order (dict_keys heavy_pair))) by done.
  revert Hp. generalize (set_order (dict_keys heavy_pair)). intros u Hu.
  assert (permutations (dict_keys heavy_pair) =
    [ ["10.0.1.1"; "10.0.2.1"]; ["10.0.2.1"; "10.0.1.1"] ]) as Hperms by (by vm_compute).
  rewrite Hperms in Hu.
  repeat (apply elem_of_cons in Hu as [->|Hu]; [by vm_compute|]).
  by apply elem_of_nil in Hu.
Qed.

(** C10, amended: for every network with distinct keys, router addresses
    and netmasks that the codec parses, no negative weight and every weight
    below 2^1024 - 2^970, and every pair of host addresses that the codec
    parses, the program ends and returns a list without raising, also when
    a host address matches no router: as many iterations as there are
    routers are enough for the main loop and for the walk back. *)
Theorem dijkstras_shortest_path_returns
    (set_order : list string → list string) (routers : list (string * router))
    (src_ip dest_ip : string) :
  (∀ l, set_order l ≡ₚ l) →
  wf_graph routers = true →
  wf_addresses routers = true →
  weights_bounded routers = true →
  is_Ok (ipv4_to_value src_ip) = true →
  is_Ok (ipv4_to_value dest_ip) = true →
  ∃ path, ∀ fuel, (length routers ≤ fuel)%nat →
    dijkstras_shortest_path set_order fuel routers src_ip dest_ip
    = Some (Ok path, routers).
Proof.
  intros Hperm Hwf Hwa Hb Hsrc Hdest.
  destruct (find_router_for_ip_total _ _ Hwa Hsrc) as [src Hs].
  destruct (find_router_for_ip_total _ _ Hwa Hdest) as [dest Hd].
  unfold dijkstras_shortest_path. rewrite Hs, Hd.
  assert (∀ k, k ∈ dict_keys routers → (1 ≤ length routers)%nat) as Hlen.
  { intros k Hk. unfold dict_keys in Hk. destruct routers; [by apply elem_of_nil in Hk|].
    simpl. lia. }
  destruct dest as [d|].
  2:{ exists []. intros fuel Hfuel. apply get_shortest_path_no_dest; try done.
      intros s ->. by eapply find_router_for_ip_key. }
  pose proof (find_router_for_ip_key _ _ _ Hd) as Hdk.
  destruct src as [s|].
  2:{ exists [d]. intros fuel Hfuel. apply get_shortest_path_no_src; try done.
      specialize (Hlen d Hdk). lia. }
  pose proof (find_router_for_ip_key _ _ _ Hs) as Hsk.
  destruct (decide (s = d)) as [->|Hsd].
  - exists []. intros fuel Hfuel. apply get_shortest_path_same; try done.
    specialize (Hlen d Hdk). lia.
  - destruct (get_shortest_path_chain set_order Hperm routers s d Hwf Hsk Hdk Hsd)
      as (f & c & _ & _ & _ & Hrun); [by left|].
    by exists (rev c).
Qed.

(** C5: the address codec round-trips: a canonical dotted quad (exactly
    four fields, each a decimal octet of value 0 to 255 without leading
    zero) is what [value_to_ipv4] writes for its value, and every 32-bit
    value is the value of what [value_to_ipv4] writes for it. *)
Theorem address_codec_round_trip :
  (∀ s, dotted_quad canonical_octet s = true →
        ∃ v, ipv4_to_value s = Ok v ∧ value_to_ipv4 v = s) ∧
  (∀ v, 0 ≤ v < 2 ^ 32 → ipv4_to_value (value_to_ipv4 v) = Ok v).
Proof.
  split.
  - intros s (v & Hv & _ & Hs)%ipv4_text_round_trip. by exists v.
  - apply ipv4_value_round_trip.
Qed.

(** C6, amended: [ipv4_to_value] succeeds exactly when the text has at least
    four dot-separated fields and [int] accepts each of the first four; it
    fails with IndexError or ValueError otherwise. It checks neither the
    range of an octet nor that there are no more than four fields. On a text
    of exactly four decimal octets of value 0 to 255 it succeeds exactly when
    no octet has more than 4300 digits, leading zeros included, and then with
    a 32-bit value; with a longer octet [int] raises ValueError: an octet of
    4301 zeros is refused, one of 4300 zeros is read as 0. *)
Theorem ipv4_to_value_succeeds_iff (s : string) :
  is_Ok (ipv4_to_value s) = first_four_parse s ∧
  (∀ e, ipv4_to_value s = Raise e → e = IndexError ∨ e = ValueError) ∧
  (dotted_quad decimal_octet s = true →
     is_Ok (ipv4_to_value s) = fields_within_limit s ∧
     (∀ v, ipv4_to_value s = Ok v → 0 ≤ v < 2 ^ 32) ∧
     (∀ e, ipv4_to_value s = Raise e → e = ValueError)) ∧
  ipv4_to_value (rep_char "0" 4301 +:+ ".0.0.0") = Raise ValueError ∧
  ipv4_to_value (rep_char "0" 4300 +:+ ".0.0.0") = Ok 0.
Proof.
  split_and!.
  - unfold first_four_parse. destruct (ipv4_to_value s) as [v|e] eqn:Hv; simpl.
    + apply ipv4_to_value_Ok in Hv
        as (f0 & f1 & f2 & f3 & rest & n0 & n1 & n2 & n3 & -> & -> & -> & -> & -> & _).
      by rewrite !bool_decide_true by eauto.
    + destruct (py_split "." s) as [|f0 [|f1 [|f2 [|f3 rest]]]] eqn:Hs; try done.
      destruct (py_int_opt 10 f0) as [n0|] eqn:H0;
        [|by rewrite (bool_decide_false (is_Some None)) by (by intros [? ?])].
      destruct (py_int_opt 10 f1) as [n1|] eqn:H1;
        [|rewrite (bool_decide_false (is_Some None)) by (by intros [? ?]);
          by rewrite andb_false_r].
      destruct (py_int_opt 10 f2) as [n2|] eqn:H2;
        [|rewrite (bool_decide_false (is_Some None)) by (by intros [? ?]);
          by rewrite andb_false_r].
      destruct (py_int_opt 10 f3) as [n3|] eqn:H3;
        [|rewrite (bool_decide_false (is_Some None)) by (by intros [? ?]);
          by rewrite andb_false_r].
      by rewrite (ipv4_to_value_fields _ _ _ _ _ _ _ _ _ _ Hs H0 H1 H2 H3) in Hv.
  - apply ipv4_to_value_raises.
  - intros Hq. split_and!.
    + destruct (ipv4_to_value s) as [v|e] eqn:Hv; simpl.
      * by destruct (decimal_quad_Ok s v Hq Hv) as [_ ->].
      * by destruct (decimal_quad_raises s e Hq Hv) as [_ ->].
    + intros v Hv. by destruct (decimal_quad_Ok s v Hq Hv).
    + intros e He. by destruct (decimal_quad_raises s e Hq He).
  - by vm_compute.
  - by vm_compute.
Qed.

(** C7, amended: let [int] read the text after the slash as the number [n].
    For 0 <= n <= 32 [get_subnet_mask_value] returns the 32-bit value whose
    top [n] bits are set and whose other bits are clear (0xFFFFFF00 for 24,
    0 for 0, 0xFFFFFFFF for 32). A number outside that range is not refused:
    the mask is built all the same, 2^n - 1 for n > 32 and 0 for n < 0,
    unless one of the two strings ['1' * n] and ['0' * (32 - n)] cannot be
    built: OverflowError when [n] or [32 - n] exceeds the largest index
    2^63 - 1 (as for n = 2^63), MemoryError when one of them exceeds what
    the machine grants (as for n = 2^63 - 1, on every machine). Once [int]
    has read the number there is no other failure. *)
Theorem get_subnet_mask_value_spec (slash field : string) (n : Z) :
  py_split "/" slash !! 1%nat = Some field →
  py_int_opt 10 field = Some n →
  get_subnet_mask_value slash =
    (if (n <? 32 - index_max) || (index_max <? n) then Raise OverflowError
     else if (n <? 32 - max_str_len) || (max_str_len <? n) then Raise MemoryError
     else Ok (mask_of_prefix n)) ∧
  (0 ≤ n ≤ 32 →
     get_subnet_mask_value slash = Ok (mask_of_prefix n) ∧
     0 ≤ mask_of_prefix n < 2 ^ 32 ∧
     ∀ i, 0 ≤ i → Z.testbit (mask_of_prefix n) i = (32 - n <=? i) && (i <? 32)) ∧
  (32 < n → mask_of_prefix n = 2 ^ n - 1) ∧
  (n < 0 → mask_of_prefix n = 0) ∧
  get_subnet_mask_value "/24" = Ok 4294967040 ∧
  get_subnet_mask_value "/0" = Ok 0 ∧
  get_subnet_mask_value "/32" = Ok 4294967295 ∧
  get_subnet_mask_value "/9223372036854775808" = Raise OverflowError ∧
  get_subnet_mask_value "/9223372036854775807" = Raise MemoryError.
Proof.
  intros Hf Hn. split_and!.
  - by apply get_subnet_mask_value_cases with field.
  - intros Hr. split; [|split].
    + by eapply get_subnet_mask_value_field.
    + unfold mask_of_prefix. destruct (Z.ltb_spec n 0); [lia|].
      destruct (Z.leb_spec n 32); [|lia].
      rewrite Z.shiftl_mul_pow2, Z.ones_equiv by lia.
      assert (2 ^ n * 2 ^ (32 - n) = 2 ^ 32) as Hpow
        by (rewrite <- Z.pow_add_r by lia; f_equal; lia).
      assert (0 < 2 ^ n) by (apply Z.pow_pos_nonneg; lia).
      assert (0 < 2 ^ (32 - n)) by (apply Z.pow_pos_nonneg; lia).
      nia.
    + by intros; apply mask_of_prefix_bits.
  - intros Hr. unfold mask_of_prefix. destruct (Z.ltb_spec n 0); [lia|].
    destruct (Z.leb_spec n 32); [lia|]. by rewrite Z.ones_equiv.
  - intros Hr. unfold mask_of_prefix. destruct (Z.ltb_spec n 0); [done|lia].
  - rewrite get_subnet_mask_value_smallest; by vm_compute.
  - rewrite get_subnet_mask_value_smallest; by vm_compute.
  - rewrite get_subnet_mask_value_smallest; by vm_compute.
  - rewrite get_subnet_mask_value_smallest; by vm_compute.
  - rewrite (get_subnet_mask_value_cases _ "9223372036854775807" (2 ^ 63 - 1))
      by (by vm_compute).
    pose proof max_str_len_index as Hmax. unfold index_max in *.
    change ((2 ^ 63 - 1 <? 32 - (2 ^ 63 - 1)) || (2 ^ 63 - 1 <? 2 ^ 63 - 1)) with false.
    cbn iota. destruct (Z.ltb_spec max_str_len (2 ^ 63 - 1)); [|lia].
    by rewrite orb_true_r.
Qed.

End Claims.

(** * The properties at work *)

(** The counterexamples and the instances of the properties, computed on
    [example_machine]. *)
Section ClaimsExamples.

#[local] Existing Instance example_machine.

(** C1, as stated, fails: for the three routers A (10.0.1.1), B (10.0.2.1)
    and C (10.0.3.1) with links A-B of weight 10, B-C of weight 5 and A-C of
    weight 20, and hosts served by A and by C, the result is [A, B, C]: the
    source router is part of it, and it is not [B, C]. *)
Lemma triangle_path_has_source :
  find_router_for_ip triangle "10.0.1.7" = Ok (Some "10.0.1.1") ∧
  find_router_for_ip triangle "10.0.3.9" = Ok (Some "10.0.3.1") ∧
  dijkstras_shortest_path (λ l, l) 3 triangle "10.0.1.7" "10.0.3.9"
  = Some (Ok ["10.0.1.1"; "10.0.2.1"; "10.0.3.1"], triangle).
Proof. by vm_compute. Qed.

Lemma path_from_source_to_destination_witness :
  (∃ path z',
     (∀ fuel, (length triangle ≤ fuel)%nat →
        dijkstras_shortest_path (λ l, l) fuel triangle "10.0.1.7" "10.0.3.9"
        = Some (Ok path, triangle)) ∧
     head path = Some "10.0.1.1" ∧ last path = Some "10.0.3.1" ∧
     is_path triangle "10.0.1.1" "10.0.3.1" path z' ∧
     ∀ nodes' z'', is_path triangle "10.0.1.1" "10.0.3.1" nodes' z'' → z' ≤ z'') ∧
  (∀ fuel, (3 ≤ fuel)%nat →
     dijkstras_shortest_path (λ l, l) fuel triangle "10.0.1.7" "10.0.3.9"
     = Some (Ok ["10.0.1.1"; "10.0.2.1"; "10.0.3.1"], triangle)).
Proof.
  apply (path_from_source_to_destination (λ l, l) triangle "10.0.1.7" "10.0.3.9"
           "10.0.1.1" "10.0.3.1" ["10.0.1.1"; "10.0.3.1"] 20).
  - intros l. reflexivity.
  - vm_compute. reflexivity.
  - vm_compute. reflexivity.
  - vm_compute. reflexivity.
  - discriminate.
  - vm_compute. repeat split. apply list_elem_of_In. simpl. tauto.
Defined.

(** C2, as stated, fails: in a network of four routers with no negative
    weight, where two routers out of reach of the source are linked with
    weight 2^1024, the main loop visits one of the two at distance math.inf
    before the destination and [math.inf + 2**1024] raises OverflowError
    ("int too large to convert to float"): there is no final distance table.
    The set is iterated here in the order of the dictionary, 10.0.0.1,
    10.0.1.1, 10.0.2.1, 10.0.3.1: after the source, the three others are at
    distance math.inf and [min] takes the first of them, 10.0.1.1. *)
Lemma engine_overflow :
  wf_graph heavy_island = true ∧
  fst <$> shortest_path_engine (λ l, l) 4 heavy_island (Some "10.0.0.1") (Some "10.0.3.1")
  = Some (Raise OverflowError) ∧
  ¬ engine_correct (λ l, l) heavy_island "10.0.0.1" "10.0.3.1".
Proof.
  split; [by vm_compute|]. split; [by vm_compute|].
  intros (f & Hrun & _). specialize (Hrun 4%nat (le_n _)).
  vm_compute in Hrun. discriminate Hrun.
Qed.

Lemma engine_distances_correct_witness :
  engine_correct (λ l, l) triangle "10.0.1.1" "10.0.3.1".
Proof.
  apply (engine_distances_correct (λ l, l) triangle "10.0.1.1" "10.0.3.1").
  - intros l. reflexivity.
  - vm_compute. reflexivity.
  - apply list_elem_of_In. simpl. tauto.
  - apply list_elem_of_In. simpl. tauto.
  - left. vm_compute. reflexivity.
Defined.

(** C3, as stated, fails: with routers A and B linked to each other and a
    router C without links, a query from a host of A to a host of C returns
    the list [C], built by the usual walk back from the destination: no
    explicit no-route outcome is reported. *)
Lemma unreachable_returns_list :
  find_router_for_ip two_islands "10.0.1.7" = Ok (Some "10.0.1.1") ∧
  find_router_for_ip two_islands "10.0.3.9" = Ok (Some "10.0.3.1") ∧
  dijkstras_shortest_path (λ l, l) 3 two_islands "10.0.1.7" "10.0.3.9"
  = Some (Ok ["10.0.3.1"], two_islands).
Proof. by vm_compute. Qed.

Lemma two_islands_no_path nodes z :
  ¬ is_path two_islands "10.0.1.1" "10.0.3.1" nodes z.
Proof.
  assert (∀ t nodes z, is_path two_islands "10.0.1.1" t nodes z →
            t = "10.0.1.1" ∨ t = "10.0.2.1") as H.
  { apply (is_path_ind two_islands "10.0.1.1" (λ t _, t = "10.0.1.1" ∨ t = "10.0.2.1")).
    - by left.
    - intros v t d w Hv (info & l & Hi & Hl%dict_get_opt_elem & _)%edge_weight_elim.
      destruct Hv as [-> | ->]; vm_compute in Hi; injection Hi as <-; simpl in Hl;
        apply list_elem_of_singleton in Hl; injection Hl as -> _; auto. }
  intros Hpath. by destruct (H _ _ _ Hpath).
Qed.

Lemma unreachable_destination_alone_witness :
  dijkstras_shortest_path (λ l, l) 3 two_islands "10.0.1.7" "10.0.3.9"
  = Some (Ok ["10.0.3.1"], two_islands) ∧ ["10.0.3.1"] ≠ [].
Proof.
  apply (unreachable_destination_alone (λ l, l) two_islands "10.0.1.7" "10.0.3.9"
           "10.0.1.1" "10.0.3.1").
  - intros l. reflexivity.
  - vm_compute. reflexivity.
  - vm_compute. reflexivity.
  - vm_compute. reflexivity.
  - vm_compute. reflexivity.
  - discriminate.
  - apply two_islands_no_path.
  - simpl. lia.
Defined.

(** C4, as stated, fails: for the three routers of the example, the host
    10.0.9.9 is in no router's subnet; the locator returns None, no error is
    raised, and the search goes on with None as a router: it returns [C] for
    a destination host of C and the empty list when 10.0.9.9 is the
    destination. *)
Lemma unmatched_host_no_error :
  matches_no_router triangle "10.0.9.9" = true ∧
  find_router_for_ip triangle "10.0.9.9" = Ok None ∧
  dijkstras_shortest_path (λ l, l) 3 triangle "10.0.9.9" "10.0.3.9"
  = Some (Ok ["10.0.3.1"], triangle) ∧
  dijkstras_shortest_path (λ l, l) 3 triangle "10.0.1.7" "10.0.9.9"
  = Some (Ok [], triangle).
Proof. by vm_compute. Qed.

Lemma unmatched_host_is_None_witness :
  find_router_for_ip triangle "10.0.9.9" = Ok None ∧
  (∀ src_ip src fuel,
     find_router_for_ip triangle src_ip = Ok src → (length triangle ≤ fuel)%nat →
     dijkstras_shortest_path (λ l, l) fuel triangle src_ip "10.0.9.9"
     = Some (Ok [], triangle)) ∧
  (∀ dest_ip d fuel,
     find_router_for_ip triangle dest_ip = Ok (Some d) → (length triangle ≤ fuel)%nat →
     dijkstras_shortest_path (λ l, l) fuel triangle "10.0.9.9" dest_ip
     = Some (Ok [d], triangle)).
Proof.
  apply (unmatched_host_is_None (λ l, l) triangle "10.0.9.9").
  - intros l. reflexivity.
  - vm_compute. reflexivity.
  - vm_compute. reflexivity.
  - vm_compute. reflexivity.
Defined.

Lemma same_router_empty_path_witness :
  dijkstras_shortest_path (λ l, l) 1 triangle "10.0.1.7" "10.0.1.9"
  = Some (Ok [], triangle).
Proof.
  apply (same_router_empty_path (λ l, l) triangle "10.0.1.7" "10.0.1.9" "10.0.1.1").
  - intros l. reflexivity.
  - vm_compute. reflexivity.
  - vm_compute. reflexivity.
  - lia.
Defined.

(** C10, as stated, fails: two routers with valid addresses link to each
    other with the non-negative weight 2^1024; for two valid host addresses
    that match no router, the first router visited is at distance math.inf
    and the other is still unvisited, so [math.inf + 2**1024] raises
    OverflowError ("int too large to convert to float"). The set is iterated
    here in the order of the dictionary; [overflow_in_every_order] shows the
    same for the other order. *)
Lemma heavy_pair_raises :
  wf_graph heavy_pair = true ∧ wf_addresses heavy_pair = true ∧
  is_Ok (ipv4_to_value "192.168.0.1") = true ∧
  is_Ok (ipv4_to_value "192.168.0.2") = true ∧
  dijkstras_shortest_path (λ l, l) 2 heavy_pair "192.168.0.1" "192.168.0.2"
  = Some (Raise OverflowError, heavy_pair).
Proof. by vm_compute. Qed.

Lemma dijkstras_shortest_path_returns_witness :
  ∃ path, ∀ fuel, (length two_islands ≤ fuel)%nat →
    dijkstras_shortest_path (λ l, l) fuel two_islands "10.0.1.7" "192.168.0.1"
    = Some (Ok path, two_islands).
Proof.
  apply (dijkstras_shortest_path_returns (λ l, l) two_islands "10.0.1.7" "192.168.0.1").
  - intros l. reflexivity.
  - vm_compute. reflexivity.
  - vm_compute. reflexivity.
  - vm_compute. reflexivity.
  - vm_compute. reflexivity.
  - vm_compute. reflexivity.
Defined.

Lemma address_codec_round_trip_witness :
  (∃ v, ipv4_to_value "192.168.0.1" = Ok v ∧ value_to_ipv4 v = "192.168.0.1") ∧
  ipv4_to_value (value_to_ipv4 3232235777) = Ok 3232235777.
Proof.
  split.
  - apply (proj1 address_codec_round_trip "192.168.0.1"). vm_compute. reflexivity.
  - apply (proj2 address_codec_round_trip 3232235777). lia.
Defined.

(** C6, as stated, fails: [ipv4_to_value] accepts the text 256.0.0.0, whose
    first octet is out of range, and the text 1.2.3.4.5, which has five
    fields. *)
Lemma ipv4_to_value_accepts_malformed :
  dotted_quad decimal_octet "256.0.0.0" = false ∧
  ipv4_to_value "256.0.0.0" = Ok 4294967296 ∧
  dotted_quad decimal_octet "1.2.3.4.5" = false ∧
  ipv4_to_value "1.2.3.4.5" = Ok 16909060.
Proof. by vm_compute. Qed.

Lemma ipv4_to_value_succeeds_iff_witness :
  is_Ok (ipv4_to_value "010.0.0.1") = fields_within_limit "010.0.0.1" ∧
  (∀ v, ipv4_to_value "010.0.0.1" = Ok v → 0 ≤ v < 2 ^ 32) ∧
  (∀ e, ipv4_to_value "010.0.0.1" = Raise e → e = ValueError).
Proof.
  apply (proj1 (proj2 (proj2 (ipv4_to_value_succeeds_iff "010.0.0.1")))).
  vm_compute. reflexivity.
Defined.

(** C7, as stated, fails: for the prefix lengths 33 and -1
    [get_subnet_mask_value] raises nothing (on a machine that grants a string
    of 33 characters); it returns 2^33 - 1 and 0. *)
Lemma get_subnet_mask_value_out_of_range :
  get_subnet_mask_value "/33" = Ok 8589934591 ∧
  get_subnet_mask_value "/-1" = Ok 0.
Proof. by vm_compute. Qed.

Lemma get_subnet_mask_value_spec_witness :
  get_subnet_mask_value "10.0.0.0/8" = Ok (mask_of_prefix 8) ∧
  mask_of_prefix 8 = 4278190080.
Proof.
  split; [|reflexivity].
  apply (proj1 (proj2 (get_subnet_mask_value_spec "10.0.0.0/8" "8" 8 eq_refl eq_refl))).
  lia.
Defined.

End ClaimsExamples.

(** * The search on an arbitrary network *)

Section Structure.

Variable routers : list (string * router).

Lemma struct_relax x n l f :
  struct_inv routers f → x ∈ dict_keys routers → x ∉ unvisited f →
  (∃ f', relax x n l f = (Ok tt, f') ∧ unvisited f' = unvisited f ∧
         struct_inv routers f') ∨
  relax x n l f = (Raise OverflowError, f).
Proof.
  intros Hinv Hxk Hxu.
  unfold relax, m_bind, m_get, m_lift, m_put, m_ret.
  case_bool_decide as Hn; [|left; by exists f].
  rewrite (get_distance_Ok f x) by (by apply Hinv).
  destruct (dist_of f x) as [|zx]; cbn [dist_add].
  - destruct (Z.abs (ad l) <? float_overflow); [|by right].
    rewrite (get_distance_Ok f n) by (by apply Hinv, Hinv). cbn [dist_lt].
    left. by exists f.
  - rewrite (get_distance_Ok f n) by (by apply Hinv, Hinv).
    destruct (dist_lt _ _); [|left; by exists f].
    left. eexists. split; [done|]. split; [done|].
    assert (n ≠ x) as Hnx by congruence.
    split; simpl; try apply Hinv.
    + intros v Hv. destruct (decide (v = n)) as [->|Hne].
      * by rewrite lookup_insert_eq.
      * rewrite lookup_insert_ne by congruence. by apply Hinv.
    + intros v Hv. destruct (decide (v = n)) as [->|Hne].
      * by rewrite lookup_insert_eq.
      * rewrite lookup_insert_ne by done. by apply Hinv.
    + intros v p. destruct (decide (v = n)) as [->|Hne].
      * rewrite lookup_insert_eq. by intros [= <-].
      * rewrite lookup_insert_ne by done. apply Hinv.
    + intros v Hv Hvu. destruct (si_chain _ _ Hinv v Hv Hvu) as (c & Hc & Hnd & Hall).
      exists c. split_and!; try done. apply chain_insert; [done|].
      intros Hin. by apply Hall in Hin as [_ ?].
Qed.

Lemma struct_links x : ∀ todo f,
  struct_inv routers f → x ∈ dict_keys routers → x ∉ unvisited f →
  (∃ f', for_items (relax x) todo f = (Ok tt, f') ∧ unvisited f' = unvisited f ∧
         struct_inv routers f') ∨
  (∃ f', for_items (relax x) todo f = (Raise OverflowError, f')).
Proof.
  induction todo as [|[n l] todo IH]; intros f Hinv Hxk Hxu; [left; by exists f|].
  cbn [for_items]. unfold m_bind.
  destruct (struct_relax x n l f Hinv Hxk Hxu) as [(f1 & -> & Hu & Hinv1)| ->].
  - destruct (IH f1 Hinv1 Hxk) as [(f2 & -> & Hu2 & Hinv2)|(f2 & ->)].
    + by rewrite Hu.
    + left. exists f2. split_and!; [done|congruence|done].
    + right. by exists f2.
  - right. by exists f.
Qed.

Lemma struct_iteration dest f :
  struct_inv routers f → unvisited f ≠ [] →
  ∃ out f', iteration dest f = (out, f') ∧
    match out with
    | Ok true => struct_inv routers f' ∧
                 (length (unvisited f') < length (unvisited f))%nat
    | Ok false => f' = f
    | Raise e => e = OverflowError
    end.
Proof.
  intros Hinv Hne.
  destruct (py_min_spec f (unvisited f) Hne) as (x & Hmin & Hx & _).
  { intros y Hy. by apply Hinv, Hinv. }
  unfold iteration. unfold m_bind at 1. unfold m_get at 1.
  unfold m_bind at 1. rewrite Hmin.
  case_bool_decide as Hd; [by exists (Ok false), f|].
  assert (x ∈ dict_keys routers) as Hxk by (by apply Hinv).
  destruct (proj1 (dict_get_opt_key routers x) Hxk) as [info Hinfo].
  unfold m_bind at 1. unfold set_remove. rewrite bool_decide_true by done.
  unfold m_bind at 1. unfold m_get at 1. unfold m_bind at 1. unfold m_lift.
  set (f1 := set_unvisited _ f).
  assert (f_routers f1 = routers) as -> by apply Hinv.
  unfold dict_get. rewrite Hinfo. cbn [or_raise].
  assert (∀ v, v ∈ unvisited f1 ↔ v ≠ x ∧ v ∈ unvisited f) as Hunv1
    by (intros v; unfold f1; simpl; rewrite list_elem_of_filter; done).
  assert (∀ v, v ∉ unvisited f1 → v ≠ x → v ∉ unvisited f) as Hvis1
    by (intros v Hv Hvx Hin; apply Hv, Hunv1; done).
  assert (struct_inv routers f1) as Hinv1.
  { split; try apply Hinv.
    - intros v [_ Hv]%Hunv1. by apply Hinv.
    - intros v p Hp. destruct (si_parent _ _ Hinv v p Hp) as [Hpk Hpu].
      split; [done|]. by intros [_ ?]%Hunv1.
    - intros v Hv Hvu. destruct (decide (v = x)) as [->|Hvx].
      + destruct (si_previous _ _ Hinv x Hxk) as [[p|] Hp].
        * destruct (si_parent _ _ Hinv x p Hp) as [Hpk Hpu].
          destruct (si_chain _ _ Hinv p Hpk Hpu) as (c & Hc & Hnd & Hall).
          exists (x :: c). split_and!.
          -- by apply chain_step with (Some p).
          -- apply NoDup_cons. split; [|done].
             intros Hin. by apply Hall in Hin as [_ ?].
          -- intros y [->|Hy]%elem_of_cons; [done|].
             apply Hall in Hy as [? Hy]. split; [done|]. by intros [_ ?]%Hunv1.
        * exists [x]. split_and!.
          -- apply chain_step with None; [done|constructor].
          -- apply NoDup_singleton.
          -- by intros y ->%list_elem_of_singleton.
      + destruct (si_chain _ _ Hinv v Hv (Hvis1 v Hvu Hvx)) as (c & Hc & Hnd & Hall).
        exists c. split_and!; try done. intros y Hy.
        apply Hall in Hy as [? Hy]. split; [done|]. by intros [_ ?]%Hunv1. }
  assert (x ∉ unvisited f1) as Hxu1 by (by intros [? _]%Hunv1).
  unfold m_bind.
  destruct (struct_links x (connections info) f1 Hinv1 Hxk Hxu1)
    as [(f2 & -> & Hu2 & Hinv2)|(f2 & ->)].
  - exists (Ok true), f2. split; [done|]. split; [done|].
    rewrite Hu2. unfold f1. simpl.
    apply (length_filter_lt _ _ x); [done|]. by intros ?.
  - by exists (Raise OverflowError), f2.
Qed.

Lemma struct_ends dest n : ∀ f,
  (length (unvisited f) ≤ n)%nat → struct_inv routers f →
  ∃ out f',
    (∀ fuel, (n ≤ fuel)%nat → while_unvisited fuel dest f = Some (out, f')) ∧
    match out with
    | Ok _ => struct_inv routers f'
    | Raise e => e = OverflowError
    end.
Proof.
  induction n as [|n IH]; intros f Hlen Hinv.
  - assert (unvisited f = []) as Hnil by (apply length_zero_iff_nil; lia).
    exists (Ok tt), f. split; [|done]. intros. by apply while_unvisited_nil.
  - destruct (unvisited f) as [|y u] eqn:Hu.
    { exists (Ok tt), f. split; [|done]. intros. by apply while_unvisited_nil. }
    destruct (struct_iteration dest f Hinv) as (out & f1 & Hrun & Hout).
    { by rewrite Hu. }
    destruct out as [[]|e].
    + destruct Hout as [Hinv1 Hlt]. rewrite Hu in Hlt.
      destruct (IH f1) as (out' & f' & Hfuel & Hout'); [simpl in *; lia|done|].
      exists out', f'. split; [|done].
      intros [|fuel] Hle; [lia|]. simpl. rewrite Hu, Hrun. apply Hfuel. lia.
    + subst f1. exists (Ok tt), f. split; [|done].
      intros [|fuel] Hle; [lia|]. simpl. by rewrite Hu, Hrun.
    + exists (Raise e), f1. split; [|done].
      intros [|fuel] Hle; [lia|]. simpl. by rewrite Hu, Hrun.
Qed.

Lemma struct_chain f v :
  struct_inv routers f → v ∈ dict_keys routers →
  ∃ c, chain (previous f) (Some v) (v :: c) ∧ NoDup (v :: c) ∧
       (∀ y, y ∈ v :: c → y ∈ dict_keys routers) ∧
       (length (v :: c) ≤ length routers)%nat.
Proof.
  intros Hinv Hv.
  assert (∃ c, chain (previous f) (Some v) c ∧ NoDup c ∧
               ∀ y, y ∈ c → y ∈ dict_keys routers) as (c & Hc & Hnd & Hall).
  { destruct (decide (v ∈ unvisited f)) as [Hvu|Hvu].
    - destruct (si_previous _ _ Hinv v Hv) as [[p|] Hp].
      + destruct (si_parent _ _ Hinv v p Hp) as [Hpk Hpu].
        destruct (si_chain _ _ Hinv p Hpk Hpu) as (c & Hc & Hnd & Hall).
        exists (v :: c). split_and!.
        * by apply chain_step with (Some p).
        * apply NoDup_cons. split; [|done]. intros Hin. by apply Hall in Hin as [_ ?].
        * intros y [->|Hy]%elem_of_cons; [done|]. by apply Hall in Hy as [? _].
      + exists [v]. split_and!.
        * apply chain_step with None; [done|constructor].
        * apply NoDup_singleton.
        * by intros y ->%list_elem_of_singleton.
    - destruct (si_chain _ _ Hinv v Hv Hvu) as (c & Hc & Hnd & Hall).
      exists c. split_and!; try done. intros y Hy. by apply Hall in Hy as [? _]. }
  inversion Hc as [|v' p c' Hp Hc']; subst.
  exists c'. split_and!; try done.
  replace (length routers) with (length (dict_keys routers))
    by (unfold dict_keys; by rewrite length_fmap).
  apply submseteq_length, NoDup_submseteq; done.
Qed.

End Structure.

Section Outcome.

Variable set_order : list string → list string.
Hypothesis set_order_perm : ∀ l, set_order l ≡ₚ l.
Variable routers : list (string * router).

Lemma initial_struct src :
  struct_inv routers (initial_frame set_order routers src).
Proof.
  split.
  - done.
  - by intros x ?%initial_unvisited.
  - intros x Hx. simpl. destruct (decide (src = Some x)) as [->|Hne].
    + by rewrite lookup_insert_eq.
    + rewrite lookup_insert_ne by done. rewrite initial_distances_lookup.
      by rewrite decide_True.
  - intros x Hx. simpl. rewrite initial_previous_lookup. by rewrite decide_True.
  - intros x p. simpl. rewrite initial_previous_lookup. by case_decide.
  - intros x Hx Hxu. exfalso. apply Hxu. by apply initial_unvisited.
Qed.

(** The outcome of [get_shortest_path] for a destination that is a router
    or None, on any network. *)
Lemma get_shortest_path_outcome src dest :
  (∀ d, dest = Some d → d ∈ dict_keys routers) →
  ∃ outcome,
    (∀ fuel, (length routers ≤ fuel)%nat →
       get_shortest_path set_order fuel routers src dest = Some (outcome, routers)) ∧
    match outcome with
    | Ok path =>
        NoDup path ∧ (∀ y, y ∈ path → y ∈ dict_keys routers) ∧
        (length path ≤ length routers)%nat ∧
        (path = [] ↔ dest = None ∨ src = dest) ∧
        (∀ d, dest = Some d → src ≠ dest → last path = Some d)
    | Raise e => e = OverflowError
    end.
Proof.
  intros Hdest.
  destruct (struct_ends routers dest (length routers)
              (initial_frame set_order routers src)) as (out & f & Hrun & Hout).
  { by rewrite initial_unvisited_length. }
  { apply initial_struct. }
  assert (f_routers f = routers) as Hfr.
  { specialize (Hrun (length routers) (le_n _)).
    by apply while_unvisited_routers in Hrun. }
  unfold get_shortest_path, shortest_path_engine.
  destruct out as [[]|e].
  2:{ exists (Raise e). split; [|done]. intros fuel Hfuel.
      by rewrite Hrun, Hfr by done. }
  destruct dest as [d|].
  2:{ exists (Ok []). split.
      - intros fuel Hfuel. rewrite Hrun by done. destruct fuel; simpl; by rewrite Hfr.
      - split_and!; try done; [apply NoDup_nil_2|by intros ? ?%elem_of_nil|simpl; lia|].
        split; auto. }
  destruct (decide (src = Some d)) as [->|Hsd].
  { exists (Ok []). split.
    - intros fuel Hfuel. rewrite Hrun by done. rewrite walk_back_same. by rewrite Hfr.
    - split_and!; try done; [apply NoDup_nil_2|by intros ? ?%elem_of_nil|simpl; lia|].
      split; auto. }
  destruct (struct_chain routers f d Hout (Hdest d eq_refl))
    as (c & Hc & Hnd & Hall & Hlen).
  exists (Ok (rev (d :: c))). split.
  - intros fuel Hfuel. rewrite Hrun by done.
    rewrite (walk_back_chain _ _ _ _ (d :: c) Hc) by (congruence || lia).
    by rewrite Hfr.
  - split_and!.
    + apply NoDup_ListNoDup, List.NoDup_rev, NoDup_ListNoDup, Hnd.
    + intros y Hy. apply Hall. by apply list_elem_of_In, in_rev, list_elem_of_In.
    + by rewrite length_rev.
    + split.
      * intros Hnil. apply (f_equal length) in Hnil. rewrite length_rev in Hnil.
        simpl in Hnil. lia.
      * intros [?|?]; congruence.
    + intros d' [= <-] _. simpl. apply last_snoc.
Qed.

End Outcome.

(** * More on the address codec *)

Lemma octet_of_low_bits v k :
  0 ≤ k ≤ 24 →
  Z.land (Z.shiftr (v mod 2 ^ 32) k) 255 = Z.land (Z.shiftr v k) 255.
Proof.
  intros Hk. apply Z.bits_inj'; intros n Hn.
  rewrite !land_255_testbit, !Z.shiftr_spec by lia.
  destruct (Z.ltb_spec n 8); [|by rewrite !andb_false_r].
  by rewrite Z.mod_pow2_bits_low by lia.
Qed.

Lemma value_to_ipv4_low_bits v : value_to_ipv4 (v mod 2 ^ 32) = value_to_ipv4 v.
Proof. rewrite !value_to_ipv4_unfold. by rewrite !octet_of_low_bits by lia. Qed.

Lemma value_to_ipv4_fields v :
  py_split "." (value_to_ipv4 v)
  = [py_str (Z.land (Z.shiftr v 24) 255); py_str (Z.land (Z.shiftr v 16) 255);
     py_str (Z.land (Z.shiftr v 8) 255); py_str (Z.land (Z.shiftr v 0) 255)].
Proof.
  rewrite value_to_ipv4_unfold. cbn [py_join].
  destruct (py_str_octet_int _ (land_255_octet (Z.shiftr v 24))) as [_ Sa].
  destruct (py_str_octet_int _ (land_255_octet (Z.shiftr v 16))) as [_ Sb].
  destruct (py_str_octet_int _ (land_255_octet (Z.shiftr v 8))) as [_ Sc].
  destruct (py_str_octet_int _ (land_255_octet (Z.shiftr v 0))) as [_ Sd].
  rewrite !py_split_app_sep by done. by rewrite py_split_no_sep.
Qed.

Lemma value_to_ipv4_canonical v : dotted_quad canonical_octet (value_to_ipv4 v) = true.
Proof.
  unfold dotted_quad. rewrite value_to_ipv4_fields.
  by rewrite !(proj1 (py_str_octet _ (land_255_octet _))).
Qed.

Lemma canonical_quad_inj s1 s2 v :
  dotted_quad canonical_octet s1 = true → dotted_quad canonical_octet s2 = true →
  ipv4_to_value s1 = Ok v → ipv4_to_value s2 = Ok v → s1 = s2.
Proof.
  intros (v1 & Hv1 & _ & <-)%ipv4_text_round_trip (v2 & Hv2 & _ & <-)%ipv4_text_round_trip.
  intros H1 H2. congruence.
Qed.

Lemma canonical_quad_decimal s :
  dotted_quad canonical_octet s = true → dotted_quad decimal_octet s = true.
Proof.
  unfold dotted_quad.
  destruct (py_split "." s) as [|f0 [|f1 [|f2 [|f3 [|? ?]]]]]; try done.
  intros [[[H0 H1]%andb_prop H2]%andb_prop H3]%andb_prop.
  by rewrite !canonical_is_decimal.
Qed.

(** * Subnet membership *)

Section Subnet.

Context {mach : machine}.

Lemma ips_same_subnet_Ok ip1 ip2 slash r :
ips_same_subnet ip1 ip2 slash = Ok r ↔
∃ v1 v2 mask, ipv4_to_value ip1 = Ok v1 ∧ ipv4_to_value ip2 = Ok v2 ∧
              get_subnet_mask_value slash = Ok mask ∧
              r = (Z.land v1 mask =? Z.land v2 mask).
Proof.
unfold ips_same_subnet, mbind, result_bind. split.
- destruct (ipv4_to_value ip1) as [v1|]; [|done].
  destruct (ipv4_to_value ip2) as [v2|]; [|done].
  destruct (get_subnet_mask_value slash) as [mask|]; [|done].
  intros [= <-]. by exists v1, v2, mask.
- by intros (v1 & v2 & mask & -> & -> & -> & ->).
Qed.

Lemma get_subnet_mask_value_raises slash e :
get_subnet_mask_value slash = Raise e → expected_exn e = true.
Proof.
destruct (py_split "/" slash !! 1%nat) as [field|] eqn:Hf.
2:{ unfold get_subnet_mask_value. py_unfold. rewrite Hf. by intros [= <-]. }
destruct (py_int_opt 10 field) as [n|] eqn:Hn.
2:{ unfold get_subnet_mask_value. py_unfold. rewrite Hf. cbn [or_raise].
    rewrite Hn. by intros [= <-]. }
rewrite (get_subnet_mask_value_cases _ _ _ Hf Hn).
repeat (destruct (_ || _); [by intros [= <-]|]). done.
Qed.

Lemma ips_same_subnet_raises ip1 ip2 slash e :
ips_same_subnet ip1 ip2 slash = Raise e → expected_exn e = true.
Proof.
unfold ips_same_subnet, mbind, result_bind.
destruct (ipv4_to_value ip1) eqn:H1;
  [|intros [= <-]; by destruct (ipv4_to_value_raises _ _ H1) as [-> | ->]].
destruct (ipv4_to_value ip2) eqn:H2;
  [|intros [= <-]; by destruct (ipv4_to_value_raises _ _ H2) as [-> | ->]].
destruct (get_subnet_mask_value slash) eqn:H3; [done|].
intros [= <-]. by eapply get_subnet_mask_value_raises.
Qed.

End Subnet.

Lemma land_mask_of_prefix v n :
  0 ≤ n ≤ 32 → 0 ≤ v < 2 ^ 32 →
  Z.land v (mask_of_prefix n) = Z.shiftl (Z.shiftr v (32 - n)) (32 - n).
Proof.
  intros Hn Hv. apply Z.bits_inj'; intros i Hi.
  rewrite Z.land_spec, mask_of_prefix_bits by lia.
  destruct (Z.leb_spec (32 - n) i).
  - rewrite Z.shiftl_spec, Z.shiftr_spec by lia.
    replace (i - (32 - n) + (32 - n)) with i by lia. simpl.
    destruct (Z.ltb_spec i 32); [by rewrite andb_true_r|].
    rewrite andb_false_r. symmetry. rewrite <- (Z.mod_small v (2 ^ 32)) by lia.
    apply Z.mod_pow2_bits_high. lia.
  - rewrite Z.shiftl_spec_low by lia. simpl. by rewrite andb_false_r.
Qed.

Lemma shiftl_cancel a b k : 0 ≤ k → Z.shiftl a k = Z.shiftl b k → a = b.
Proof.
  intros Hk H. apply (f_equal (λ x, Z.shiftr x k)) in H.
  by rewrite !Z.shiftr_shiftl_l, Z.sub_diag, !Z.shiftl_0_r in H by lia.
Qed.

Lemma same_prefix_bits v1 v2 n :
  0 ≤ n ≤ 32 → 0 ≤ v1 < 2 ^ 32 → 0 ≤ v2 < 2 ^ 32 →
  (Z.land v1 (mask_of_prefix n) =? Z.land v2 (mask_of_prefix n))
  = (Z.shiftr v1 (32 - n) =? Z.shiftr v2 (32 - n)).
Proof.
  intros Hn H1 H2. rewrite !land_mask_of_prefix by done.
  destruct (Z.eqb_spec (Z.shiftr v1 (32 - n)) (Z.shiftr v2 (32 - n))) as [->|Hne].
  - apply Z.eqb_refl.
  - apply Z.eqb_neq. intros Heq. apply Hne. eapply shiftl_cancel; [|done]. lia.
Qed.

Lemma mask_of_prefix_low n : n ≤ 0 → mask_of_prefix n = 0.
Proof.
  intros Hn. unfold mask_of_prefix. destruct (Z.ltb_spec n 0); [done|].
  assert (n = 0) as -> by lia. done.
Qed.

Lemma land_mask_of_prefix_high v n :
  32 ≤ n → 0 ≤ v < 2 ^ 32 → Z.land v (mask_of_prefix n) = v.
Proof.
  intros Hn Hv. unfold mask_of_prefix.
  destruct (Z.ltb_spec n 0); [lia|]. destruct (Z.leb_spec n 32).
  - assert (n = 32) as -> by lia. change (Z.shiftl (Z.ones 32) (32 - 32)) with (Z.ones 32).
    rewrite Z.land_ones by lia. by apply Z.mod_small.
  - rewrite Z.land_ones by lia. apply Z.mod_small. split; [lia|].
    apply Z.lt_le_trans with (2 ^ 32); [lia|]. apply Z.pow_le_mono_r; lia.
Qed.

Section Slash.

Context {mach : machine}.

Lemma get_subnet_mask_value_prefix a rest :
no_sep "/" a = true →
get_subnet_mask_value (a +:+ String "/" rest) = get_subnet_mask_value (String "/" rest).
Proof.
intros Ha. unfold get_subnet_mask_value.
rewrite (py_split_app "/" a rest Ha).
change (String "/" rest) with (EmptyString +:+ String "/" rest).
by rewrite (py_split_app "/" EmptyString rest eq_refl).
Qed.

Lemma get_subnet_mask_value_no_slash s :
no_sep "/" s = true → get_subnet_mask_value s = Raise IndexError.
Proof.
intros Hs. unfold get_subnet_mask_value. by rewrite (py_split_no_sep _ _ Hs).
Qed.

End Slash.

Lemma land_mask_low_bits v n :
  0 ≤ n ≤ 32 → Z.land (v mod 2 ^ 32) (mask_of_prefix n) = Z.land v (mask_of_prefix n).
Proof.
  intros Hn. apply Z.bits_inj'; intros i Hi.
  rewrite !Z.land_spec, mask_of_prefix_bits by lia.
  destruct (Z.ltb_spec i 32).
  - by rewrite Z.mod_pow2_bits_low by lia.
  - by rewrite !andb_false_r.
Qed.

(** * More on the router locator *)

Section LocatorMore.

Context {mach : machine}.

Lemma find_router_loop_step routers ip k keys info :
dict_get_opt routers k = Some info →
find_router_loop routers ip (k :: keys)
= match ips_same_subnet ip k (netmask info) with
  | Ok true => Ok (Some k)
  | Ok false => find_router_loop routers ip keys
  | Raise e => Raise e
  end.
Proof.
intros Hinfo. cbn [find_router_loop]. unfold dict_get. rewrite Hinfo.
unfold mbind, result_bind. cbn [or_raise].
by destruct (ips_same_subnet ip k (netmask info)) as [[]|].
Qed.

Lemma find_router_loop_first routers ip keys o :
(∀ k, k ∈ keys → k ∈ dict_keys routers) →
find_router_loop routers ip keys = Ok o ↔
match o with
| Some r => ∃ pre post, keys = pre ++ r :: post ∧ serves routers ip r true ∧
                        ∀ k, k ∈ pre → serves routers ip k false
| None => ∀ k, k ∈ keys → serves routers ip k false
end.
Proof.
induction keys as [|k keys IH]; intros Hsub.
- simpl. split.
  + intros [= <-]. by intros k ?%elem_of_nil.
  + destruct o as [r|]; [|done]. intros (pre & post & Heq & _). by destruct pre.
- destruct (proj1 (dict_get_opt_key routers k)) as [info Hinfo]; [apply Hsub; left|].
  assert (∀ k', k' ∈ keys → k' ∈ dict_keys routers) as Hsub'
    by (intros; apply Hsub; by right).
  rewrite (find_router_loop_step _ _ _ _ _ Hinfo). specialize (IH Hsub').
  destruct (ips_same_subnet ip k (netmask info)) as [[]|e] eqn:Hk.
  + split.
    * intros [= <-]. exists [], keys. split_and!; [done|by exists info|].
      by intros ? ?%elem_of_nil.
    * destruct o as [r|].
      -- intros (pre & post & Heq & Hr & Hpre). destruct pre as [|k' pre].
         ++ simpl in Heq. by injection Heq as ->.
         ++ simpl in Heq. injection Heq as <- _.
            destruct (Hpre k) as (info' & Hi & Hf); [left|]. congruence.
      -- intros Hall. destruct (Hall k) as (info' & Hi & Hf); [left|]. congruence.
  + rewrite IH. destruct o as [r|].
    * split.
      -- intros (pre & post & -> & Hr & Hpre). exists (k :: pre), post.
         split_and!; [done|done|].
         intros k' [->|Hk']%elem_of_cons; [by exists info|by apply Hpre].
      -- intros (pre & post & Heq & Hr & Hpre). destruct pre as [|k' pre].
         ++ simpl in Heq. injection Heq as -> _.
            destruct Hr as (info' & Hi & Hf). congruence.
         ++ simpl in Heq. injection Heq as <- ->. exists pre, post.
            split_and!; [done|done|]. intros; apply Hpre; by right.
    * split.
      -- intros Hall k' [->|Hk']%elem_of_cons; [by exists info|by apply Hall].
      -- intros Hall k' Hk'. apply Hall. by right.
  + split; [done|]. destruct o as [r|].
    * intros (pre & post & Heq & Hr & Hpre). destruct pre as [|k' pre].
      -- simpl in Heq. injection Heq as -> _.
         destruct Hr as (info' & Hi & Hf). congruence.
      -- simpl in Heq. injection Heq as <- _.
         destruct (Hpre k) as (info' & Hi & Hf); [left|]. congruence.
    * intros Hall. destruct (Hall k) as (info' & Hi & Hf); [left|]. congruence.
Qed.

Lemma find_router_loop_raises routers ip keys e :
(∀ k, k ∈ keys → k ∈ dict_keys routers) →
find_router_loop routers ip keys = Raise e → expected_exn e = true.
Proof.
induction keys as [|k keys IH]; intros Hsub; [done|].
destruct (proj1 (dict_get_opt_key routers k)) as [info Hinfo]; [apply Hsub; left|].
rewrite (find_router_loop_step _ _ _ _ _ Hinfo).
destruct (ips_same_subnet ip k (netmask info)) as [[]|e'] eqn:Hk; [done| |].
- apply IH. intros; apply Hsub; by right.
- intros [= <-]. by eapply ips_same_subnet_raises.
Qed.

Lemma find_router_for_ip_raises routers ip e :
find_router_for_ip routers ip = Raise e → expected_exn e = true.
Proof. by apply find_router_loop_raises. Qed.

Lemma find_router_for_ip_bad_host routers ip e :
routers ≠ [] → ipv4_to_value ip = Raise e → find_router_for_ip routers ip = Raise e.
Proof.
intros Hne Hip. destruct routers as [|[k info] rest]; [done|].
unfold find_router_for_ip, dict_keys. cbn [fmap list_fmap fst].
rewrite (find_router_loop_step _ _ _ _ info).
- unfold ips_same_subnet, mbind, result_bind. by rewrite Hip.
- simpl. by rewrite String.eqb_refl.
Qed.

(** * The caller's dictionary, for the whole program *)

Lemma dijkstras_shortest_path_frame set_order fuel routers src_ip dest_ip r routers' :
dijkstras_shortest_path set_order fuel routers src_ip dest_ip = Some (r, routers') →
routers' = routers.
Proof.
unfold dijkstras_shortest_path. intros Hrun.
destruct (find_router_for_ip routers src_ip) as [src|e]; [|by injection Hrun].
destruct (find_router_for_ip routers dest_ip) as [dest|e]; [|by injection Hrun].
unfold get_shortest_path, shortest_path_engine in Hrun.
destruct (while_unvisited _ _ _) as [[r' f]|] eqn:Hloop; [|done].
apply while_unvisited_routers in Hloop. simpl in Hloop.
destruct r' as [[]|e].
- destruct (walk_back _ _ _ _ _ _) as [[path|e]|]; [| |done];
    injection Hrun as _ <-; done.
- by injection Hrun as _ <-.
Qed.

End LocatorMore.

(** * The whole program on an arbitrary network *)

Section Program.

Context {mach : machine}.
Variable set_order : list string → list string.
Hypothesis set_order_perm : ∀ l, set_order l ≡ₚ l.
Variable routers : list (string * router).

Lemma dijkstras_shortest_path_outcome src_ip dest_ip :
  ∃ outcome,
    (∀ fuel, (length routers ≤ fuel)%nat →
       dijkstras_shortest_path set_order fuel routers src_ip dest_ip
       = Some (outcome, routers)) ∧
    match outcome with
    | Ok path =>
        ∃ src dest,
          find_router_for_ip routers src_ip = Ok src ∧
          find_router_for_ip routers dest_ip = Ok dest ∧
          NoDup path ∧ (∀ y, y ∈ path → y ∈ dict_keys routers) ∧
          (length path ≤ length routers)%nat ∧
          (path = [] ↔ dest = None ∨ src = dest) ∧
          (∀ d, dest = Some d → src ≠ dest → last path = Some d)
    | Raise e => expected_exn e = true
    end.
Proof.
  unfold dijkstras_shortest_path.
  destruct (find_router_for_ip routers src_ip) as [src|e] eqn:Hsrc.
  2:{ exists (Raise e). split; [done|]. by eapply find_router_for_ip_raises. }
  destruct (find_router_for_ip routers dest_ip) as [dest|e] eqn:Hdest.
  2:{ exists (Raise e). split; [done|]. by eapply find_router_for_ip_raises. }
  destruct (get_shortest_path_outcome set_order set_order_perm routers src dest)
    as (outcome & Hrun & Hout).
  { intros d ->. by eapply find_router_for_ip_key. }
  exists outcome. split; [done|]. destruct outcome as [path|e].
  - by exists src, dest.
  - by subst e.
Qed.

(** The shortest route between two distinct routers joined by a path. *)
Lemma shortest_route src_ip dest_ip s d nodes z :
  wf_graph routers = true →
  find_router_for_ip routers src_ip = Ok (Some s) →
  find_router_for_ip routers dest_ip = Ok (Some d) →
  s ≠ d → is_path routers s d nodes z →
  ∃ path z',
    (∀ fuel, (length routers ≤ fuel)%nat →
       dijkstras_shortest_path set_order fuel routers src_ip dest_ip
       = Some (Ok path, routers)) ∧
    is_path routers s d path z' ∧
    ∀ nodes' z'', is_path routers s d nodes' z'' → z' ≤ z''.
Proof.
  intros Hwf Hsrc Hdest Hsd Hpath.
  pose proof (find_router_for_ip_key _ _ _ Hsrc) as Hs.
  pose proof (find_router_for_ip_key _ _ _ Hdest) as Hd.
  destruct (get_shortest_path_chain set_order set_order_perm routers s d Hwf Hs Hd Hsd)
    as (f & c & Hinv & Hend & Hc & Hrun).
  { right. by exists d, nodes, z. }
  pose proof (engine_distance routers s (Some d) Hwf f d Hinv Hend Hd (or_intror eq_refl))
    as Hdist.
  destruct (dist_of f d) as [|z'] eqn:Hz; simpl in Hdist; [by apply Hdist in Hpath|].
  destruct Hdist as [_ Hmin].
  pose proof (chain_path routers s (Some d) f c d z' Hinv Hc Hd Hz) as Hp.
  exists (rev c), z'. split_and!; try done.
  intros fuel Hfuel. unfold dijkstras_shortest_path. rewrite Hsrc, Hdest.
  by apply Hrun.
Qed.

(** Between two distinct routers: a shortest route, or the destination
    alone when there is no path. *)
Lemma route_or_no_route src_ip dest_ip s d :
  wf_graph routers = true → weights_bounded routers = true →
  find_router_for_ip routers src_ip = Ok (Some s) →
  find_router_for_ip routers dest_ip = Ok (Some d) →
  s ≠ d →
  ∃ path,
    (∀ fuel, (length routers ≤ fuel)%nat →
       dijkstras_shortest_path set_order fuel routers src_ip dest_ip
       = Some (Ok path, routers)) ∧
    ((∃ z, is_path routers s d path z) ∨
     (path = [d] ∧ ∀ nodes z, ¬ is_path routers s d nodes z)).
Proof.
  intros Hwf Hb Hsrc Hdest Hsd.
  pose proof (find_router_for_ip_key _ _ _ Hsrc) as Hs.
  pose proof (find_router_for_ip_key _ _ _ Hdest) as Hd.
  destruct (get_shortest_path_chain set_order set_order_perm routers s d Hwf Hs Hd Hsd)
    as (f & c & Hinv & Hend & Hc & Hrun); [by left|].
  pose proof (engine_distance routers s (Some d) Hwf f d Hinv Hend Hd (or_intror eq_refl))
    as Hdist.
  exists (rev c). split.
  { intros fuel Hfuel. unfold dijkstras_shortest_path. rewrite Hsrc, Hdest.
    by apply Hrun. }
  destruct (dist_of f d) as [|z'] eqn:Hz; simpl in Hdist.
  - right. split; [|done].
    pose proof (inv_inf _ _ _ _ _ Hinv d Hd Hz) as Hp.
    assert (c = [d]) as ->; [|done].
    eapply chain_functional; [done|]. apply chain_step with None; [done|constructor].
  - left. exists z'. by apply (chain_path routers s (Some d) f c d z').
Qed.

(** * The batch of queries *)

Lemma find_routes_spec fuel pairs : ∀ out,
  (length routers ≤ fuel)%nat →
  ∃ r lines,
    find_routes set_order fuel routers pairs out = Some (r, routers, out ++ lines) ∧
    Forall2 (printed set_order fuel routers) (take (length lines) pairs) lines ∧
    match r with
    | Ok _ => length lines = length pairs
    | Raise e =>
        ∃ a b, pairs !! length lines = Some (a, b) ∧
               dijkstras_shortest_path set_order fuel routers a b
               = Some (Raise e, routers)
    end.
Proof.
  induction pairs as [|[a b] pairs IH]; intros out Hfuel.
  - exists (Ok tt), []. rewrite app_nil_r. split_and!; [done|constructor|done].
  - cbn [find_routes].
    destruct (dijkstras_shortest_path_outcome a b) as (outcome & Hrun & _).
    rewrite Hrun by done. destruct outcome as [path|e].
    + destruct (IH (out ++ [route_line a b path]) Hfuel) as (r & lines & Hfr & Hall & Hr).
      exists r, (route_line a b path :: lines).
      rewrite <- app_assoc in Hfr. split_and!; [done| |].
      * cbn [length take]. constructor; [|done]. exists path. split; [|done].
        by apply Hrun.
      * destruct r; [simpl; by f_equal|done].
    + exists (Raise e), []. rewrite app_nil_r. split_and!; [done|constructor|].
      exists a, b. split; [done|]. by apply Hrun.
Qed.

End Program.

(** * The printed lines *)

Lemma rep_char_length c n : String.length (rep_char c n) = n.
Proof. induction n as [|n IH]; simpl; congruence. Qed.

Lemma string_length_app a b :
  String.length (a +:+ b) = (String.length a + String.length b)%nat.
Proof.
  induction a as [|c a IH]; [done|].
  change (String c a +:+ b) with (String c (a +:+ b)). simpl. by rewrite IH.
Qed.

Lemma string_app_assoc a b c : (a +:+ b) +:+ c = a +:+ (b +:+ c).
Proof.
  induction a as [|x a IH]; [done|].
  change (String x a +:+ b) with (String x (a +:+ b)).
  change (String x (a +:+ b) +:+ c) with (String x ((a +:+ b) +:+ c)).
  by rewrite IH.
Qed.

Lemma plain_text_app a b : plain_text (a +:+ b) = plain_text a && plain_text b.
Proof.
  induction a as [|c a IH]; [done|].
  change (String c a +:+ b) with (String c (a +:+ b)). cbn [plain_text].
  rewrite IH. by rewrite andb_assoc.
Qed.

Lemma all_digits_plain p : all_digits p = true → plain_text p = true.
Proof.
  induction p as [|c p IH]; simpl; [done|].
  intros [-> Hp]%andb_prop. simpl. by apply IH.
Qed.

Lemma octet_lengths_checked :
  forallb (λ o, (1 <=? String.length (py_str o))%nat && (String.length (py_str o) <=? 3)%nat)
          (seqZ 0 256) = true.
Proof. by vm_compute. Qed.

Lemma canonical_octet_shape p :
  canonical_octet p = true →
  plain_text p = true ∧ (1 ≤ String.length p ≤ 3)%nat.
Proof.
  intros Hc. split.
  - apply all_digits_plain. apply canonical_is_decimal in Hc.
    unfold decimal_octet in Hc. destruct p; [done|]. by apply andb_prop in Hc as [? _].
  - pose proof (canonical_octet_str p Hc) as Hstr.
    pose proof (decimal_octet_bounds p (canonical_is_decimal p Hc)) as Hb.
    pose proof octet_lengths_checked as H. rewrite forallb_forall in H.
    assert (In (decimal_value p 0) (seqZ 0 256)) as Hin
      by (apply list_elem_of_In, elem_of_seqZ; lia).
    apply H in Hin. rewrite Hstr in Hin.
    apply andb_prop in Hin as [H1 H2].
    apply Nat.leb_le in H1, H2. lia.
Qed.

Lemma canonical_quad_shape s :
  dotted_quad canonical_octet s = true →
  plain_text s = true ∧ (7 ≤ String.length s ≤ 15)%nat.
Proof.
  unfold dotted_quad. intros H. pose proof (py_join_split "." s) as Hjoin.
  destruct (py_split "." s) as [|f0 [|f1 [|f2 [|f3 [|? ?]]]]]; try done.
  apply andb_prop in H as [[[H0 H1]%andb_prop H2]%andb_prop H3].
  destruct (canonical_octet_shape _ H0) as [P0 L0].
  destruct (canonical_octet_shape _ H1) as [P1 L1].
  destruct (canonical_octet_shape _ H2) as [P2 L2].
  destruct (canonical_octet_shape _ H3) as [P3 L3].
  cbn [py_join] in Hjoin. rewrite <- Hjoin. split.
  - rewrite !plain_text_app, P0, P1, P2, P3. done.
  - rewrite !string_length_app. simpl. lia.
Qed.

Lemma repr_chars_plain s :
  plain_text s = true →
  repr_chars single_quote s = s ∧
  contains_char single_quote s = false.
Proof.
  induction s as [|c s IH]; [done|]. cbn [plain_text repr_chars contains_char].
  intros [Hc Hs]%andb_prop. destruct (IH Hs) as [-> ->].
  assert (repr_char single_quote c = String c EmptyString ∧
          Ascii.eqb c single_quote = false) as [-> ->]; [|done].
  apply orb_prop in Hc as [Hd|Hdot].
  - apply is_digit_cases in Hd.
    repeat (apply elem_of_cons in Hd as [->|Hd]; [by vm_compute|]).
    by apply elem_of_nil in Hd.
  - apply Ascii.eqb_eq in Hdot as ->. by vm_compute.
Qed.

Lemma py_repr_str_plain s : plain_text s = true → py_repr_str s = quoted s.
Proof.
  intros Hs. destruct (repr_chars_plain s Hs) as [Hr Hc].
  unfold py_repr_str, quoted. rewrite Hc. cbn [andb]. by rewrite Hr.
Qed.

Lemma format_right_length s :
  (String.length s ≤ 15)%nat → String.length (format_right 15 s) = 15%nat.
Proof.
  intros Hs. unfold format_right. rewrite string_length_app, rep_char_length. lia.
Qed.

Lemma format_left_length s :
  (String.length s ≤ 15)%nat → String.length (format_left 15 s) = 15%nat.
Proof.
  intros Hs. unfold format_left. rewrite string_length_app, rep_char_length. lia.
Qed.

(** * Further properties of the program *)

(** They hold on every machine. *)
Section Further.

Context {mach : machine}.

(** X1: [value_to_ipv4] accepts every integer, negative or wider than 32
    bits: it always writes a canonical dotted quad, and that text reads back
    as the low 32 bits of the integer. *)
Theorem value_to_ipv4_any_integer (v : Z) :
  dotted_quad canonical_octet (value_to_ipv4 v) = true ∧
  ipv4_to_value (value_to_ipv4 v) = Ok (v mod 2 ^ 32).
Proof.
  split; [apply value_to_ipv4_canonical|].
  rewrite <- value_to_ipv4_low_bits. apply ipv4_value_round_trip.
  apply Z.mod_pos_bound. lia.
Qed.

(** X2: two canonical dotted quads with the same value are the same text:
    [ipv4_to_value] is injective on canonical addresses. *)
Theorem canonical_addresses_distinct (s1 s2 : string) :
  dotted_quad canonical_octet s1 = true →
  dotted_quad canonical_octet s2 = true →
  ipv4_to_value s1 = ipv4_to_value s2 →
  s1 = s2.
Proof.
  intros H1 H2 Heq.
  destruct (ipv4_text_round_trip s1 H1) as (v & Hv & _).
  eapply canonical_quad_inj; try done. by rewrite <- Heq.
Qed.

(** X3: when it raises nothing, [ips_same_subnet] is an equivalence on
    addresses for a given slash notation: an address that parses is in its
    own subnet, the answer does not depend on the order of the two addresses,
    and two addresses in the subnet of a third are in the same subnet. *)
Theorem ips_same_subnet_equivalence (ip1 ip2 ip3 slash : string) :
  (is_Ok (ipv4_to_value ip1) = true → is_Ok (get_subnet_mask_value slash) = true →
   ips_same_subnet ip1 ip1 slash = Ok true) ∧
  (∀ r, ips_same_subnet ip1 ip2 slash = Ok r → ips_same_subnet ip2 ip1 slash = Ok r) ∧
  (ips_same_subnet ip1 ip2 slash = Ok true → ips_same_subnet ip2 ip3 slash = Ok true →
   ips_same_subnet ip1 ip3 slash = Ok true).
Proof.
  split_and!.
  - intros [v Hv]%is_Ok_true [m Hm]%is_Ok_true. apply ips_same_subnet_Ok.
    exists v, v, m. by rewrite Z.eqb_refl.
  - intros r (v1 & v2 & m & H1 & H2 & Hm & ->)%ips_same_subnet_Ok.
    apply ips_same_subnet_Ok. exists v2, v1, m. split_and!; try done. apply Z.eqb_sym.
  - intros (v1 & v2 & m & H1 & H2 & Hm & He)%ips_same_subnet_Ok
           (v2' & v3 & m' & H2' & H3 & Hm' & He')%ips_same_subnet_Ok.
    apply ips_same_subnet_Ok. exists v1, v3, m. split_and!; try done.
    assert (v2' = v2) as -> by congruence. assert (m' = m) as -> by congruence.
    symmetry in He, He'. apply Z.eqb_eq in He, He'. symmetry. apply Z.eqb_eq. congruence.
Qed.

(** X4: for a prefix length [n] between 0 and 32 and two addresses made of
    four decimal octets that [ipv4_to_value] reads, [ips_same_subnet] answers
    whether the top [n] bits of the two 32-bit values agree. *)
Theorem same_subnet_iff_same_prefix (ip1 ip2 slash field : string) (n v1 v2 : Z) :
  py_split "/" slash !! 1%nat = Some field →
  py_int_opt 10 field = Some n →
  0 ≤ n ≤ 32 →
  dotted_quad decimal_octet ip1 = true →
  dotted_quad decimal_octet ip2 = true →
  ipv4_to_value ip1 = Ok v1 →
  ipv4_to_value ip2 = Ok v2 →
  ips_same_subnet ip1 ip2 slash
  = Ok (Z.shiftr v1 (32 - n) =? Z.shiftr v2 (32 - n)).
Proof.
  intros Hf Hn Hr Hq1 Hq2 H1 H2.
  destruct (decimal_quad_Ok _ _ Hq1 H1) as [B1 _].
  destruct (decimal_quad_Ok _ _ Hq2 H2) as [B2 _].
  apply ips_same_subnet_Ok.
  exists v1, v2, (mask_of_prefix n). split_and!; try done.
  - by eapply get_subnet_mask_value_field.
  - symmetry. by apply same_prefix_bits.
Qed.

(** X5: subnets are nested: two addresses of four decimal octets that are
    in the same subnet for a prefix length [n] are in the same subnet for
    every shorter prefix length [m] (0 <= m <= n <= 32). *)
Theorem same_subnet_nested (ip1 ip2 slash_n field_n slash_m field_m : string) (n m : Z) :
  py_split "/" slash_n !! 1%nat = Some field_n → py_int_opt 10 field_n = Some n →
  py_split "/" slash_m !! 1%nat = Some field_m → py_int_opt 10 field_m = Some m →
  0 ≤ m ≤ n → n ≤ 32 →
  dotted_quad decimal_octet ip1 = true →
  dotted_quad decimal_octet ip2 = true →
  ips_same_subnet ip1 ip2 slash_n = Ok true →
  ips_same_subnet ip1 ip2 slash_m = Ok true.
Proof.
  intros Hfn Hn Hfm Hm Hmn Hn32 Hq1 Hq2 Hsame.
  apply ips_same_subnet_Ok in Hsame as (v1 & v2 & mask & H1 & H2 & Hmask & He).
  destruct (decimal_quad_Ok _ _ Hq1 H1) as [B1 _].
  destruct (decimal_quad_Ok _ _ Hq2 H2) as [B2 _].
  rewrite (get_subnet_mask_value_field _ _ _ Hfn Hn) in Hmask by lia.
  injection Hmask as <-.
  rewrite same_prefix_bits in He by (done || lia). symmetry in He. apply Z.eqb_eq in He.
  apply ips_same_subnet_Ok. exists v1, v2, (mask_of_prefix m). split_and!; try done.
  - eapply get_subnet_mask_value_field; [done..|lia].
  - rewrite same_prefix_bits by (done || lia). symmetry. apply Z.eqb_eq.
    replace (32 - m) with ((32 - n) + (n - m)) by lia.
    rewrite <- !Z.shiftr_shiftr by lia. by rewrite He.
Qed.

(** X6: the prefix lengths at and beyond the ends of the range, when the
    mask is computed (the two strings that make it can be built). With a
    prefix length of 0 or less, any two addresses that parse are in the same
    subnet; with a prefix length of 32 or more, two canonical addresses are
    in the same subnet exactly when they are the same text. *)
Theorem same_subnet_edge_prefixes (ip1 ip2 slash field : string) (n : Z) :
  py_split "/" slash !! 1%nat = Some field →
  py_int_opt 10 field = Some n →
  is_Ok (get_subnet_mask_value slash) = true →
  (n ≤ 0 → is_Ok (ipv4_to_value ip1) = true → is_Ok (ipv4_to_value ip2) = true →
   ips_same_subnet ip1 ip2 slash = Ok true) ∧
  (32 ≤ n → dotted_quad canonical_octet ip1 = true →
   dotted_quad canonical_octet ip2 = true →
   ips_same_subnet ip1 ip2 slash = Ok (bool_decide (ip1 = ip2))).
Proof.
  intros Hf Hn [mask Hmask]%is_Ok_true.
  assert (mask = mask_of_prefix n) as ->.
  { apply get_subnet_mask_value_Ok in Hmask as (field' & n' & Hf' & Hn' & ->).
    congruence. }
  split.
  - intros Hn0 [v1 H1]%is_Ok_true [v2 H2]%is_Ok_true. apply ips_same_subnet_Ok.
    exists v1, v2, (mask_of_prefix n). split_and!; try done.
    by rewrite mask_of_prefix_low, !Z.land_0_r.
  - intros Hn32 Hc1 Hc2.
    destruct (ipv4_text_round_trip ip1 Hc1) as (v1 & H1 & B1 & _).
    destruct (ipv4_text_round_trip ip2 Hc2) as (v2 & H2 & B2 & _).
    apply ips_same_subnet_Ok. exists v1, v2, (mask_of_prefix n). split_and!; try done.
    rewrite !land_mask_of_prefix_high by done.
    case_bool_decide as Heq.
    + subst ip2. assert (v2 = v1) as -> by congruence. symmetry. apply Z.eqb_refl.
    + symmetry. apply Z.eqb_neq. intros ->. apply Heq. by eapply canonical_quad_inj.
Qed.

(** X7: [get_subnet_mask_value] discards what comes before the slash: an
    address in front of the slash does not change the mask; a text without a
    slash raises IndexError. *)
Theorem get_subnet_mask_value_slash (a rest : string) :
  no_sep "/" a = true →
  get_subnet_mask_value (a +:+ String "/" rest) = get_subnet_mask_value (String "/" rest) ∧
  get_subnet_mask_value a = Raise IndexError.
Proof.
  intros Ha. split; [by apply get_subnet_mask_value_prefix|].
  by apply get_subnet_mask_value_no_slash.
Qed.

(** X8: [find_router_for_ip] returns the first router, in the order of the
    dictionary, whose subnet test succeeds, all the tests before it having
    answered False; it returns None exactly when the test of every router
    answers False. *)
Theorem find_router_for_ip_first_match
    (routers : list (string * router)) (ip : string) (o : option string) :
  find_router_for_ip routers ip = Ok o ↔
  match o with
  | Some r =>
      ∃ pre post, dict_keys routers = pre ++ r :: post ∧ serves routers ip r true ∧
                  ∀ k, k ∈ pre → serves routers ip k false
  | None => ∀ k, k ∈ dict_keys routers → serves routers ip k false
  end.
Proof. by apply find_router_loop_first. Qed.

(** X9: on a network that is not empty, a host address that [ipv4_to_value]
    rejects makes the locator raise that same exception, and the program
    raises it before any search, leaving the dictionary as it was: at once
    for the source host, and for the destination host once the source host
    is located. *)
Theorem malformed_host_raises
    (routers : list (string * router)) (ip : string) (e : exn) :
  routers ≠ [] →
  ipv4_to_value ip = Raise e →
  find_router_for_ip routers ip = Raise e ∧
  (∀ set_order fuel dest_ip,
     dijkstras_shortest_path set_order fuel routers ip dest_ip
     = Some (Raise e, routers)) ∧
  (∀ set_order fuel src_ip src,
     find_router_for_ip routers src_ip = Ok src →
     dijkstras_shortest_path set_order fuel routers src_ip ip
     = Some (Raise e, routers)).
Proof.
  intros Hne Hip. pose proof (find_router_for_ip_bad_host _ _ _ Hne Hip) as Hbad.
  split_and!; [done|..].
  - intros. unfold dijkstras_shortest_path. by rewrite Hbad.
  - intros set_order fuel src_ip src Hsrc. unfold dijkstras_shortest_path.
    by rewrite Hsrc, Hbad.
Qed.

(** X10: on the empty network the program returns the empty list for every
    pair of host addresses, without parsing them: malformed addresses raise
    nothing there. *)
Theorem empty_network_empty_path
    (set_order : list string → list string) (fuel : nat) (src_ip dest_ip : string) :
  (∀ l, set_order l ≡ₚ l) →
  dijkstras_shortest_path set_order fuel [] src_ip dest_ip = Some (Ok [], []).
Proof.
  intros Hperm. unfold dijkstras_shortest_path, get_shortest_path, shortest_path_engine.
  cbn [find_router_for_ip find_router_loop dict_keys fmap list_fmap].
  rewrite while_unvisited_nil.
  - by rewrite walk_back_None.
  - simpl. apply Permutation_nil_r. by rewrite Hperm.
Qed.

(** X11: in a network whose router addresses and netmasks parse, the address
    of every router is served by some router: the locator never answers None
    for it. *)
Theorem router_address_is_served (routers : list (string * router)) (r : string) :
  wf_addresses routers = true →
  r ∈ dict_keys routers →
  ∃ r', find_router_for_ip routers r = Ok (Some r') ∧ serves routers r r' true.
Proof.
  intros Hwf Hr.
  destruct (proj1 (dict_get_opt_key routers r) Hr) as [info Hinfo].
  assert (serves routers r r true) as Hself.
  { exists info. split; [done|]. unfold wf_addresses in Hwf.
    rewrite forallb_forall in Hwf.
    pose proof (dict_get_opt_elem _ _ _ Hinfo) as Hin.
    apply list_elem_of_In, Hwf in Hin.
    apply andb_prop in Hin as [[v Hv]%is_Ok_true [m Hm]%is_Ok_true].
    apply ips_same_subnet_Ok. exists v, v, m. by rewrite Z.eqb_refl. }
  destruct (find_router_for_ip_total routers r Hwf) as [o Ho].
  { destruct Hself as (? & _ & (v & _ & _ & -> & _)%ips_same_subnet_Ok). done. }
  pose proof (proj1 (find_router_loop_first routers r (dict_keys routers) o
                       (λ _ H, H)) Ho) as Hfirst.
  destruct o as [r'|].
  - exists r'. split; [done|]. by destruct Hfirst as (_ & _ & _ & ? & _).
  - destruct (Hfirst r Hr) as (info' & Hi & Hf).
    destruct Hself as (info'' & Hi' & Ht). congruence.
Qed.

(** X12: on any network of the model (every router has its netmask and its
    connections, every link its weight, as in the docstring) and for any two
    host texts, as many iterations as there are routers are enough for the
    program to end, with the dictionary as it was; when it raises, the
    exception is IndexError or ValueError (an address or a netmask that does
    not parse), OverflowError (a weight too large for a float, a prefix
    length too large for an index) or MemoryError (a prefix length that asks
    for a longer string than the machine grants). The lookups by router
    ([routers[r]], [distances[r]], [previous[r]], [unvisited.remove(r)])
    never raise KeyError. *)
Theorem search_always_ends
    (set_order : list string → list string) (routers : list (string * router))
    (src_ip dest_ip : string) :
  (∀ l, set_order l ≡ₚ l) →
  ∃ outcome,
    (∀ fuel, (length routers ≤ fuel)%nat →
       dijkstras_shortest_path set_order fuel routers src_ip dest_ip
       = Some (outcome, routers)) ∧
    ∀ e, outcome = Raise e → expected_exn e = true.
Proof.
  intros Hperm.
  destruct (dijkstras_shortest_path_outcome set_order Hperm routers src_ip dest_ip)
    as (outcome & Hrun & Hout).
  exists outcome. split; [done|]. by intros e ->.
Qed.

(** X13: the list that the program returns, on any network: no router
    appears twice in it, every element is a router of the network, there are
    at most as many as routers; it is empty exactly when the destination host
    matches no router or both hosts resolve to the same router (or to none),
    and otherwise its last element is the destination router. *)
Theorem route_shape
    (set_order : list string → list string) (routers : list (string * router))
    (src_ip dest_ip : string) (src dest : option string) (fuel : nat)
    (path : list string) (routers' : list (string * router)) :
  (∀ l, set_order l ≡ₚ l) →
  find_router_for_ip routers src_ip = Ok src →
  find_router_for_ip routers dest_ip = Ok dest →
  (length routers ≤ fuel)%nat →
  dijkstras_shortest_path set_order fuel routers src_ip dest_ip = Some (Ok path, routers') →
  NoDup path ∧ (∀ y, y ∈ path → y ∈ dict_keys routers) ∧
  (length path ≤ length routers)%nat ∧
  (path = [] ↔ dest = None ∨ src = dest) ∧
  (∀ d, dest = Some d → src ≠ dest → last path = Some d).
Proof.
  intros Hperm Hsrc Hdest Hfuel Hrun.
  destruct (dijkstras_shortest_path_outcome set_order Hperm routers src_ip dest_ip)
    as (outcome & Hrun' & Hout).
  rewrite Hrun' in Hrun by done. injection Hrun as -> _.
  destruct Hout as (src' & dest' & Hsrc' & Hdest' & Hshape).
  assert (src' = src) as -> by congruence. assert (dest' = dest) as -> by congruence.
  done.
Qed.

(** X14: the order in which the set of unvisited routers is iterated may
    change the route that is returned, never its weight: for two orders, on a
    network with distinct keys and no negative weight, the two routes between
    distinct routers joined by a path are paths of the same total weight. *)
Theorem route_weight_independent_of_order
    (order1 order2 : list string → list string) (routers : list (string * router))
    (src_ip dest_ip s d : string) (nodes : list string) (z : Z) :
  (∀ l, order1 l ≡ₚ l) →
  (∀ l, order2 l ≡ₚ l) →
  wf_graph routers = true →
  find_router_for_ip routers src_ip = Ok (Some s) →
  find_router_for_ip routers dest_ip = Ok (Some d) →
  s ≠ d →
  is_path routers s d nodes z →
  ∃ path1 path2 w,
    (∀ fuel, (length routers ≤ fuel)%nat →
       dijkstras_shortest_path order1 fuel routers src_ip dest_ip
       = Some (Ok path1, routers)) ∧
    (∀ fuel, (length routers ≤ fuel)%nat →
       dijkstras_shortest_path order2 fuel routers src_ip dest_ip
       = Some (Ok path2, routers)) ∧
    is_path routers s d path1 w ∧ is_path routers s d path2 w.
Proof.
  intros Hp1 Hp2 Hwf Hsrc Hdest Hsd Hpath.
  destruct (shortest_route order1 Hp1 routers src_ip dest_ip s d nodes z)
    as (path1 & w1 & Hrun1 & Hpath1 & Hmin1); try done.
  destruct (shortest_route order2 Hp2 routers src_ip dest_ip s d nodes z)
    as (path2 & w2 & Hrun2 & Hpath2 & Hmin2); try done.
  pose proof (Hmin1 _ _ Hpath2). pose proof (Hmin2 _ _ Hpath1).
  assert (w2 = w1) as -> by lia. by exists path1, path2, w1.
Qed.

(** X15: [find_routes] answers the pairs in order, each as a separate call of
    [dijkstras_shortest_path] on the dictionary it was given would: it adds
    one line per answered pair to the output, stops at the first pair whose
    call raises, with that exception and the lines of the pairs before it,
    and leaves the dictionary as it was. As many iterations as there are
    routers are enough for every pair. *)
Theorem find_routes_batch
    (set_order : list string → list string) (routers : list (string * router))
    (fuel : nat) (pairs : list (string * string)) (out : list string) :
  (∀ l, set_order l ≡ₚ l) →
  (length routers ≤ fuel)%nat →
  ∃ r lines,
    find_routes set_order fuel routers pairs out = Some (r, routers, out ++ lines) ∧
    Forall2 (printed set_order fuel routers) (take (length lines) pairs) lines ∧
    match r with
    | Ok _ => length lines = length pairs
    | Raise e =>
        ∃ a b, pairs !! length lines = Some (a, b) ∧
               dijkstras_shortest_path set_order fuel routers a b
               = Some (Raise e, routers)
    end.
Proof. intros Hperm Hfuel. by apply find_routes_spec. Qed.

(** X16: for canonical addresses the printed lines are aligned: the source
    address is right-aligned and the destination address left-aligned in 15
    columns each, so the list of routers starts at column 36; and the list
    is written with each address between single quotes, without escapes. *)
Theorem route_line_layout (src_ip dest_ip : string) (path : list string) :
  dotted_quad canonical_octet src_ip = true →
  dotted_quad canonical_octet dest_ip = true →
  Forall (λ k, dotted_quad canonical_octet k = true) path →
  ∃ left,
    String.length left = 36%nat ∧
    left = rep_char " " (15 - String.length src_ip) +:+ src_ip +:+ " -> " +:+ dest_ip
           +:+ rep_char " " (15 - String.length dest_ip) +:+ "  " ∧
    route_line src_ip dest_ip path
    = left +:+ "[" +:+ py_join ", " (quoted <$> path) +:+ "]".
Proof.
  intros [_ Hs]%canonical_quad_shape [_ Hd]%canonical_quad_shape Hpath.
  eexists. split; [|split; [reflexivity|]].
  - rewrite !string_length_app, !rep_char_length. simpl. lia.
  - unfold route_line, format_right, format_left, py_repr_list.
    assert (py_repr_str <$> path = quoted <$> path) as ->.
    { induction Hpath as [|k path Hk _ IH]; [done|]. cbn [fmap list_fmap].
      f_equal; [|done]. apply py_repr_str_plain. by apply canonical_quad_shape. }
    by rewrite !string_app_assoc.
Qed.

(** X17: how a caller tells a route from no route. On a network with
    distinct keys, no negative weight and every weight below 2^1024 - 2^970,
    for hosts that resolve to distinct routers [s] and [d], the program
    returns a list that is the destination router alone exactly when no path
    leads from [s] to [d], and that starts with the source router exactly
    when there is one. *)
Theorem no_route_is_detectable
    (set_order : list string → list string) (routers : list (string * router))
    (src_ip dest_ip s d : string) :
  (∀ l, set_order l ≡ₚ l) →
  wf_graph routers = true →
  weights_bounded routers = true →
  find_router_for_ip routers src_ip = Ok (Some s) →
  find_router_for_ip routers dest_ip = Ok (Some d) →
  s ≠ d →
  ∃ path,
    (∀ fuel, (length routers ≤ fuel)%nat →
       dijkstras_shortest_path set_order fuel routers src_ip dest_ip
       = Some (Ok path, routers)) ∧
    (path = [d] ↔ ∀ nodes z, ¬ is_path routers s d nodes z) ∧
    (head path = Some s ↔ ∃ nodes z, is_path routers s d nodes z).
Proof.
  intros Hperm Hwf Hb Hsrc Hdest Hsd.
  destruct (route_or_no_route set_order Hperm routers src_ip dest_ip s d)
    as (path & Hrun & Hcase); try done.
  exists path. split; [done|].
  destruct Hcase as [[z Hpath]|[-> Hno]].
  - assert (head path = Some s) as Hhead.
    { destruct path as [|u rest]; [done|]. by destruct Hpath as (-> & _). }
    split; split.
    + intros ->. simpl in Hhead. congruence.
    + intros Hno. by apply Hno in Hpath.
    + intros _. by exists path, z.
    + done.
  - split; split; try done.
    + simpl. congruence.
    + intros (nodes & z & Hpath). by apply Hno in Hpath.
Qed.

(** X18: [ips_same_subnet] looks at the low 32 bits only: for a prefix
    length between 0 and 32, two texts that [ipv4_to_value] accepts with
    values equal modulo 2^32 are in the same subnet, also when an octet is
    out of range (256.0.0.0 and 0.0.0.0, for instance). *)
Theorem same_subnet_low_bits (ip1 ip2 slash field : string) (n v1 v2 : Z) :
  py_split "/" slash !! 1%nat = Some field →
  py_int_opt 10 field = Some n →
  0 ≤ n ≤ 32 →
  ipv4_to_value ip1 = Ok v1 →
  ipv4_to_value ip2 = Ok v2 →
  v1 mod 2 ^ 32 = v2 mod 2 ^ 32 →
  ips_same_subnet ip1 ip2 slash = Ok true.
Proof.
  intros Hf Hn Hr H1 H2 Hmod. apply ips_same_subnet_Ok.
  exists v1, v2, (mask_of_prefix n). split_and!; try done.
  - by eapply get_subnet_mask_value_field.
  - symmetry. apply Z.eqb_eq.
    rewrite <- (land_mask_low_bits v1), <- (land_mask_low_bits v2) by done.
    by rewrite Hmod.
Qed.

End Further.

(** * The further properties at work *)

(** Instances of the properties, computed on [example_machine]. *)
Section FurtherExamples.

#[local] Existing Instance example_machine.

Lemma canonical_addresses_distinct_witness :
  value_to_ipv4 167772161 = "10.0.0.1".
Proof.
  apply (canonical_addresses_distinct (value_to_ipv4 167772161) "10.0.0.1").
  - vm_compute. reflexivity.
  - vm_compute. reflexivity.
  - vm_compute. reflexivity.
Defined.

Lemma ips_same_subnet_equivalence_witness :
  ips_same_subnet "10.0.0.5" "10.0.0.5" "/24" = Ok true ∧
  ips_same_subnet "10.0.0.200" "10.0.0.5" "/24" = Ok true ∧
  ips_same_subnet "10.0.0.5" "10.0.0.77" "/24" = Ok true.
Proof.
  split_and!.
  - apply (proj1 (ips_same_subnet_equivalence "10.0.0.5" "10.0.0.5" "10.0.0.5" "/24"));
      vm_compute; reflexivity.
  - apply (proj1 (proj2 (ips_same_subnet_equivalence "10.0.0.5" "10.0.0.200" "10.0.0.5" "/24"))).
    vm_compute. reflexivity.
  - apply (proj2 (proj2 (ips_same_subnet_equivalence "10.0.0.5" "10.0.0.200" "10.0.0.77"
                           "/24"))); vm_compute; reflexivity.
Defined.

Lemma same_subnet_iff_same_prefix_witness :
  ips_same_subnet "10.0.0.5" "10.0.1.5" "10.0.0.0/23"
  = Ok (Z.shiftr 167772165 (32 - 23) =? Z.shiftr 167772421 (32 - 23)).
Proof.
  apply (same_subnet_iff_same_prefix "10.0.0.5" "10.0.1.5" "10.0.0.0/23" "23" 23
           167772165 167772421).
  - vm_compute. reflexivity.
  - vm_compute. reflexivity.
  - lia.
  - vm_compute. reflexivity.
  - vm_compute. reflexivity.
  - vm_compute. reflexivity.
  - vm_compute. reflexivity.
Defined.

Lemma same_subnet_nested_witness :
  ips_same_subnet "10.0.0.5" "10.0.0.200" "/16" = Ok true.
Proof.
  apply (same_subnet_nested "10.0.0.5" "10.0.0.200" "/24" "24" "/16" "16" 24 16).
  - vm_compute. reflexivity.
  - vm_compute. reflexivity.
  - vm_compute. reflexivity.
  - vm_compute. reflexivity.
  - lia.
  - lia.
  - vm_compute. reflexivity.
  - vm_compute. reflexivity.
  - vm_compute. reflexivity.
Defined.

Lemma same_subnet_edge_prefixes_witness :
  ips_same_subnet "10.0.0.5" "192.168.7.9" "/0" = Ok true ∧
  ips_same_subnet "10.0.0.5" "10.0.0.6" "/40"
  = Ok (bool_decide ("10.0.0.5" = "10.0.0.6")).
Proof.
  split.
  - refine (proj1 (same_subnet_edge_prefixes "10.0.0.5" "192.168.7.9" "/0" "0" 0
                     _ _ _) _ _ _); first [lia | vm_compute; reflexivity].
  - refine (proj2 (same_subnet_edge_prefixes "10.0.0.5" "10.0.0.6" "/40" "40" 40
                     _ _ _) _ _ _); first [lia | vm_compute; reflexivity].
Defined.

Lemma get_subnet_mask_value_slash_witness :
  get_subnet_mask_value ("10.34.98.1" +:+ String "/" "24") = get_subnet_mask_value "/24" ∧
  get_subnet_mask_value "10.34.98.1" = Raise IndexError.
Proof.
  apply (get_subnet_mask_value_slash "10.34.98.1" "24"). vm_compute. reflexivity.
Defined.

Lemma malformed_host_raises_witness :
  find_router_for_ip triangle "10.0.1" = Raise IndexError ∧
  (∀ set_order fuel dest_ip,
     dijkstras_shortest_path set_order fuel triangle "10.0.1" dest_ip
     = Some (Raise IndexError, triangle)) ∧
  (∀ set_order fuel src_ip src,
     find_router_for_ip triangle src_ip = Ok src →
     dijkstras_shortest_path set_order fuel triangle src_ip "10.0.1"
     = Some (Raise IndexError, triangle)).
Proof.
  apply (malformed_host_raises triangle "10.0.1" IndexError).
  - discriminate.
  - vm_compute. reflexivity.
Defined.

Lemma empty_network_empty_path_witness :
  dijkstras_shortest_path (λ l, l) 0 [] "not an address" "10.0.0.1" = Some (Ok [], []).
Proof.
  apply (empty_network_empty_path (λ l, l) 0 "not an address" "10.0.0.1").
  intros l. reflexivity.
Defined.

Lemma router_address_is_served_witness :
  ∃ r', find_router_for_ip triangle "10.0.2.1" = Ok (Some r') ∧
        serves triangle "10.0.2.1" r' true.
Proof.
  apply (router_address_is_served triangle "10.0.2.1").
  - vm_compute. reflexivity.
  - apply list_elem_of_In. simpl. tauto.
Defined.

Lemma search_always_ends_witness :
  ∃ outcome,
    (∀ fuel, (length heavy_pair ≤ fuel)%nat →
       dijkstras_shortest_path (λ l, l) fuel heavy_pair "192.168.0.1" "10.0.1.7"
       = Some (outcome, heavy_pair)) ∧
    ∀ e, outcome = Raise e → expected_exn e = true.
Proof.
  apply (search_always_ends (λ l, l) heavy_pair "192.168.0.1" "10.0.1.7").
  intros l. reflexivity.
Defined.

Lemma route_shape_witness :
  NoDup ["10.0.1.1"; "10.0.2.1"; "10.0.3.1"] ∧
  (∀ y, y ∈ ["10.0.1.1"; "10.0.2.1"; "10.0.3.1"] → y ∈ dict_keys triangle) ∧
  (length ["10.0.1.1"; "10.0.2.1"; "10.0.3.1"] ≤ length triangle)%nat ∧
  (["10.0.1.1"; "10.0.2.1"; "10.0.3.1"] = [] ↔
     Some "10.0.3.1" = None ∨ Some "10.0.1.1" = Some "10.0.3.1") ∧
  (∀ d, Some "10.0.3.1" = Some d → Some "10.0.1.1" ≠ Some "10.0.3.1" →
        last ["10.0.1.1"; "10.0.2.1"; "10.0.3.1"] = Some d).
Proof.
  apply (route_shape (λ l, l) triangle "10.0.1.7" "10.0.3.9"
           (Some "10.0.1.1") (Some "10.0.3.1") 3 _ triangle).
  - intros l. reflexivity.
  - vm_compute. reflexivity.
  - vm_compute. reflexivity.
  - simpl. lia.
  - vm_compute. reflexivity.
Defined.

Lemma route_weight_independent_of_order_witness :
  ∃ path1 path2 w,
    (∀ fuel, (length triangle ≤ fuel)%nat →
       dijkstras_shortest_path (λ l, l) fuel triangle "10.0.1.7" "10.0.3.9"
       = Some (Ok path1, triangle)) ∧
    (∀ fuel, (length triangle ≤ fuel)%nat →
       dijkstras_shortest_path (λ l, rev l) fuel triangle "10.0.1.7" "10.0.3.9"
       = Some (Ok path2, triangle)) ∧
    is_path triangle "10.0.1.1" "10.0.3.1" path1 w ∧
    is_path triangle "10.0.1.1" "10.0.3.1" path2 w.
Proof.
  apply (route_weight_independent_of_order (λ l, l) (λ l, rev l) triangle
           "10.0.1.7" "10.0.3.9" "10.0.1.1" "10.0.3.1" ["10.0.1.1"; "10.0.3.1"] 20).
  - intros l. reflexivity.
  - intros l. symmetry. apply Permutation_rev.
  - vm_compute. reflexivity.
  - vm_compute. reflexivity.
  - vm_compute. reflexivity.
  - discriminate.
  - vm_compute. repeat split. apply list_elem_of_In. simpl. tauto.
Defined.

Lemma find_routes_batch_witness :
  ∃ r lines,
    find_routes (λ l, l) 3 triangle
      [("10.0.1.7", "10.0.3.9"); ("10.0.2.2", "bad"); ("10.0.1.7", "10.0.1.9")] []
    = Some (r, triangle, [] ++ lines) ∧
    Forall2 (printed (λ l, l) 3 triangle)
      (take (length lines)
         [("10.0.1.7", "10.0.3.9"); ("10.0.2.2", "bad"); ("10.0.1.7", "10.0.1.9")])
      lines ∧
    match r with
    | Ok _ => length lines = 3%nat
    | Raise e =>
        ∃ a b,
          [("10.0.1.7", "10.0.3.9"); ("10.0.2.2", "bad"); ("10.0.1.7", "10.0.1.9")]
            !! length lines = Some (a, b) ∧
          dijkstras_shortest_path (λ l, l) 3 triangle a b = Some (Raise e, triangle)
    end.
Proof.
  apply (find_routes_batch (λ l, l) triangle 3
           [("10.0.1.7", "10.0.3.9"); ("10.0.2.2", "bad"); ("10.0.1.7", "10.0.1.9")] []).
  - intros l. reflexivity.
  - simpl. lia.
Defined.

Lemma route_line_layout_witness :
  ∃ left,
    String.length left = 36%nat ∧
    left = rep_char " " (15 - String.length "10.0.1.7") +:+ "10.0.1.7" +:+ " -> "
           +:+ "10.0.3.9" +:+ rep_char " " (15 - String.length "10.0.3.9") +:+ "  " ∧
    route_line "10.0.1.7" "10.0.3.9" ["10.0.1.1"; "10.0.3.1"]
    = left +:+ "[" +:+ py_join ", " (quoted <$> ["10.0.1.1"; "10.0.3.1"]) +:+ "]".
Proof.
  apply (route_line_layout "10.0.1.7" "10.0.3.9" ["10.0.1.1"; "10.0.3.1"]).
  - vm_compute. reflexivity.
  - vm_compute. reflexivity.
  - repeat constructor.
Defined.

Lemma no_route_is_detectable_witness :
  ∃ path,
    (∀ fuel, (length two_islands ≤ fuel)%nat →
       dijkstras_shortest_path (λ l, l) fuel two_islands "10.0.1.7" "10.0.3.9"
       = Some (Ok path, two_islands)) ∧
    (path = ["10.0.3.1"] ↔ ∀ nodes z, ¬ is_path two_islands "10.0.1.1" "10.0.3.1" nodes z) ∧
    (head path = Some "10.0.1.1" ↔
       ∃ nodes z, is_path two_islands "10.0.1.1" "10.0.3.1" nodes z).
Proof.
  apply (no_route_is_detectable (λ l, l) two_islands "10.0.1.7" "10.0.3.9"
           "10.0.1.1" "10.0.3.1").
  - intros l. reflexivity.
  - vm_compute. reflexivity.
  - vm_compute. reflexivity.
  - vm_compute. reflexivity.
  - vm_compute. reflexivity.
  - discriminate.
Defined.

Lemma same_subnet_low_bits_witness :
  ips_same_subnet "256.0.0.0" "0.0.0.0" "/32" = Ok true.
Proof.
  apply (same_subnet_low_bits "256.0.0.0" "0.0.0.0" "/32" "32" 32 4294967296 0).
  - vm_compute. reflexivity.
  - vm_compute. reflexivity.
  - lia.
  - vm_compute. reflexivity.
  - vm_compute. reflexivity.
  - vm_compute. reflexivity.
Defined.

End FurtherExamples.
